(** * Multi-account Gmail client: configuration, credentials and CLI output

    A shallow embedding of [gmail_client.py] and of the output layer of
    [scripts/email_cli.py].  Python dictionaries are ordered association
    lists with unique keys, the file system is a finite map from paths to
    file contents, and every function that touches the file system, the
    log or standard output is a state transformer over [World] whose
    result says whether the Python code returned, raised or left the
    process through [sys.exit]. *)

From Stdlib Require Import ZArith Ascii.
From stdpp Require Import base option strings pretty list gmap.

Local Open Scope Z_scope.
#[local] Set Warnings "-register-all".

(** ** Python values *)

(** Truth value of a [str]: only the empty string is falsy. *)
Definition str_truthy (s : string) : bool := negb (bool_decide (s = "")).

(** Truth value of an [Optional[str]]: [None] and [""] are falsy. *)
Definition opt_truthy (o : option string) : bool :=
  match o with
  | Some s => str_truthy s
  | None => false
  end.

(** [a or b] on optional strings, with [b] a plain string. *)
Definition str_or (a : option string) (b : string) : string :=
  match a with
  | Some s => if str_truthy s then s else b
  | None => b
  end.

(** [s.startswith(p)] and [s.endswith("/")]. *)
Fixpoint startswith (p s : string) : bool :=
  match p, s with
  | EmptyString, _ => true
  | String a p', String b s' => bool_decide (a = b) && startswith p' s'
  | String _ _, EmptyString => false
  end.

Fixpoint ends_with_sep (s : string) : bool :=
  match s with
  | EmptyString => false
  | String c EmptyString => bool_decide (c = "/"%char)
  | String _ r => ends_with_sep r
  end.

(** Text of ASCII characters only.  The case and white-space functions
    modelled below act on ASCII letters and ASCII white space, which is
    what [str.lower] and [str.strip] do on such text. *)
Fixpoint is_ascii (s : string) : bool :=
  match s with
  | EmptyString => true
  | String c r => (nat_of_ascii c <? 128)%nat && is_ascii r
  end.

(** [os.path.isabs] and the two-argument [os.path.join] of [posixpath]. *)
Definition isabs (p : string) : bool := startswith "/" p.

Definition path_join (a b : string) : string :=
  if startswith "/" b then b
  else if bool_decide (a = "") || ends_with_sep a then a +:+ b
  else a +:+ "/" +:+ b.

(** ** Ordered dictionaries

    A Python [dict] (and a tomlkit table) keeps its keys in insertion
    order; assignment to a present key keeps its position, assignment to a
    new key appends it. *)
Module PyDict.
Section Dict.
Context {V : Type}.

Fixpoint get (k : string) (d : list (string * V)) : option V :=
  match d with
  | [] => None
  | (k', v) :: r => if bool_decide (k = k') then Some v else get k r
  end.

Definition mem (k : string) (d : list (string * V)) : bool :=
  match get k d with
  | Some _ => true
  | None => false
  end.

Fixpoint set (k : string) (v : V) (d : list (string * V)) : list (string * V) :=
  match d with
  | [] => [(k, v)]
  | (k', v') :: r =>
      if bool_decide (k = k') then (k, v) :: r else (k', v') :: set k v r
  end.

Definition keys (d : list (string * V)) : list string := d.*1.

(** Number of entries stored under [k]. *)
Definition count (k : string) (d : list (string * V)) : nat :=
  length (filter (λ kv, kv.1 = k) d).

(** Dictionary comprehension [{k: v for k, v in d.items() if k != x}]. *)
Definition without (x : string) (d : list (string * V)) : list (string * V) :=
  filter (λ kv, kv.1 ≠ x) d.

(** [{**base, **extra}]: the entries of [extra] are assigned in order. *)
Definition update (base extra : list (string * V)) : list (string * V) :=
  foldl (λ acc kv, set kv.1 kv.2 acc) base extra.
End Dict.
End PyDict.

(** ** JSON documents written to standard output *)
Inductive JVal :=
| JNull
| JBool (b : bool)
| JInt (z : Z)
| JStr (s : string)
| JList (l : list JVal)
| JObj (o : list (string * JVal)).

Definition jopt (o : option string) : JVal :=
  match o with
  | Some s => JStr s
  | None => JNull
  end.

(** ** The configuration document *)

(** One table [accounts.<name>]; keys other than [email] and [token_path]
    are carried along untouched. *)
Record AccountConfig := {
  email : option string;
  token_path : option string;
  other_keys : list (string * string)
}.

Record GmailSection := {
  scopes : option (list string);
  default_account : option string;
  default_query : option string
}.

Record ConfigDoc := {
  gmail : option GmailSection;
  accounts : option (list (string * AccountConfig))
}.

(** [config.get("accounts", {})] *)
Definition accounts_or_empty (d : ConfigDoc) : list (string * AccountConfig) :=
  default [] (accounts d).

(** ** OAuth credentials

    What [google.oauth2.credentials.Credentials] exposes to the client:
    [valid] is "has an access token and is not expired". *)
Record Creds := {
  access_token : option string;
  expired : bool;
  refresh_token : option string
}.

Definition valid (c : Creds) : bool :=
  match access_token c with
  | Some _ => negb (expired c)
  | None => false
  end.

(** ** Exceptions and results *)
Inductive Exn :=
| FileNotFoundError (path : string)
| TOMLDecodeError
| JSONDecodeError
| KeyError (key : string)
| AccountNotFound (name : string) (available : list string)
| HttpError (msg : string)
| OtherError (msg : string).

(** Text of [str(e)]; [AccountNotFound] is the [ValueError] raised by the
    constructor of [GmailClient].  [join_names] is the inside of the
    [repr] of a list of names that need no escaping. *)
Fixpoint join_names (l : list string) : string :=
  match l with
  | [] => ""
  | [s] => "'" +:+ s +:+ "'"
  | s :: r => "'" +:+ s +:+ "', " +:+ join_names r
  end.

Definition exn_message (e : Exn) : string :=
  match e with
  | FileNotFoundError p => "[Errno 2] No such file or directory: '" +:+ p +:+ "'"
  | TOMLDecodeError => "Invalid TOML"
  | JSONDecodeError => "Invalid JSON"
  | KeyError k => "'" +:+ k +:+ "'"
  | AccountNotFound n av =>
      "Account '" +:+ n +:+ "' not found in config.toml. Available accounts: ["
      +:+ join_names av +:+ "]"
  | HttpError m => m
  | OtherError m => m
  end.

Inductive Outcome (A : Type) :=
| Returned (a : A)
| Raised (e : Exn)
| Exited (code : Z).
Arguments Returned {A} a.
Arguments Raised {A} e.
Arguments Exited {A} code.

(** Exit status of the interpreter for an outcome of [main]: an uncaught
    exception prints a traceback and ends the process with status 1. *)
Definition exit_status {A} (o : Outcome A) : Z :=
  match o with
  | Returned _ => 0
  | Raised _ => 1
  | Exited c => c
  end.

(** ** The world: files and everything the process emits *)
Inductive File :=
| FToml (d : ConfigDoc)
| FCreds (c : Creds)
| FRaw.

Inductive Level := WARNING | ERROR | INFO.

Inductive Event :=
| EvLog (lvl : Level) (msg : string)
| EvPrint (text : string)
| EvJson (doc : JVal) (indent : option Z)
| EvStderr (text : string)
| EvWrite (path : string) (f : File).

Record World := {
  files : gmap string File;
  trace : list Event
}.

(** ** State-and-exception monad *)
Definition M (A : Type) : Type := World → Outcome A * World.

Definition ret {A} (a : A) : M A := λ w, (Returned a, w).

Definition bind {A B} (m : M A) (k : A → M B) : M B :=
  λ w, match m w with
       | (Returned a, w') => k a w'
       | (Raised e, w') => (Raised e, w')
       | (Exited c, w') => (Exited c, w')
       end.

Notation "'let*' x ':=' m 'in' k" := (bind m (λ x, k))
  (at level 10, x pattern, m at level 100, k at level 200).

Definition raise {A} (e : Exn) : M A := λ w, (Raised e, w).

(** [sys.exit(code)]: raises [SystemExit], which no [except Exception]
    clause catches. *)
Definition sys_exit {A} (code : Z) : M A := λ w, (Exited code, w).

(** [try: m except Exception as e: h e] *)
Definition try_except {A} (m : M A) (h : Exn → M A) : M A :=
  λ w, match m w with
       | (Raised e, w') => h e w'
       | r => r
       end.

(** [try: m except <class>: h e], for an exception class given by [sel]. *)
Definition try_except_only {A} (sel : Exn → bool) (m : M A) (h : Exn → M A) : M A :=
  λ w, match m w with
       | (Raised e, w') => if sel e then h e w' else (Raised e, w')
       | r => r
       end.

Definition lift_result {A} (r : Exn + A) : M A :=
  match r with
  | inl e => raise e
  | inr a => ret a
  end.

Definition emit (e : Event) : M unit :=
  λ w, (Returned (), {| files := files w; trace := trace w ++ [e] |}).

Definition logging (lvl : Level) (msg : string) : M unit := emit (EvLog lvl msg).
Definition print (text : string) : M unit := emit (EvPrint text).
Definition print_json (doc : JVal) (indent : option Z) : M unit := emit (EvJson doc indent).
Definition print_stderr (text : string) : M unit := emit (EvStderr text).

(** [os.path.exists] *)
Definition path_exists (p : string) : M bool :=
  λ w, (Returned (bool_decide (is_Some (files w !! p))), w).

(** [open(p, "w")] followed by a write of the whole contents. *)
Definition write_file (p : string) (f : File) : M unit :=
  λ w, (Returned (),
        {| files := <[p := f]> (files w); trace := trace w ++ [EvWrite p f] |}).

(** [tomllib.load] / [tomlkit.load] of the file at [p]. *)
Definition load_toml (p : string) : M ConfigDoc :=
  λ w, match files w !! p with
       | None => (Raised (FileNotFoundError p), w)
       | Some (FToml d) => (Returned d, w)
       | Some _ => (Raised TOMLDecodeError, w)
       end.

(** [Credentials.from_authorized_user_file] *)
Definition load_creds (p : string) : M Creds :=
  λ w, match files w !! p with
       | None => (Raised (FileNotFoundError p), w)
       | Some (FCreds c) => (Returned c, w)
       | Some _ => (Raised JSONDecodeError, w)
       end.

(** [os.path.dirname] of [posixpath]: the part up to the last separator,
    without trailing separators unless it consists of separators only. *)
Fixpoint head_upto_sep (p : string) : string :=
  match p with
  | EmptyString => EmptyString
  | String c r =>
      match head_upto_sep r with
      | EmptyString => if bool_decide (c = "/"%char) then "/" else EmptyString
      | h => String c h
      end
  end.

Fixpoint all_sep (s : string) : bool :=
  match s with
  | EmptyString => true
  | String c r => bool_decide (c = "/"%char) && all_sep r
  end.

Fixpoint rstrip_sep (s : string) : string :=
  match s with
  | EmptyString => EmptyString
  | String c r =>
      match rstrip_sep r with
      | EmptyString => if bool_decide (c = "/"%char) then EmptyString else String c EmptyString
      | r' => String c r'
      end
  end.

Definition dirname (p : string) : string :=
  let head := head_upto_sep p in
  if str_truthy head && negb (all_sep head) then rstrip_sep head else head.

(** The directories above [p], nearest first. *)
Fixpoint ancestors_fuel (fuel : nat) (p : string) : list string :=
  match fuel with
  | O => []
  | S f =>
      let d := dirname p in
      if bool_decide (d = "") || bool_decide (d = p) then []
      else d :: ancestors_fuel f d
  end.

Definition ancestors (p : string) : list string :=
  ancestors_fuel (String.length p) p.

(** [os.makedirs(name, exist_ok=True)].  Directories are implicit in the
    path map, so a successful call leaves the world as it is; the call
    raises when [name] is a regular file ([FileExistsError]) or lies
    below one ([NotADirectoryError], for the path directly below the
    nearest such file). *)
Fixpoint makedirs_chain (below : string) (chain : list string) (fs : gmap string File)
    : option Exn :=
  match chain with
  | [] => None
  | a :: r =>
      if bool_decide (is_Some (fs !! a)) then
        Some (OtherError ("[Errno 20] Not a directory: '" +:+ below +:+ "'"))
      else makedirs_chain a r fs
  end.

Definition makedirs (name : string) : M unit :=
  λ w, if bool_decide (is_Some (files w !! name)) then
         (Raised (OtherError ("[Errno 17] File exists: '" +:+ name +:+ "'")), w)
       else match makedirs_chain name (ancestors name) (files w) with
            | Some e => (Raised e, w)
            | None => (Returned (), w)
            end.

(** ** The installation and the provider

    [SKILL_DIR] is the directory of [gmail_client.py],
    [GMAIL_CREDENTIALS_PATH] the environment variable of that name, and
    the remaining fields are the answers of the OAuth and Gmail libraries:
    [inl e] when the call raises [e].  The authenticated service handle is
    represented by the credentials it was built from. *)
Record Env := {
  SKILL_DIR : string;
  GMAIL_CREDENTIALS_PATH : option string;
  refresh : Creds → Exn + Creds;
  run_local_server : string → list string → Exn + Creds;
  build : Creds → Exn + unit;
  getProfile : Creds → Exn + option string
}.

Record GmailClient := {
  self_config : ConfigDoc;
  self_creds : option Creds;
  self_service : option Creds;
  self_account_email : option string;
  self_account_name : string;
  self_account_config : AccountConfig;
  self_scopes : list string;
  self_credentials_path : string;
  self_token_path : string
}.

Definition with_creds (self : GmailClient) (c : option Creds) : GmailClient :=
  {| self_config := self_config self; self_creds := c;
     self_service := self_service self;
     self_account_email := self_account_email self;
     self_account_name := self_account_name self;
     self_account_config := self_account_config self;
     self_scopes := self_scopes self;
     self_credentials_path := self_credentials_path self;
     self_token_path := self_token_path self |}.

Definition with_service (self : GmailClient) (s : option Creds) : GmailClient :=
  {| self_config := self_config self; self_creds := self_creds self;
     self_service := s;
     self_account_email := self_account_email self;
     self_account_name := self_account_name self;
     self_account_config := self_account_config self;
     self_scopes := self_scopes self;
     self_credentials_path := self_credentials_path self;
     self_token_path := self_token_path self |}.

Definition with_account_email (self : GmailClient) (e : option string) : GmailClient :=
  {| self_config := self_config self; self_creds := self_creds self;
     self_service := self_service self;
     self_account_email := e;
     self_account_name := self_account_name self;
     self_account_config := self_account_config self;
     self_scopes := self_scopes self;
     self_credentials_path := self_credentials_path self;
     self_token_path := self_token_path self |}.

Definition is_FileNotFoundError (e : Exn) : bool :=
  match e with FileNotFoundError _ => true | _ => false end.

Definition is_HttpError (e : Exn) : bool :=
  match e with HttpError _ => true | _ => false end.

(** The dictionary literal returned by [_load_config] when the file is
    missing. *)
Definition default_config : ConfigDoc :=
  {| gmail := Some {| scopes := Some ["https://www.googleapis.com/auth/gmail.modify"];
                      default_account := Some "default";
                      default_query := None |};
     accounts := Some [("default",
                        {| email := None;
                           token_path := Some "tokens/default.json";
                           other_keys := [] |})] |}.

(** [f"tokens/{name}.json"] *)
Definition default_token_path (name : string) : string :=
  "tokens/" +:+ name +:+ ".json".

(** The table [{"token_path": f"tokens/{name}.json"}] of a fresh account and
    the empty table [{}]. *)
Definition fresh_account (name : string) : AccountConfig :=
  {| email := None; token_path := Some (default_token_path name); other_keys := [] |}.

Definition empty_account : AccountConfig :=
  {| email := None; token_path := None; other_keys := [] |}.

Definition set_email (a : AccountConfig) (e : string) : AccountConfig :=
  {| email := Some e; token_path := token_path a; other_keys := other_keys a |}.

(** Lines 67-76 of the constructor: the account name in use and its table. *)
Definition resolve (config : ConfigDoc) (account : option string)
    : Exn + (string * AccountConfig) :=
  let name :=
    if opt_truthy account then inr (default "" account)
    else match gmail config with
         | Some g => inr (default "default" (default_account g))
         | None => inl (KeyError "gmail")
         end in
  match name with
  | inl e => inl e
  | inr n =>
      let accts := accounts_or_empty config in
      match PyDict.get n accts with
      | None => inl (AccountNotFound n (PyDict.keys accts))
      | Some cfg => inr (n, cfg)
      end
  end.

(** [config["gmail"]["scopes"]] *)
Definition config_scopes (config : ConfigDoc) : Exn + list string :=
  match gmail config with
  | None => inl (KeyError "gmail")
  | Some g => match scopes g with
              | None => inl (KeyError "scopes")
              | Some s => inr s
              end
  end.

Section Client.
Variable E : Env.

Definition CONFIG_PATH : string := path_join (SKILL_DIR E) "config.toml".
Definition DEFAULT_CREDENTIALS_PATH : string := path_join (SKILL_DIR E) "credentials.json".
Definition DEFAULT_TOKENS_DIR : string := path_join (SKILL_DIR E) "tokens".

(** Token path of an account table, resolved against the skill directory. *)
Definition resolve_token_path (name : string) (cfg : AccountConfig) : string :=
  let tp := default (default_token_path name) (token_path cfg) in
  if negb (isabs tp) then path_join (SKILL_DIR E) tp else tp.

Definition _load_config : M ConfigDoc :=
  try_except_only is_FileNotFoundError
    (load_toml CONFIG_PATH)
    (λ _, let* _ := logging WARNING "config.toml not found, using defaults." in
          ret default_config).

(** [GmailClient.__init__] *)
Definition GmailClient_init (account : option string) : M GmailClient :=
  let* config := _load_config in
  let* r := lift_result (resolve config account) in
  let* sc := lift_result (config_scopes config) in
  ret {| self_config := config;
         self_creds := None;
         self_service := None;
         self_account_email := email r.2;
         self_account_name := r.1;
         self_account_config := r.2;
         self_scopes := sc;
         self_credentials_path :=
           default DEFAULT_CREDENTIALS_PATH (GMAIL_CREDENTIALS_PATH E);
         self_token_path := resolve_token_path r.1 r.2 |}.

(** [_save_email_to_config] *)
Definition _save_email_to_config (self : GmailClient) (em : string) : M unit :=
  try_except
    (let* doc := load_toml CONFIG_PATH in
     let accts := accounts_or_empty doc in
     let accts1 :=
       if PyDict.mem (self_account_name self) accts then accts
       else PyDict.set (self_account_name self) empty_account accts in
     let entry := default empty_account (PyDict.get (self_account_name self) accts1) in
     let accts2 := PyDict.set (self_account_name self) (set_email entry em) accts1 in
     write_file CONFIG_PATH (FToml {| gmail := gmail doc; accounts := Some accts2 |}))
    (λ e, logging WARNING ("Could not update config.toml: " +:+ exn_message e)).

(** [_update_account_email]; the only call that can raise is the profile
    request, which precedes every assignment to [self]. *)
Definition _update_account_email (self : GmailClient) : M GmailClient :=
  try_except
    (let* em := lift_result
                  (match self_service self with
                   | Some s => getProfile E s
                   | None => inl (OtherError "'NoneType' object has no attribute 'users'")
                   end) in
     if opt_truthy em then
       let self' := with_account_email self em in
       let* _ := _save_email_to_config self' (default "" em) in
       let* _ := logging INFO ("Account email updated: " +:+ default "" em) in
       ret self'
     else ret self)
    (λ e, let* _ := logging WARNING ("Could not fetch email address: " +:+ exn_message e) in
          ret self).

(** Lines 119-124 of [authenticate]: the refresh attempt, entered only
    for credentials that are expired and carry a refresh token. *)
Definition try_refresh (cr : option Creds) : M (option Creds) :=
  match cr with
  | Some c =>
      if expired c && opt_truthy (refresh_token c) then
        try_except
          (let* c' := lift_result (refresh E c) in ret (Some c'))
          (λ e, let* _ := logging ERROR ("Error refreshing token: " +:+ exn_message e) in
                ret None)
      else ret (Some c)
  | None => ret None
  end.

(** Lines 126-142: the interactive consent flow. *)
Definition interactive_consent (self : GmailClient) : M Creds :=
  let* ex := path_exists (self_credentials_path self) in
  if negb ex then
    let* _ := logging ERROR ("Credentials file not found at: " +:+ self_credentials_path self) in
    let* _ := logging ERROR "Please download credentials.json from Google Cloud Console." in
    let* _ := logging ERROR ("See README.md in " +:+ SKILL_DIR E +:+ " for setup instructions.") in
    sys_exit 1
  else lift_result (run_local_server E (self_credentials_path self) (self_scopes self)).

(** Lines 119-146: the body of [if not self.creds or not self.creds.valid]. *)
Definition reauthenticate (self : GmailClient) (cr : option Creds) : M Creds :=
  let* cr1 := try_refresh cr in
  let* c2 := match cr1 with
             | Some c => ret c
             | None => interactive_consent self
             end in
  let* _ := write_file (self_token_path self) (FCreds c2) in
  ret c2.

(** Lines 113-116: the cached token, when its file exists. *)
Definition load_cached (self : GmailClient) : M (option Creds) :=
  let* ex := path_exists (self_token_path self) in
  if ex then
    let* c := load_creds (self_token_path self) in ret (Some c)
  else ret (self_creds self).

(** Lines 108-111: the directory of the token file is created when the
    path names one. *)
Definition ensure_token_dir (self : GmailClient) : M unit :=
  let token_dir := dirname (self_token_path self) in
  if str_truthy token_dir then makedirs token_dir else ret ().

(** Lines 108-146: once the token directory is there, credentials that
    are present and valid are used as they are; anything else goes
    through [reauthenticate]. *)
Definition obtain_credentials (self : GmailClient) : M Creds :=
  let* _ := ensure_token_dir self in
  let* cr0 := load_cached self in
  match cr0 with
  | Some c => if valid c then ret c else reauthenticate self cr0
  | None => reauthenticate self cr0
  end.

(** Lines 148-159: build the service and resolve the address. *)
Definition build_session (self : GmailClient) (cr : Creds) : M GmailClient :=
  try_except_only is_HttpError
    (let* _ := lift_result (build E cr) in
     let self2 := with_service self (Some cr) in
     if negb (opt_truthy (self_account_email self2)) then _update_account_email self2
     else ret self2)
    (λ e, let* _ := logging ERROR ("An error occurred building the service: " +:+ exn_message e) in
          sys_exit 1).

(** [authenticate].  The object is handed on only when the method
    returns. *)
Definition authenticate (self : GmailClient) : M GmailClient :=
  let* cr := obtain_credentials self in
  build_session (with_creds self (Some cr)) cr.

(** ** Account management functions of the module *)

Definition get_available_accounts : M (list (string * AccountConfig)) :=
  try_except
    (let* config := load_toml CONFIG_PATH in ret (accounts_or_empty config))
    (λ _, ret []).

Definition ensure_account (name : string) : M bool :=
  try_except
    (let* doc := load_toml CONFIG_PATH in
     let accts := accounts_or_empty doc in
     if PyDict.mem name accts then ret true
     else
       let accts' := PyDict.set name (fresh_account name) accts in
       let* _ := write_file CONFIG_PATH
                   (FToml {| gmail := gmail doc; accounts := Some accts' |}) in
       let* _ := print ("Account '" +:+ name +:+ "' added to config.") in
       ret true)
    (λ e, let* _ := print ("Error ensuring account: " +:+ exn_message e) in
          ret false).

Definition set_default_account (name : string) : M bool :=
  try_except
    (let* doc := load_toml CONFIG_PATH in
     if negb (PyDict.mem name (accounts_or_empty doc)) then
       let* _ := print ("Account '" +:+ name +:+ "' not found.") in
       ret false
     else
       match gmail doc with
       | None => raise (KeyError "gmail")
       | Some g =>
           let g' := {| scopes := scopes g; default_account := Some name;
                        default_query := default_query g |} in
           let* _ := write_file CONFIG_PATH
                       (FToml {| gmail := Some g'; accounts := accounts doc |}) in
           let* _ := print ("Default account set to '" +:+ name +:+ "'.") in
           ret true
       end)
    (λ e, let* _ := print ("Error setting default account: " +:+ exn_message e) in
          ret false).

Definition remove_account (name : string) : M unit :=
  try_except
    (let* doc := load_toml CONFIG_PATH in
     match accounts doc with
     | Some accts =>
         if PyDict.mem name accts then
           let* _ := write_file CONFIG_PATH
                       (FToml {| gmail := gmail doc;
                                 accounts := Some (PyDict.without name accts) |}) in
           print ("Account '" +:+ name +:+ "' removed.")
         else print ("Account '" +:+ name +:+ "' not found.")
     | None => print ("Account '" +:+ name +:+ "' not found.")
     end)
    (λ e, print ("Error: " +:+ exn_message e)).

Fixpoint print_accounts (dflt : string) (items : list (string * AccountConfig)) : M unit :=
  match items with
  | [] => ret ()
  | (name, info) :: r =>
      let* _ := print ("  " +:+ name +:+ ": "
                       +:+ default "(not authenticated)" (email info)
                       +:+ (if bool_decide (name = dflt) then " [default]" else "")) in
      print_accounts dflt r
  end.

Definition list_accounts : M unit :=
  let* accts := get_available_accounts in
  match accts with
  | [] =>
      let* _ := print "No accounts configured." in
      print "Add one with: python gmail_client.py --auth <name>"
  | _ =>
      let* dflt :=
        try_except
          (let* config := load_toml CONFIG_PATH in
           ret (match gmail config with
                | Some g => default "default" (default_account g)
                | None => "default"
                end))
          (λ _, ret "default") in
      let* _ := print "Configured accounts:" in
      print_accounts dflt accts
  end.

(** One element of [status["accounts"]]. *)
Record AccountStatus := {
  st_name : string;
  st_email : option string;
  st_authenticated : bool
}.

Record SetupStatus := {
  config_exists : bool;
  credentials_exists : bool;
  st_accounts : list AccountStatus;
  ready : bool
}.

(** The loop of [check_setup] over [accounts.items()]. *)
Fixpoint account_statuses (items : list (string * AccountConfig)) : M (list AccountStatus) :=
  match items with
  | [] => ret []
  | (name, info) :: r =>
      let* a := path_exists (resolve_token_path name info) in
      let* rest := account_statuses r in
      ret ({| st_name := name; st_email := email info; st_authenticated := a |} :: rest)
  end.

Definition check_setup : M SetupStatus :=
  let* ce := path_exists CONFIG_PATH in
  let* cre := path_exists DEFAULT_CREDENTIALS_PATH in
  let* accts :=
    (if ce then
       try_except
         (let* config := load_toml CONFIG_PATH in
          account_statuses (accounts_or_empty config))
         (λ _, ret [])
     else ret []) in
  ret {| config_exists := ce;
         credentials_exists := cre;
         st_accounts := accts;
         ready := cre && existsb st_authenticated accts |}.

Definition status_json (s : SetupStatus) : JVal :=
  JObj [("config_exists", JBool (config_exists s));
        ("credentials_exists", JBool (credentials_exists s));
        ("accounts",
         JList (map (λ a, JObj [("name", JStr (st_name a));
                                ("email", jopt (st_email a));
                                ("authenticated", JBool (st_authenticated a))])
                    (st_accounts s)));
        ("ready", JBool (ready s))].

(** Parsed command line of [gmail_client.py]. *)
Record Args := {
  arg_auth : option string;
  arg_set_default : option string;
  arg_list : bool;
  arg_remove : option string;
  arg_check : bool
}.

Definition main (args : Args) : M unit :=
  if arg_check args then
    let* st := check_setup in print_json (status_json st) (Some 2)
  else if opt_truthy (arg_set_default args) then
    let* _ := set_default_account (default "" (arg_set_default args)) in ret ()
  else if opt_truthy (arg_remove args) then
    remove_account (default "" (arg_remove args))
  else if opt_truthy (arg_auth args) then
    let name := default "" (arg_auth args) in
    let* ok := ensure_account name in
    if negb ok then ret ()
    else
      let* _ := print ("Authenticating '" +:+ name +:+ "'...") in
      try_except
        (let* client := GmailClient_init (Some name) in
         let* client := authenticate client in
         print ("Authenticated: " +:+ default "None" (self_account_email client)))
        (λ e, print ("Error: " +:+ exn_message e))
  else list_accounts.
End Client.

(** ** The command layer of [scripts/email_cli.py] *)
Module email_cli.

(** A label as returned by the provider. *)
Record Label := {
  label_id : option string;
  label_name : option string;
  label_type : option string
}.

(** Answers of the Gmail API to the calls of the modelled commands.  A
    paginated listing is the finite sequence of its pages: the response
    to the n-th request carries a [nextPageToken] exactly when another
    page follows.  [summary_of] is the rendering of one fetched message
    into its summary entry and [date_before] the formatted date
    [days] days before now, or the [OverflowError] of the date
    arithmetic when that date cannot be represented. *)
Record Api := {
  labels_list : Creds → Exn + list Label;
  labels_delete : Creds → string → Exn + unit;
  filters_delete : Creds → string → Exn + unit;
  messages_list_label : Creds → string → Z → Exn + list string;
  messages_list_query : Creds → string → list (Exn + list string);
  batch_get : Creds → list string → Exn + list (string * JVal);
  batch_trash : Creds → list string → Exn + unit;
  summary_of : string → JVal → JVal;
  date_before : Z → Exn + string
}.

Definition ascii_lower (c : ascii) : ascii :=
  let n := nat_of_ascii c in
  if (65 <=? n)%nat && (n <=? 90)%nat then ascii_of_nat (n + 32) else c.

(** [str.lower] on ASCII text. *)
Fixpoint lower (s : string) : string :=
  match s with
  | EmptyString => EmptyString
  | String c r => String (ascii_lower c) (lower r)
  end.

(** [" " in s] *)
Fixpoint has_space (s : string) : bool :=
  match s with
  | EmptyString => false
  | String c r => bool_decide (c = " "%char) || has_space r
  end.

Definition dquote : string := String "034"%char EmptyString.

Definition output_error (message : string) (account : option string) : M unit :=
  let result := [("status", JStr "error"); ("message", JStr message)] in
  let result := if opt_truthy account
                then PyDict.set "account" (jopt account) result else result in
  print_json (JObj result) None.

Definition output_success (data : list (string * JVal)) (account : option string)
    (indent : option Z) : M unit :=
  let clean_data := PyDict.without "status" data in
  let result := PyDict.update [("status", JStr "success")] clean_data in
  let result := if opt_truthy account
                then PyDict.set "account" (jopt account) result else result in
  print_json (JObj result) indent.

Section Commands.
Variable E : Env.
Variable A : Api.

Definition get_client (account : option string) : M GmailClient :=
  let* client := GmailClient_init E account in
  authenticate E client.

(** [client.service], an attribute error when it was never built. *)
Definition service_of (client : GmailClient) : M Creds :=
  match self_service client with
  | Some s => ret s
  | None => raise (OtherError "'NoneType' object has no attribute 'users'")
  end.

Definition _list_labels (client : GmailClient) : M (list Label) :=
  let* svc := service_of client in
  lift_result (labels_list A svc).

(** First label whose id is [name_or_id]; else the first whose name
    equals it up to case. *)
Definition resolve_label (client : GmailClient) (name_or_id : string)
    : M (option string * option string * option string) :=
  let* labels := _list_labels client in
  match List.find (λ l, bool_decide (label_id l = Some name_or_id)) labels with
  | Some l => ret (label_id l, label_name l, label_type l)
  | None =>
      let needle := lower name_or_id in
      match List.find (λ l, bool_decide (lower (default "" (label_name l)) = needle))
                      labels with
      | Some l => ret (label_id l, label_name l, label_type l)
      | None => ret (None, None, None)
      end
  end.

Definition cmd_labels_delete (account : option string) (name_or_id : string) : M unit :=
  let* client := get_client account in
  try_except
    (let* r := resolve_label client name_or_id in
     let '(lid, lname, ltype) := r in
     if negb (opt_truthy lid) then
       output_error ("Label not found: " +:+ name_or_id) (self_account_email client)
     else if bool_decide (ltype = Some "system") then
       output_error ("Cannot delete system label: " +:+ default "None" lname)
                    (self_account_email client)
     else
       let* svc := service_of client in
       let* _ := lift_result (labels_delete A svc (default "" lid)) in
       output_success [("deleted_label_id", jopt lid); ("deleted_label_name", jopt lname)]
                      (self_account_email client) None)
    (λ e, output_error (exn_message e) (self_account_email client)).

Definition cmd_filters_delete (account : option string) (id : string) : M unit :=
  let* client := get_client account in
  try_except
    (let* svc := service_of client in
     let* _ := lift_result (filters_delete A svc id) in
     output_success [("deleted_id", JStr id)] (self_account_email client) None)
    (λ e, output_error (exn_message e) (self_account_email client)).

Definition cmd_summary (account : option string) (label : string) (limit : Z) : M unit :=
  let* client := get_client account in
  let* r := resolve_label client label in
  let '(lid, _, _) := r in
  if negb (opt_truthy lid) then
    output_error ("Label '" +:+ label +:+ "' not found") (self_account_email client)
  else
    let* svc := service_of client in
    let* msgs := lift_result (messages_list_label A svc (default "" lid) limit) in
    match msgs with
    | [] =>
        print_json (JObj [("emails", JList []); ("count", JInt 0);
                          ("account", jopt (self_account_email client))]) None
    | _ =>
        let* batch_resp := lift_result (batch_get A svc msgs) in
        let output := map (λ md, summary_of A md.1 md.2) batch_resp in
        print_json (JObj [("emails", JList output);
                          ("count", JInt (Z.of_nat (length output)));
                          ("account", jopt (self_account_email client))]) (Some 2)
    end.

(** The listing loop of [cmd_cleanup] over the pages of the result. *)
Fixpoint collect_pages (pages : list (Exn + list string)) (acc : list string)
    : M (list string) :=
  match pages with
  | [] => ret acc
  | p :: rest =>
      let* msgs := lift_result p in
      collect_pages rest (acc ++ msgs)
  end.

(** The trash loop of [cmd_cleanup]: a batch is executed after every
    50th message and after the last one. *)
Fixpoint trash_in_batches (svc : Creds) (batch : list string) (count total : nat)
    (ids : list string) : M unit :=
  match ids with
  | [] => ret ()
  | mid :: r =>
      let batch' := batch ++ [mid] in
      let count' := S count in
      if (count' mod 50 =? 0)%nat || (count' =? total)%nat then
        let* _ := lift_result (batch_trash A svc batch') in
        trash_in_batches svc [] count' total r
      else trash_in_batches svc batch' count' total r
  end.

Definition cmd_cleanup (account : option string) (label : string) (days : Z) : M unit :=
  let* client := get_client account in
  let* date_query := lift_result (date_before A days) in
  let label_query := if has_space label then dquote +:+ label +:+ dquote else label in
  let query := "label:" +:+ label_query +:+ " before:" +:+ date_query in
  let who := "[" +:+ default "None" (self_account_email client) +:+ "] " in
  let* _ := print_stderr (who +:+ "Searching for emails in '" +:+ label
                          +:+ "' before " +:+ date_query +:+ "...") in
  let* svc := service_of client in
  let* msgs_to_trash := collect_pages (messages_list_query A svc query) [] in
  match msgs_to_trash with
  | [] =>
      print_json (JObj [("status", JStr "success"); ("count", JInt 0);
                        ("message", JStr "No old emails found");
                        ("account", jopt (self_account_email client))]) None
  | _ =>
      let total := length msgs_to_trash in
      let* _ := print_stderr (who +:+ "Trashing " +:+ pretty total +:+ " emails...") in
      let* _ := trash_in_batches svc [] 0 total msgs_to_trash in
      print_json (JObj [("status", JStr "success"); ("count", JInt (Z.of_nat total));
                        ("account", jopt (self_account_email client))]) None
  end.

(** The commands modelled here, as selected by [argparse]. *)
Inductive Command :=
| Summary (label : string) (limit : Z)
| Cleanup (label : string) (days : Z)
| LabelsDelete (name_or_id : string)
| FiltersDelete (id : string).

(** [main]: [args.func(args)], with no handler around it. *)
Definition main (account : option string) (cmd : Command) : M unit :=
  match cmd with
  | Summary label limit => cmd_summary account label limit
  | Cleanup label days => cmd_cleanup account label days
  | LabelsDelete n => cmd_labels_delete account n
  | FiltersDelete i => cmd_filters_delete account i
  end.
End Commands.

(** ** Further helpers and commands of [scripts/email_cli.py] *)

(** [str.isspace] on ASCII characters. *)
Definition is_space (c : ascii) : bool :=
  let n := nat_of_ascii c in
  ((9 <=? n)%nat && (n <=? 13)%nat) || ((28 <=? n)%nat && (n <=? 32)%nat).

Fixpoint lstrip (s : string) : string :=
  match s with
  | EmptyString => EmptyString
  | String c r => if is_space c then lstrip r else s
  end.

Fixpoint rstrip (s : string) : string :=
  match s with
  | EmptyString => EmptyString
  | String c r =>
      match rstrip r with
      | EmptyString => if is_space c then EmptyString else String c EmptyString
      | r' => String c r'
      end
  end.

(** [str.strip()] on ASCII text. *)
Definition strip (s : string) : string := lstrip (rstrip s).

(** [s.split(",")]: always at least one piece. *)
Fixpoint split_comma (s : string) : list string :=
  match s with
  | EmptyString => [EmptyString]
  | String c r =>
      if bool_decide (c = ","%char) then EmptyString :: split_comma r
      else match split_comma r with
           | h :: t => String c h :: t
           | [] => [String c EmptyString]
           end
  end.

(** [get_header]: the value of the first header whose name equals [name]
    up to case.  A header is its pair of [name] and [value]. *)
Definition get_header (headers : list (string * string)) (name dflt : string) : string :=
  match List.find (λ h, bool_decide (lower h.1 = lower name)) headers with
  | Some h => h.2
  | None => dflt
  end.

(** Outcome of [json.loads] on a text that starts with a bracket: the
    [str] of each item of the array, a [JSONDecodeError] with its text,
    or another exception of the decoder ([RecursionError] for deep
    nesting, [ValueError] for an integer with too many digits). *)
Inductive JsonLoads :=
| JsonArray (items : list string)
| JsonDecodeError (msg : string)
| JsonRaises (e : Exn).

(** What the commands below need besides [Api]: [json_loads] is
    [json.loads]; [batch_execute] is the execution of one batch of
    [trash] or [untrash] requests; [batchModify] and [labels_create] are
    the provider calls of these names, the latter answering with the id
    of the new label. *)
Record Ext := {
  json_loads : string → JsonLoads;
  batch_execute : Creds → string → list string → Exn + unit;
  batchModify : Creds → list string → list string → list string → Exn + unit;
  labels_create : Creds → string → Exn + string
}.

Section MoreCommands.
Variable E : Env.
Variable A : Api.
Variable X : Ext.

(** [parse_ids].  Only a [JSONDecodeError] is handled; its error
    document goes to standard error, and the texts of decoder errors hold
    no character that JSON escapes. *)
Definition parse_ids (ids_input : option string) : M (list string) :=
  if negb (opt_truthy ids_input) then ret []
  else
    let s := strip (default "" ids_input) in
    if startswith "[" s then
      match json_loads X s with
      | JsonArray parsed =>
          ret (map strip (List.filter (λ i, str_truthy (strip i)) parsed))
      | JsonRaises e => raise e
      | JsonDecodeError msg =>
          let* _ := print_stderr ("{" +:+ dquote +:+ "status" +:+ dquote +:+ ": "
                                  +:+ dquote +:+ "error" +:+ dquote +:+ ", "
                                  +:+ dquote +:+ "message" +:+ dquote +:+ ": "
                                  +:+ dquote +:+ "Invalid JSON: " +:+ msg +:+ dquote +:+ "}") in
          ret []
      end
    else ret (map strip (List.filter (λ i, str_truthy (strip i)) (split_comma s))).

(** The loop of [batch_message_operation]: the first exception of a batch
    execution, if any.  The pause between batches has no effect here. *)
Fixpoint execute_batches (svc : Creds) (operation : string) (batch : list string)
    (i total : nat) (ids : list string) : option Exn :=
  match ids with
  | [] => None
  | mid :: r =>
      let batch' := batch ++ [mid] in
      let i' := S i in
      if (i' mod 50 =? 0)%nat || (i' =? total)%nat then
        match batch_execute X svc operation batch' with
        | inl e => Some e
        | inr _ => execute_batches svc operation [] i' total r
        end
      else execute_batches svc operation batch' i' total r
  end.

Definition batch_message_operation (client : GmailClient) (ids : list string)
    (operation : string) : M JVal :=
  match ids with
  | [] => ret (JObj [("status", JStr "skipped"); ("count", JInt 0);
                     ("account", jopt (self_account_email client))])
  | _ =>
      let* svc := service_of client in
      match execute_batches svc operation [] 0 (length ids) ids with
      | Some e => ret (JObj [("status", JStr "error"); ("message", JStr (exn_message e));
                             ("account", jopt (self_account_email client))])
      | None => ret (JObj [("status", JStr "success");
                           ("count", JInt (Z.of_nat (length ids)));
                           ("account", jopt (self_account_email client))])
      end
  end.

Definition cmd_trash (account : option string) (ids_input : option string) : M unit :=
  let* client := get_client E account in
  let* ids := parse_ids ids_input in
  let* result := batch_message_operation client ids "trash" in
  print_json result None.

Definition cmd_untrash (account : option string) (ids_input : option string) : M unit :=
  let* client := get_client E account in
  let* ids := parse_ids ids_input in
  let* result := batch_message_operation client ids "untrash" in
  print_json result None.

Definition cmd_archive (account : option string) (ids_input : option string) (read : bool)
    : M unit :=
  let* client := get_client E account in
  let* ids := parse_ids ids_input in
  match ids with
  | [] => output_success [("count", JInt 0); ("status", JStr "skipped")]
                         (self_account_email client) None
  | _ =>
      let remove_labels := if read then ["INBOX"; "UNREAD"] else ["INBOX"] in
      try_except
        (let* svc := service_of client in
         let* _ := lift_result (batchModify X svc ids [] remove_labels) in
         let data := [("count", JInt (Z.of_nat (length ids))); ("action", JStr "archive")] in
         let data := if read then PyDict.set "marked_read" (JBool true) data else data in
         output_success data (self_account_email client) None)
        (λ e, output_error (exn_message e) (self_account_email client))
  end.

(** [ensure_label] *)
Definition ensure_label (client : GmailClient) (label_name : string) (create : bool)
    : M (option string) :=
  let* r := resolve_label A client label_name in
  let '(lid, _, _) := r in
  if opt_truthy lid then ret lid
  else if negb create then ret None
  else
    try_except
      (let* svc := service_of client in
       let* new_id := lift_result (labels_create X svc label_name) in
       ret (Some new_id))
      (λ e, let* _ := output_error ("Failed to create label: " +:+ exn_message e)
                                   (self_account_email client) in
            ret None).

Definition cmd_move (account : option string) (ids_input : option string) (label : string)
    (create read : bool) : M unit :=
  let* client := get_client E account in
  let* ids := parse_ids ids_input in
  match ids with
  | [] => print_json (JObj [("status", JStr "skipped"); ("count", JInt 0);
                            ("account", jopt (self_account_email client))]) None
  | _ =>
      let* label_id := ensure_label client label create in
      if negb (opt_truthy label_id) then
        output_error ("Label not found: '" +:+ label
                      +:+ "'. Use --create to create it, or check existing labels with 'labels list'.")
                     (self_account_email client)
      else
        let remove_labels := if read then ["INBOX"; "UNREAD"] else ["INBOX"] in
        try_except
          (let* svc := service_of client in
           let* _ := lift_result (batchModify X svc ids [default "" label_id] remove_labels) in
           let data := [("count", JInt (Z.of_nat (length ids))); ("label", JStr label)] in
           let data := if read then PyDict.set "marked_read" (JBool true) data else data in
           output_success data (self_account_email client) None)
          (λ e, output_error (exn_message e) (self_account_email client))
  end.

(** [cmd_accounts] *)
Definition cmd_accounts : M unit :=
  let* accts := get_available_accounts E in
  match accts with
  | [] => print_json (JObj [("accounts", JList []); ("count", JInt 0)]) None
  | _ =>
      let* dflt :=
        try_except
          (let* config := load_toml (CONFIG_PATH E) in
           ret (match gmail config with
                | Some g => default "default" (default_account g)
                | None => "default"
                end))
          (λ e, let* _ := print_stderr ("Warning: Could not read config: " +:+ exn_message e) in
                ret "default") in
      let output :=
        map (λ kv, JObj [("name", JStr kv.1);
                         ("email", JStr (default "(not authenticated)" (email kv.2)));
                         ("is_default", JBool (bool_decide (kv.1 = dflt)))])
            accts in
      print_json (JObj [("accounts", JList output);
                        ("count", JInt (Z.of_nat (length output)))]) (Some 2)
  end.
End MoreCommands.
End email_cli.

(** ** Reading messages through [GmailClient] *)

(** A part of a message payload, the payload and the message resource, as
    far as [get_message_detail] reads them.  [body_data] is [None] when
    the payload has no [body] key and [Some None] when the body has no
    [data]. *)
Record Part := {
  mimeType : string;
  part_data : option string
}.

Record Payload := {
  headers : list (string * string);
  parts : option (list Part);
  body_data : option (option string)
}.

Record Message := {
  payload : option Payload;
  threadId : option string;
  snippet : option string
}.

(** Answers of the provider and of the base64 and UTF-8 decoders to the
    two reading methods. *)
Record Mailbox := {
  messages_list : Creds → string → Z → Exn + list JVal;
  messages_get : Creds → string → Exn + Message;
  urlsafe_b64decode : string → Exn + string
}.

(** [next((h["value"] for h in headers if h["name"].lower() == lname), dflt)] *)
Definition header_or (hs : list (string * string)) (lname dflt : string) : string :=
  match List.find (λ h, bool_decide (email_cli.lower h.1 = lname)) hs with
  | Some h => h.2
  | None => dflt
  end.

Section Reading.
Variable B : Mailbox.

(** [list_messages] *)
Definition list_messages (self : GmailClient) (query : option string)
    (max_results : option Z) : M (list JVal) :=
  match self_service self with
  | None =>
      let* _ := logging ERROR "Service not initialized. Authenticate first." in
      ret []
  | Some svc =>
      let* final_query :=
        match query with
        | Some q => ret q
        | None => match gmail (self_config self) with
                  | Some g => ret (default "is:unread" (default_query g))
                  | None => raise (KeyError "gmail")
                  end
        end in
      let final_max_results := default 10 max_results in
      try_except_only is_HttpError
        (lift_result (messages_list B svc final_query final_max_results))
        (λ e, let* _ := logging ERROR ("An error occurred: " +:+ exn_message e) in
              ret [])
  end.

(** The loop over [payload["parts"]]: the decoded data of the first
    [text/plain] part that has data. *)
Fixpoint plain_body (ps : list Part) (body : string) : M string :=
  match ps with
  | [] => ret body
  | p :: r =>
      if bool_decide (mimeType p = "text/plain") then
        if opt_truthy (part_data p) then
          lift_result (urlsafe_b64decode B (default "" (part_data p)))
        else plain_body r body
      else plain_body r body
  end.

(** [get_message_detail]; the empty dictionary is [JObj []]. *)
Definition get_message_detail (self : GmailClient) (msg_id : string) : M JVal :=
  match self_service self with
  | None =>
      let* _ := logging ERROR "Service not initialized." in
      ret (JObj [])
  | Some svc =>
      try_except_only is_HttpError
        (let* message := lift_result (messages_get B svc msg_id) in
         let hs := match payload message with Some pl => headers pl | None => [] end in
         let subject := header_or hs "subject" "No Subject" in
         let sender := header_or hs "from" "Unknown Sender" in
         let date := header_or hs "date" "Unknown Date" in
         let* body :=
           match payload message with
           | Some pl =>
               match parts pl with
               | Some ps => plain_body ps "No plain text body found."
               | None =>
                   match body_data pl with
                   | Some d =>
                       if opt_truthy d then lift_result (urlsafe_b64decode B (default "" d))
                       else ret "No plain text body found."
                   | None => ret "No plain text body found."
                   end
               end
           | None => ret "No plain text body found."
           end in
         ret (JObj [("id", JStr msg_id);
                    ("threadId", jopt (threadId message));
                    ("subject", JStr subject);
                    ("from", JStr sender);
                    ("date", JStr date);
                    ("snippet", jopt (snippet message));
                    ("body", JStr body)]))
        (λ e, let* _ := logging ERROR ("An error occurred fetching message " +:+ msg_id
                                       +:+ ": " +:+ exn_message e) in
              ret (JObj []))
  end.
End Reading.

(** ** Sample installations, used to run the model on concrete inputs *)

Definition refreshed_creds : Creds :=
  {| access_token := Some "refreshed"; expired := false; refresh_token := Some "r1" |}.

Definition consented_creds : Creds :=
  {| access_token := Some "consented"; expired := false; refresh_token := Some "r2" |}.

Definition valid_creds : Creds :=
  {| access_token := Some "cached"; expired := false; refresh_token := Some "r0" |}.

(** An expired token that can be refreshed, and one that cannot. *)
Definition expired_creds : Creds :=
  {| access_token := Some "old"; expired := true; refresh_token := Some "r0" |}.

Definition stale_creds : Creds :=
  {| access_token := Some "old"; expired := true; refresh_token := None |}.

(** A provider where every call succeeds. *)
Definition sample_env : Env :=
  {| SKILL_DIR := "/opt/skill";
     GMAIL_CREDENTIALS_PATH := None;
     refresh := λ _, inr refreshed_creds;
     run_local_server := λ _ _, inr consented_creds;
     build := λ _, inr ();
     getProfile := λ _, inr (Some "me@example.com") |}.

(** The same installation with a refresh endpoint that rejects the token. *)
Definition revoked_env : Env :=
  {| SKILL_DIR := "/opt/skill";
     GMAIL_CREDENTIALS_PATH := None;
     refresh := λ _, inl (OtherError "invalid_grant");
     run_local_server := λ _ _, inr consented_creds;
     build := λ _, inr ();
     getProfile := λ _, inr (Some "me@example.com") |}.

Definition sample_doc : ConfigDoc :=
  {| gmail := Some {| scopes := Some ["https://www.googleapis.com/auth/gmail.modify"];
                      default_account := Some "default";
                      default_query := None |};
     accounts := Some [("default",
                        {| email := Some "me@example.com";
                           token_path := Some "tokens/default.json";
                           other_keys := [] |});
                       ("work",
                        {| email := None; token_path := None; other_keys := [] |})] |}.

Definition world_of (fs : list (string * File)) : World :=
  {| files := list_to_map fs; trace := [] |}.

(** A fresh installation: no file at all. *)
Definition fresh_world : World := world_of [].

(** A configured installation without any token. *)
Definition configured_world : World :=
  world_of [("/opt/skill/config.toml", FToml sample_doc);
            ("/opt/skill/credentials.json", FRaw)].

(** No configuration file, but a client secret and a valid token for the
    implicit account [default]. *)
Definition unconfigured_authenticated_world : World :=
  world_of [("/opt/skill/credentials.json", FRaw);
            ("/opt/skill/tokens/default.json", FCreds valid_creds)].

(** Configured, with a client secret and a token for [work] in the state
    given by [c]. *)
Definition world_with_token (c : Creds) : World :=
  world_of [("/opt/skill/config.toml", FToml sample_doc);
            ("/opt/skill/credentials.json", FRaw);
            ("/opt/skill/tokens/work.json", FCreds c)].

(** The same without the client secret. *)
Definition world_without_secret (c : Creds) : World :=
  world_of [("/opt/skill/config.toml", FToml sample_doc);
            ("/opt/skill/tokens/work.json", FCreds c)].

(** The client object the constructor builds for [work] on [sample_doc]. *)
Definition work_client : GmailClient :=
  {| self_config := sample_doc;
     self_creds := None;
     self_service := None;
     self_account_email := None;
     self_account_name := "work";
     self_account_config := {| email := None; token_path := None; other_keys := [] |};
     self_scopes := ["https://www.googleapis.com/auth/gmail.modify"];
     self_credentials_path := "/opt/skill/credentials.json";
     self_token_path := "/opt/skill/tokens/work.json" |}.

(** The client for an account whose [token_path] is
    [config.toml/t.json]: the directory of its token file is the
    configuration file. *)
Definition blocked_client : GmailClient :=
  {| self_config := sample_doc;
     self_creds := None;
     self_service := None;
     self_account_email := None;
     self_account_name := "work";
     self_account_config := {| email := None; token_path := Some "config.toml/t.json";
                               other_keys := [] |};
     self_scopes := ["https://www.googleapis.com/auth/gmail.modify"];
     self_credentials_path := "/opt/skill/credentials.json";
     self_token_path := "/opt/skill/config.toml/t.json" |}.

(** The account name the constructor is specified to use: the explicit
    name, or [default_account], or the literal [default]; a missing
    [gmail] table counts as an unset [default_account]. *)
Definition resolved_name_of (config : ConfigDoc) (account : option string) : string :=
  str_or account (default "default" (gmail config ≫= default_account)).


(** A configuration file without [gmail] table. *)
Definition headless_doc : ConfigDoc :=
  {| gmail := None;
     accounts := Some [("default",
                        {| email := None; token_path := Some "tokens/default.json";
                           other_keys := [] |})] |}.

Definition headless_world : World :=
  world_of [("/opt/skill/config.toml", FToml headless_doc);
            ("/opt/skill/credentials.json", FRaw)].

(** Number of writes to [path] recorded in a trace. *)
Definition is_write_to (path : string) (e : Event) : bool :=
  match e with
  | EvWrite p _ => bool_decide (p = path)
  | _ => false
  end.

Definition writes_to (path : string) (t : list Event) : nat :=
  length (filter (λ e, is_write_to path e = true) t).

(** Documents written to standard output, in order. *)
Definition json_output (t : list Event) : list JVal :=
  omap (λ e, match e with EvJson d _ => Some d | _ => None end) t.

(** The update [recordEmail] is specified to make: the account's table
    gets the address, and is created when absent. *)
Definition record_email (doc : ConfigDoc) (name em : string) : ConfigDoc :=
  {| gmail := gmail doc;
     accounts :=
       Some (PyDict.set name
               (set_email (default empty_account (PyDict.get name (accounts_or_empty doc))) em)
               (accounts_or_empty doc)) |}.

(** The three error records logged before the process exits for want of
    the client secret file. *)
Definition missing_secret_guidance (E : Env) (self : GmailClient) : list Event :=
  [EvLog ERROR ("Credentials file not found at: " +:+ self_credentials_path self);
   EvLog ERROR "Please download credentials.json from Google Cloud Console.";
   EvLog ERROR ("See README.md in " +:+ SKILL_DIR E +:+ " for setup instructions.")].

(** The file at [q] is neither changed nor written to between two worlds,
    and a computation [keeps] it when that holds for each of its runs. *)
Definition untouched (q : string) (w w' : World) : Prop :=
  files w' !! q = files w !! q ∧ writes_to q (trace w') = writes_to q (trace w).

Definition keeps {A} (q : string) (m : M A) : Prop :=
  ∀ w o w', m w = (o, w') → untouched q w w'.

(** A provider whose label and message listings answer with a server
    error. *)
Definition failing_api : email_cli.Api :=
  {| email_cli.labels_list := λ _, inl (HttpError "HttpError 503: backend unavailable");
     email_cli.labels_delete := λ _ _, inr ();
     email_cli.filters_delete := λ _ _, inr ();
     email_cli.messages_list_label := λ _ _ _, inr [];
     email_cli.messages_list_query := λ _ _, [inl (HttpError "HttpError 503: backend unavailable")];
     email_cli.batch_get := λ _ _, inr [];
     email_cli.batch_trash := λ _ _, inr ();
     email_cli.summary_of := λ _ m, m;
     email_cli.date_before := λ _, inr "2026/01/01" |}.

(** Configured and authenticated: the account [default] has its address
    recorded and a valid token. *)
Definition ready_world : World :=
  world_of [("/opt/skill/config.toml", FToml sample_doc);
            ("/opt/skill/credentials.json", FRaw);
            ("/opt/skill/tokens/default.json", FCreds valid_creds)].

(** ** Notions used to state further properties *)

(** A text without leading or trailing white space. *)
Definition clean (s : string) : Prop :=
  email_cli.lstrip s = s ∧ email_cli.rstrip s = s.

(** [",".join(l)] *)
Fixpoint join_comma (l : list string) : string :=
  match l with
  | [] => EmptyString
  | [x] => x
  | x :: r => x +:+ "," +:+ join_comma r
  end.

(** [c in s] for a character. *)
Fixpoint has_char (c : ascii) (s : string) : bool :=
  match s with
  | EmptyString => false
  | String a r => bool_decide (a = c) || has_char c r
  end.

(** A list cut into consecutive pieces of [n] elements, the last one
    possibly shorter. *)
Fixpoint chunks_fuel {T} (fuel n : nat) (l : list T) : list (list T) :=
  match fuel with
  | O => []
  | S f =>
      match l with
      | [] => []
      | _ => take n l :: chunks_fuel f n (drop n l)
      end
  end.

Definition chunks {T} (n : nat) (l : list T) : list (list T) :=
  chunks_fuel (length l) n l.

(** Running [exec] on each piece in turn, up to the first failure. *)
Fixpoint exec_all {T} (exec : T → Exn + unit) (bs : list T) : option Exn :=
  match bs with
  | [] => None
  | b :: r =>
      match exec b with
      | inl e => Some e
      | inr _ => exec_all exec r
      end
  end.

(** How a computation may end: [r] allows an exception, [x] allows an
    exit, which then has status 1. *)
Definition ends {A} (r x : bool) (m : M A) : Prop :=
  ∀ w o w', m w = (o, w') →
    match o with
    | Returned _ => True
    | Raised _ => r = true
    | Exited c => x = true ∧ c = 1
    end.

(** [m] changes no file, prints no document and does not exit. *)
Definition silent {T} (m : M T) : Prop :=
  ∀ w o w', m w = (o, w') →
    files w' = files w ∧ json_output (trace w') = json_output (trace w)
    ∧ ∀ c, o ≠ Exited c.

(** [m] is silent when it raises, does not exit, and when it returns it
    has printed exactly one document with status [success] or [error]. *)
Definition tail_reports (m : M unit) : Prop :=
  ∀ w o w', m w = (o, w') →
    files w' = files w
    ∧ match o with
      | Returned _ =>
          ∃ doc, json_output (trace w') = json_output (trace w) ++ [JObj doc]
                 ∧ (PyDict.get "status" doc = Some (JStr "success")
                    ∨ PyDict.get "status" doc = Some (JStr "error"))
      | Raised _ => json_output (trace w') = json_output (trace w)
      | Exited _ => False
      end.

(** The triple [resolve_label] returns for a label. *)
Definition label_triple (l : email_cli.Label) :=
  (email_cli.label_id l, email_cli.label_name l, email_cli.label_type l).

(** The client [get_client] returns for the default account of
    [ready_world]. *)
Definition ready_client : GmailClient :=
  {| self_config := sample_doc;
     self_creds := Some valid_creds;
     self_service := Some valid_creds;
     self_account_email := Some "me@example.com";
     self_account_name := "default";
     self_account_config := {| email := Some "me@example.com";
                               token_path := Some "tokens/default.json";
                               other_keys := [] |};
     self_scopes := ["https://www.googleapis.com/auth/gmail.modify"];
     self_credentials_path := "/opt/skill/credentials.json";
     self_token_path := "/opt/skill/tokens/default.json" |}.

Definition sample_labels : list email_cli.Label :=
  [{| email_cli.label_id := Some "INBOX"; email_cli.label_name := Some "INBOX";
      email_cli.label_type := Some "system" |};
   {| email_cli.label_id := Some "Label_7"; email_cli.label_name := Some "Receipts";
      email_cli.label_type := Some "user" |}].

(** A provider where every call succeeds: two labels, and three old
    messages listed on two pages. *)
Definition sample_api : email_cli.Api :=
  {| email_cli.labels_list := λ _, inr sample_labels;
     email_cli.labels_delete := λ _ _, inr ();
     email_cli.filters_delete := λ _ _, inr ();
     email_cli.messages_list_label := λ _ _ _, inr [];
     email_cli.messages_list_query := λ _ _, [inr ["m1"; "m2"]; inr ["m3"]];
     email_cli.batch_get := λ _ _, inr [];
     email_cli.batch_trash := λ _ _, inr ();
     email_cli.summary_of := λ _ m, m;
     email_cli.date_before := λ _, inr "2026/01/01" |}.

Definition sample_ext : email_cli.Ext :=
  {| email_cli.json_loads :=
       λ _, email_cli.JsonDecodeError "Expecting value: line 1 column 2 (char 1)";
     email_cli.batch_execute := λ _ _ _, inr ();
     email_cli.batchModify := λ _ _ _ _, inr ();
     email_cli.labels_create := λ _ _, inr "Label_9" |}.

(** A mailbox whose message requests answer with a server error. *)
Definition failing_mailbox : Mailbox :=
  {| messages_list := λ _ _ _, inl (HttpError "HttpError 503: backend unavailable");
     messages_get := λ _ _, inl (HttpError "HttpError 503: backend unavailable");
     urlsafe_b64decode := λ s, inr s |}.

(** * Properties *)

(** ** Ordered dictionaries *)
Section DictFacts.
Context {V : Type}.
Implicit Types (d : list (string * V)) (k : string) (v : V).

Lemma get_set_eq k v d : PyDict.get k (PyDict.set k v d) = Some v.
Proof.
  induction d as [|[k' v'] r IH]; simpl.
  - by rewrite bool_decide_eq_true_2.
  - case_bool_decide; simpl.
    + by rewrite bool_decide_eq_true_2.
    + by rewrite bool_decide_eq_false_2.
Qed.

Lemma get_set_ne k k' v d : k ≠ k' → PyDict.get k' (PyDict.set k v d) = PyDict.get k' d.
Proof.
  intros Hne. induction d as [|[k0 v0] r IH]; simpl.
  - by rewrite bool_decide_eq_false_2.
  - case_bool_decide as H0; simpl.
    + subst k0. by rewrite !bool_decide_eq_false_2.
    + by rewrite IH.
Qed.

Lemma get_None_keys k d : PyDict.get k d = None ↔ k ∉ PyDict.keys d.
Proof.
  unfold PyDict.keys. induction d as [|[k' v'] r IH]; simpl.
  - split; [intros _; apply not_elem_of_nil | done].
  - rewrite not_elem_of_cons. case_bool_decide; [|tauto].
    split; [done|]. intros [? _]. congruence.
Qed.

Lemma get_Some_keys k d : is_Some (PyDict.get k d) ↔ k ∈ PyDict.keys d.
Proof.
  destruct (PyDict.get k d) eqn:Hg.
  - split; [|by eauto]. intros _.
    destruct (decide (k ∈ PyDict.keys d)) as [|Hn]; [done|].
    apply get_None_keys in Hn. congruence.
  - apply get_None_keys in Hg. split; [by intros [? ?]|done].
Qed.

Lemma mem_true k d : PyDict.mem k d = true ↔ is_Some (PyDict.get k d).
Proof.
  unfold PyDict.mem.
  destruct (PyDict.get k d); split; intros H; first [done | by eauto | by destruct H].
Qed.

Lemma mem_false k d : PyDict.mem k d = false ↔ PyDict.get k d = None.
Proof. unfold PyDict.mem. by destruct (PyDict.get k d). Qed.

Lemma keys_set_present k v d :
  is_Some (PyDict.get k d) → PyDict.keys (PyDict.set k v d) = PyDict.keys d.
Proof.
  unfold PyDict.keys. induction d as [|[k' v'] r IH]; simpl.
  - by intros [? ?].
  - case_bool_decide; simpl; [by subst|]. intros Hs. f_equal. by apply IH.
Qed.

Lemma keys_set_fresh k v d :
  PyDict.get k d = None → PyDict.keys (PyDict.set k v d) = PyDict.keys d ++ [k].
Proof.
  unfold PyDict.keys. induction d as [|[k' v'] r IH]; simpl; [done|].
  case_bool_decide; simpl; [done|]. intros Hs. f_equal. by apply IH.
Qed.

Lemma count_keys k d :
  PyDict.count k d = length (filter (λ k', k' = k) (PyDict.keys d)).
Proof.
  unfold PyDict.count, PyDict.keys. induction d as [|[k' v'] r IH]; [done|].
  rewrite fmap_cons, !filter_cons. simpl.
  destruct (decide (k' = k)); simpl; by rewrite IH.
Qed.

Lemma filter_eq_absent k (l : list string) : k ∉ l → filter (λ k', k' = k) l = [].
Proof.
  induction l as [|k' r IH]; [done|]. intros [Hne Hr]%not_elem_of_cons.
  rewrite filter_cons. destruct (decide (k' = k)); [congruence|]. by apply IH.
Qed.

Lemma count_absent k d : PyDict.get k d = None → PyDict.count k d = 0%nat.
Proof.
  rewrite get_None_keys, count_keys. intros Hn. by rewrite filter_eq_absent.
Qed.

Lemma count_NoDup k d :
  NoDup (PyDict.keys d) → is_Some (PyDict.get k d) → PyDict.count k d = 1%nat.
Proof.
  rewrite get_Some_keys, count_keys.
  induction (PyDict.keys d) as [|k' r IH]; intros Hnd Hin.
  - by apply elem_of_nil in Hin.
  - apply NoDup_cons in Hnd as [Hk' Hnd]. rewrite filter_cons.
    destruct (decide (k' = k)) as [->|Hne]; simpl.
    + by rewrite filter_eq_absent.
    + apply IH; [done|]. apply elem_of_cons in Hin as [?|?]; [congruence|done].
Qed.

Lemma NoDup_set k v d : NoDup (PyDict.keys d) → NoDup (PyDict.keys (PyDict.set k v d)).
Proof.
  intros Hnd. destruct (PyDict.get k d) eqn:Hg.
  - by rewrite keys_set_present.
  - rewrite keys_set_fresh by done. apply NoDup_app.
    split; [done|]. split; [|apply NoDup_singleton].
    intros x Hx Hx'. apply list_elem_of_singleton in Hx'. subst x.
    by apply get_None_keys in Hg.
Qed.

Lemma get_without k d : PyDict.get k (PyDict.without k d) = None.
Proof.
  apply get_None_keys. unfold PyDict.keys, PyDict.without.
  intros Hin. apply list_elem_of_fmap in Hin as [[k' v'] [-> Hin]].
  apply list_elem_of_filter in Hin as [Hne _]. by apply Hne.
Qed.

(** Assigning entries that do not mention the first key leaves the first
    entry in place. *)
Lemma update_head k0 v0 (base extra : list (string * V)) :
  PyDict.get k0 extra = None →
  PyDict.update ((k0, v0) :: base) extra = (k0, v0) :: PyDict.update base extra.
Proof.
  unfold PyDict.update. revert base.
  induction extra as [|[k v] r IH]; intros base Hg; simpl in *; [done|].
  case_bool_decide as Hk; [done|].
  rewrite bool_decide_eq_false_2 by congruence. by apply IH.
Qed.

Lemma get_update_ne k (base extra : list (string * V)) :
  PyDict.get k extra = None →
  PyDict.get k (PyDict.update base extra) = PyDict.get k base.
Proof.
  unfold PyDict.update. revert base.
  induction extra as [|[k' v] r IH]; intros base Hg; simpl in *; [done|].
  case_bool_decide as Hk; [done|]. rewrite IH by done.
  apply get_set_ne. congruence.
Qed.

Lemma set_head_ne k0 v0 k v d :
  k ≠ k0 → PyDict.set k v ((k0, v0) :: d) = (k0, v0) :: PyDict.set k v d.
Proof. intros Hne. simpl. by rewrite bool_decide_eq_false_2. Qed.

Lemma count_set_ne k k' v d :
  k ≠ k' → PyDict.count k' (PyDict.set k v d) = PyDict.count k' d.
Proof.
  intros Hne. unfold PyDict.count. induction d as [|[k0 v0] r IH]; simpl.
  - rewrite filter_cons. simpl. by destruct (decide (k = k')).
  - case_bool_decide as H0.
    + subst k0. rewrite !filter_cons. simpl. by destruct (decide (k = k')).
    + rewrite !filter_cons. simpl. destruct (decide (k0 = k')); simpl; by rewrite IH.
Qed.

Lemma count_update_ne k (base extra : list (string * V)) :
  PyDict.get k extra = None →
  PyDict.count k (PyDict.update base extra) = PyDict.count k base.
Proof.
  unfold PyDict.update. revert base.
  induction extra as [|[k' v] r IH]; intros base Hg; simpl in *; [done|].
  case_bool_decide as Hk; [done|]. rewrite IH by done.
  apply count_set_ne. congruence.
Qed.
Lemma count_set_fresh k v d :
  PyDict.get k d = None → PyDict.count k (PyDict.set k v d) = 1%nat.
Proof.
  intros Hg. rewrite count_keys, keys_set_fresh by done.
  rewrite filter_app, filter_eq_absent by by apply get_None_keys.
  rewrite filter_cons. by destruct (decide (k = k)).
Qed.

Lemma set_set k (v1 v2 : V) d :
  PyDict.set k v2 (PyDict.set k v1 d) = PyDict.set k v2 d.
Proof.
  induction d as [|[k' v'] r IH]; simpl.
  - by rewrite bool_decide_eq_true_2.
  - case_bool_decide; simpl.
    + by rewrite bool_decide_eq_true_2.
    + rewrite bool_decide_eq_false_2 by done. by rewrite IH.
Qed.
End DictFacts.

(** ** Traces and primitive operations *)

Lemma writes_to_app q t1 t2 :
  writes_to q (t1 ++ t2) = (writes_to q t1 + writes_to q t2)%nat.
Proof. unfold writes_to. by rewrite filter_app, length_app. Qed.
Lemma writes_to_snoc_other q t e :
  is_write_to q e = false → writes_to q (t ++ [e]) = writes_to q t.
Proof.
  intros He. rewrite writes_to_app. unfold writes_to at 2.
  rewrite filter_cons, decide_False by (by rewrite He). simpl. lia.
Qed.
Lemma writes_to_snoc_write q t f :
  writes_to q (t ++ [EvWrite q f]) = S (writes_to q t).
Proof.
  rewrite writes_to_app. unfold writes_to at 2.
  rewrite filter_cons, decide_True by (simpl; by rewrite bool_decide_eq_true_2). simpl. lia.
Qed.
Lemma path_exists_None p w : files w !! p = None → path_exists p w = (Returned false, w).
Proof. intros H. unfold path_exists. rewrite H. by rewrite bool_decide_eq_false_2 by (by intros [? ?]). Qed.
Lemma path_exists_Some p f w : files w !! p = Some f → path_exists p w = (Returned true, w).
Proof. intros H. unfold path_exists. rewrite H. by rewrite bool_decide_eq_true_2 by (by eexists). Qed.

(** ** Framing: what a computation leaves alone *)
Section Frame.
Context (q : string).

Lemma untouched_refl w : untouched q w w.
Proof. done. Qed.

Lemma untouched_trans w1 w2 w3 : untouched q w1 w2 → untouched q w2 w3 → untouched q w1 w3.
Proof. intros [? ?] [? ?]. split; congruence. Qed.

Lemma keeps_ret {A} (a : A) : keeps q (ret a).
Proof. intros w o w' [= <- <-]. apply untouched_refl. Qed.

Lemma keeps_raise {A} e : keeps q (@raise A e).
Proof. intros w o w' [= <- <-]. apply untouched_refl. Qed.

Lemma keeps_sys_exit {A} c : keeps q (@sys_exit A c).
Proof. intros w o w' [= <- <-]. apply untouched_refl. Qed.

Lemma keeps_lift_result {A} (r : Exn + A) : keeps q (lift_result r).
Proof. destruct r; [apply keeps_raise|apply keeps_ret]. Qed.

Lemma keeps_bind {A B} (m : M A) (k : A → M B) :
  keeps q m → (∀ a, keeps q (k a)) → keeps q (bind m k).
Proof.
  intros Hm Hk w o w'. unfold bind. destruct (m w) as [[a|e|c] w1] eqn:Hmw.
  - intros Hkw. eapply untouched_trans; [by eapply Hm|by eapply Hk].
  - intros [= <- <-]. by eapply Hm.
  - intros [= <- <-]. by eapply Hm.
Qed.

Lemma keeps_try_except {A} (m : M A) h :
  keeps q m → (∀ e, keeps q (h e)) → keeps q (try_except m h).
Proof.
  intros Hm Hh w o w'. unfold try_except. destruct (m w) as [[a|e|c] w1] eqn:Hmw.
  - intros [= <- <-]. by eapply Hm.
  - intros Hhw. eapply untouched_trans; [by eapply Hm|by eapply Hh].
  - intros [= <- <-]. by eapply Hm.
Qed.

Lemma keeps_try_except_only {A} sel (m : M A) h :
  keeps q m → (∀ e, keeps q (h e)) → keeps q (try_except_only sel m h).
Proof.
  intros Hm Hh w o w'. unfold try_except_only. destruct (m w) as [[a|e|c] w1] eqn:Hmw.
  - intros [= <- <-]. by eapply Hm.
  - destruct (sel e).
    + intros Hhw. eapply untouched_trans; [by eapply Hm|by eapply Hh].
    + intros [= <- <-]. by eapply Hm.
  - intros [= <- <-]. by eapply Hm.
Qed.

Lemma keeps_logging lvl msg : keeps q (logging lvl msg).
Proof.
  intros w o w' [= <- <-]. split; [done|]. simpl. by apply writes_to_snoc_other.
Qed.

Lemma keeps_path_exists p : keeps q (path_exists p).
Proof. intros w o w' [= <- <-]. apply untouched_refl. Qed.

Lemma keeps_load_creds p : keeps q (load_creds p).
Proof.
  intros w o w'. unfold load_creds.
  destruct (files w !! p) as [[]|]; intros [= <- <-]; apply untouched_refl.
Qed.

Lemma keeps_write_file p f : p ≠ q → keeps q (write_file p f).
Proof.
  intros Hne w o w' [= <- <-]. split; simpl.
  - by apply lookup_insert_ne.
  - apply writes_to_snoc_other. simpl. by rewrite bool_decide_eq_false_2.
Qed.
End Frame.

(** Creating the token directory changes nothing: it returns or raises. *)
Lemma makedirs_same (name : string) (w w' : World) (o : Outcome unit) :
  makedirs name w = (o, w') → w' = w ∧ ∀ c, o ≠ Exited c.
Proof.
  unfold makedirs. destruct (bool_decide _); [by intros [= <- <-]|].
  destruct (makedirs_chain _ _ _); by intros [= <- <-].
Qed.

Lemma ensure_token_dir_same (self : GmailClient) (w w' : World) (o : Outcome unit) :
  ensure_token_dir self w = (o, w') → w' = w ∧ ∀ c, o ≠ Exited c.
Proof.
  unfold ensure_token_dir. destruct (str_truthy _); [apply makedirs_same|].
  by intros [= <- <-].
Qed.

Lemma keeps_ensure_token_dir (self : GmailClient) (q : string) :
  keeps q (ensure_token_dir self).
Proof. intros w o w' [-> _]%ensure_token_dir_same. apply untouched_refl. Qed.

Lemma keeps_obtain_credentials (E : Env) (self : GmailClient) (q : string) :
  self_token_path self ≠ q → keeps q (obtain_credentials E self).
Proof.
  intros Hne.
  assert (Hre : ∀ cr, keeps q (reauthenticate E self cr)).
  { intros cr. unfold reauthenticate. apply keeps_bind.
    - unfold try_refresh. destruct cr as [c|]; [|apply keeps_ret].
      destruct (expired c && opt_truthy (refresh_token c)); [|apply keeps_ret].
      apply keeps_try_except.
      + apply keeps_bind; [apply keeps_lift_result|intros; apply keeps_ret].
      + intros e. apply keeps_bind; [apply keeps_logging|intros; apply keeps_ret].
    - intros cr1. apply keeps_bind.
      + destruct cr1; [apply keeps_ret|]. unfold interactive_consent.
        apply keeps_bind; [apply keeps_path_exists|]. intros [|]; simpl.
        * apply keeps_lift_result.
        * repeat (apply keeps_bind; [apply keeps_logging|intros]). apply keeps_sys_exit.
      + intros c2. apply keeps_bind; [by apply keeps_write_file|intros; apply keeps_ret]. }
  unfold obtain_credentials. apply keeps_bind; [apply keeps_ensure_token_dir|intros _].
  apply keeps_bind.
  - unfold load_cached. apply keeps_bind; [apply keeps_path_exists|].
    intros [|]; [|apply keeps_ret].
    apply keeps_bind; [apply keeps_load_creds|intros; apply keeps_ret].
  - intros [c|]; [|apply Hre]. destruct (valid c); [apply keeps_ret|apply Hre].
Qed.

Lemma keeps_build_session_known_email (E : Env) (self : GmailClient) (cr : Creds) (q : string) :
  opt_truthy (self_account_email self) = true → keeps q (build_session E self cr).
Proof.
  intros Hem. unfold build_session. apply keeps_try_except_only.
  - apply keeps_bind; [apply keeps_lift_result|]. intros _. simpl. rewrite Hem. apply keeps_ret.
  - intros e. apply keeps_bind; [apply keeps_logging|intros; apply keeps_sys_exit].
Qed.

Lemma save_email_run (E : Env) (self : GmailClient) (em : string) (doc : ConfigDoc) (w : World) :
  files w !! CONFIG_PATH E = Some (FToml doc) →
  _save_email_to_config E self em w
  = (Returned (),
     {| files := <[CONFIG_PATH E := FToml (record_email doc (self_account_name self) em)]> (files w);
        trace := trace w ++ [EvWrite (CONFIG_PATH E)
                               (FToml (record_email doc (self_account_name self) em))] |}).
Proof.
  intros Hfile. unfold _save_email_to_config, try_except, bind, load_toml. rewrite Hfile.
  unfold write_file, record_email, PyDict.mem.
  destruct (PyDict.get (self_account_name self) (accounts_or_empty doc)) as [cfg|] eqn:Hget.
  - rewrite Hget. done.
  - rewrite get_set_eq, set_set. done.
Qed.

Lemma save_email_missing (E : Env) (self : GmailClient) (em : string) (w : World) :
  files w !! CONFIG_PATH E = None →
  _save_email_to_config E self em w
  = (Returned (),
     {| files := files w;
        trace := trace w ++ [EvLog WARNING
                               ("Could not update config.toml: "
                                +:+ exn_message (FileNotFoundError (CONFIG_PATH E)))] |}).
Proof.
  intros Hfile. unfold _save_email_to_config, try_except, bind, load_toml. by rewrite Hfile.
Qed.

(** ** The output helpers *)

(** C10: the document printed by [output_success] starts with the pair
    [status = success] and holds no other [status] key, whatever the
    supplied data says; the one printed by [output_error] starts with
    [status = error].  Each helper returns and leaves the files alone. *)
Theorem output_status_fixed_by_helper
    (data : list (string * JVal)) (message : string) (account : option string)
    (indent : option Z) (w : World) :
  (∃ rest,
      email_cli.output_success data account indent w
      = (Returned (),
         {| files := files w;
            trace := trace w ++ [EvJson (JObj (("status", JStr "success") :: rest)) indent] |})
      ∧ PyDict.get "status" rest = None)
  ∧ (∃ rest,
      email_cli.output_error message account w
      = (Returned (),
         {| files := files w;
            trace := trace w ++ [EvJson (JObj (("status", JStr "error") :: rest)) None] |})
      ∧ PyDict.get "status" rest = None).
Proof.
  split.
  - unfold email_cli.output_success, print_json, emit.
    rewrite update_head by apply get_without.
    destruct (opt_truthy account).
    + rewrite set_head_ne by done. eexists. split; [reflexivity|].
      rewrite get_set_ne by done. rewrite get_update_ne by apply get_without. done.
    + eexists. split; [reflexivity|].
      rewrite get_update_ne by apply get_without. done.
  - unfold email_cli.output_error, print_json, emit.
    destruct (opt_truthy account); eexists; (split; [reflexivity|done]).
Qed.

(** ** Loading the configuration *)

(** C1 (as amended): with no configuration file, [_load_config] logs a
    warning and returns the built-in document: scope [gmail.modify],
    default account [default], and one account [default] whose token path
    is [tokens/default.json].  Nothing is raised and no file is touched. *)
Theorem load_config_missing_file (E : Env) (w : World) :
  files w !! CONFIG_PATH E = None →
  _load_config E w
  = (Returned default_config,
     {| files := files w;
        trace := trace w ++ [EvLog WARNING "config.toml not found, using defaults."] |})
  ∧ (gmail default_config ≫= scopes) = Some ["https://www.googleapis.com/auth/gmail.modify"]
  ∧ (gmail default_config ≫= default_account) = Some "default"
  ∧ accounts default_config
    = Some [("default", {| email := None; token_path := Some "tokens/default.json";
                           other_keys := [] |})].
Proof.
  intros Hmiss. split; [|done].
  unfold _load_config, try_except_only, load_toml. by rewrite Hmiss.
Qed.

Lemma load_config_missing_file_witness :
  files fresh_world !! CONFIG_PATH sample_env = None
  ∧ _load_config sample_env fresh_world
    = (Returned default_config,
       {| files := files fresh_world;
          trace := [EvLog WARNING "config.toml not found, using defaults."] |}).
Proof.
  split; [reflexivity|].
  exact (proj1 (load_config_missing_file sample_env fresh_world eq_refl)).
Defined.

(** C1 as stated fails: the document substituted for a missing file has a
    non-empty accounts mapping. *)
Lemma load_config_missing_file_accounts_not_empty :
  files fresh_world !! CONFIG_PATH sample_env = None
  ∧ ∃ d w', _load_config sample_env fresh_world = (Returned d, w')
            ∧ PyDict.keys (accounts_or_empty d) = ["default"]
            ∧ accounts_or_empty d ≠ [].
Proof.
  split; [reflexivity|]. eexists _, _. split; [reflexivity|]. split; [reflexivity|done].
Qed.

(** A present, well-formed file is returned as it is. *)
Lemma load_config_present (E : Env) (w : World) (d : ConfigDoc) :
  files w !! CONFIG_PATH E = Some (FToml d) → _load_config E w = (Returned d, w).
Proof. intros H. unfold _load_config, try_except_only, load_toml. by rewrite H. Qed.

(** ** Resolving an account *)

(** C4 (as amended): when a name is given, or the document has a [gmail]
    table, resolution of the name [resolved_name_of] (the explicit name,
    or [default_account], or the literal [default]) fails with the
    unknown-account error carrying every configured name when the name
    has no entry, and yields the entry otherwise; the constructor raises
    that same error, and returns the account when the scopes are
    configured.  Without a name and without [gmail] table, resolution
    and the constructor raise [KeyError] before any account is looked
    up. *)
Theorem resolve_unknown_account (E : Env) (w : World) (config : ConfigDoc)
    (account : option string) :
  (opt_truthy account = true ∨ is_Some (gmail config) →
   (PyDict.get (resolved_name_of config account) (accounts_or_empty config) = None →
      resolve config account
      = inl (AccountNotFound (resolved_name_of config account)
                             (PyDict.keys (accounts_or_empty config)))
      ∧ (files w !! CONFIG_PATH E = Some (FToml config) →
         GmailClient_init E account w
         = (Raised (AccountNotFound (resolved_name_of config account)
                                    (PyDict.keys (accounts_or_empty config))), w)))
   ∧ (∀ cfg, PyDict.get (resolved_name_of config account) (accounts_or_empty config) = Some cfg →
        resolve config account = inr (resolved_name_of config account, cfg)
        ∧ (∀ g sc, gmail config = Some g → scopes g = Some sc →
             files w !! CONFIG_PATH E = Some (FToml config) →
             ∃ client, GmailClient_init E account w = (Returned client, w)
                       ∧ self_account_name client = resolved_name_of config account
                       ∧ self_account_config client = cfg
                       ∧ self_account_email client = email cfg))
   ∧ (∀ k, k ∈ PyDict.keys (accounts_or_empty config)
           ↔ is_Some (PyDict.get k (accounts_or_empty config))))
  ∧ (opt_truthy account = false → gmail config = None →
     resolve config account = inl (KeyError "gmail")
     ∧ (files w !! CONFIG_PATH E = Some (FToml config) →
        GmailClient_init E account w = (Raised (KeyError "gmail"), w))).
Proof.
  split.
  2: { intros Ha Hg.
       assert (Hr : resolve config account = inl (KeyError "gmail")).
       { unfold resolve. by rewrite Ha, Hg. }
       split; [done|]. intros Hfile.
       unfold GmailClient_init, bind. rewrite (load_config_present _ _ _ Hfile).
       by rewrite Hr. }
  intros Hok.
  assert (Hname : (if opt_truthy account then inr (default "" account)
                   else match gmail config with
                        | Some g0 => inr (default "default" (default_account g0))
                        | None => inl (KeyError "gmail")
                        end)
                  = (inr (resolved_name_of config account) : Exn + string)).
  { unfold resolved_name_of, str_or, opt_truthy in *.
    destruct account as [s|]; simpl.
    - destruct (str_truthy s); [done|].
      destruct Hok as [?|[g Hg]]; [done|]. by rewrite Hg.
    - destruct Hok as [?|[g Hg]]; [done|]. by rewrite Hg. }
  split_and!.
  - intros Hnone.
    assert (Hr : resolve config account
                 = inl (AccountNotFound (resolved_name_of config account)
                                        (PyDict.keys (accounts_or_empty config)))).
    { unfold resolve. rewrite Hname. by rewrite Hnone. }
    split; [done|]. intros Hfile.
    unfold GmailClient_init, bind. rewrite (load_config_present _ _ _ Hfile).
    by rewrite Hr.
  - intros cfg Hsome.
    assert (Hr : resolve config account = inr (resolved_name_of config account, cfg)).
    { unfold resolve. rewrite Hname. by rewrite Hsome. }
    split; [done|]. intros g sc Hg Hsc Hfile. eexists. split_and!.
    + unfold GmailClient_init, bind. rewrite (load_config_present _ _ _ Hfile).
      rewrite Hr. simpl. unfold config_scopes. rewrite Hg, Hsc. reflexivity.
    + done.
    + done.
    + done.
  - intros k. symmetry. apply get_Some_keys.
Qed.

Lemma resolve_unknown_account_witness :
  resolve default_config (Some "work") = inl (AccountNotFound "work" ["default"])
  ∧ resolve default_config None
    = inr ("default", {| email := None; token_path := Some "tokens/default.json";
                         other_keys := [] |})
  ∧ resolve headless_doc (Some "default")
    = inr ("default", {| email := None; token_path := Some "tokens/default.json";
                         other_keys := [] |}).
Proof.
  split_and!.
  - exact (proj1 (proj1 (proj1 (resolve_unknown_account sample_env fresh_world default_config
                                  (Some "work")) (or_introl eq_refl)) eq_refl)).
  - exact (proj1 (proj1 (proj2 (proj1 (resolve_unknown_account sample_env fresh_world
                                         default_config None)
                                  (or_intror (ex_intro _ _ eq_refl)))) _ eq_refl)).
  - exact (proj1 (proj1 (proj2 (proj1 (resolve_unknown_account sample_env fresh_world
                                         headless_doc (Some "default"))
                                  (or_introl eq_refl))) _ eq_refl)).
Defined.

(** C4 as stated fails: on a configuration without [gmail] table the
    resolved name of an empty argument is [default], which is configured,
    yet resolution and the constructor raise [KeyError] instead of
    yielding that account. *)
Lemma resolve_default_fails_without_gmail_table :
  files headless_world !! CONFIG_PATH sample_env = Some (FToml headless_doc)
  ∧ resolved_name_of headless_doc None = "default"
  ∧ is_Some (PyDict.get "default" (accounts_or_empty headless_doc))
  ∧ resolve headless_doc None = inl (KeyError "gmail")
  ∧ GmailClient_init sample_env None headless_world = (Raised (KeyError "gmail"), headless_world).
Proof. split_and!; try reflexivity. by eexists. Qed.

(** ** Account management *)

(** Without a configuration file that can be read, nothing is added. *)
Lemma ensure_account_unreadable (E : Env) (w : World) (n : string) :
  (∀ doc, files w !! CONFIG_PATH E ≠ Some (FToml doc)) →
  ∃ w1, ensure_account E n w = (Returned false, w1)
        ∧ files w1 = files w
        ∧ writes_to (CONFIG_PATH E) (trace w1) = writes_to (CONFIG_PATH E) (trace w).
Proof.
  intros Hno. unfold ensure_account, try_except, bind, load_toml.
  destruct (files w !! CONFIG_PATH E) as [[doc| |]|] eqn:Hf.
  - by destruct (Hno doc).
  - eexists. split; [reflexivity|]. split; [done|]. simpl. by rewrite writes_to_snoc_other.
  - eexists. split; [reflexivity|]. split; [done|]. simpl. by rewrite writes_to_snoc_other.
  - eexists. split; [reflexivity|]. split; [done|]. simpl. by rewrite writes_to_snoc_other.
Qed.

(** C5 (as amended): on a configuration file that parses,
    [ensure_account] succeeds and a second call succeeds again without
    writing anything.  Afterwards the name has exactly one entry: the one
    it had before, the file not having been written at all, or a new one
    whose token path is [tokens/<n>.json].  On a configuration file that
    is missing or does not parse, it reports failure and changes no
    file. *)
Theorem ensure_account_idempotent (E : Env) (w : World) (n : string) :
  (∀ doc,
     files w !! CONFIG_PATH E = Some (FToml doc) →
     NoDup (PyDict.keys (accounts_or_empty doc)) →
     ∃ w1 w2 doc1 cfg,
       ensure_account E n w = (Returned true, w1)
       ∧ ensure_account E n w1 = (Returned true, w2)
       ∧ files w2 = files w1
       ∧ writes_to (CONFIG_PATH E) (trace w2) = writes_to (CONFIG_PATH E) (trace w1)
       ∧ files w1 !! CONFIG_PATH E = Some (FToml doc1)
       ∧ PyDict.count n (accounts_or_empty doc1) = 1%nat
       ∧ PyDict.get n (accounts_or_empty doc1) = Some cfg
       ∧ (∀ old, PyDict.get n (accounts_or_empty doc) = Some old →
                 cfg = old ∧ doc1 = doc ∧ w1 = w)
       ∧ (PyDict.get n (accounts_or_empty doc) = None →
            token_path cfg = Some ("tokens/" +:+ n +:+ ".json")))
  ∧ ((∀ doc, files w !! CONFIG_PATH E ≠ Some (FToml doc)) →
     ∃ w1, ensure_account E n w = (Returned false, w1)
           ∧ files w1 = files w
           ∧ writes_to (CONFIG_PATH E) (trace w1) = writes_to (CONFIG_PATH E) (trace w)).
Proof.
  split; [|apply ensure_account_unreadable].
  intros doc Hfile Hnd.
  destruct (PyDict.get n (accounts_or_empty doc)) as [old|] eqn:Hget.
  - assert (Hrun : ensure_account E n w = (Returned true, w)).
    { unfold ensure_account, try_except, bind, load_toml. rewrite Hfile.
      unfold PyDict.mem. by rewrite Hget. }
    exists w, w, doc, old. rewrite Hrun. split_and!; try done.
    + apply count_NoDup; [done|]. by rewrite Hget.
    + by intros ? [= <-].
  - set (accts' := PyDict.set n (fresh_account n) (accounts_or_empty doc)).
    set (doc1 := {| gmail := gmail doc; accounts := Some accts' |}).
    set (w1 := {| files := <[CONFIG_PATH E := FToml doc1]> (files w);
                  trace := (trace w ++ [EvWrite (CONFIG_PATH E) (FToml doc1)])
                           ++ [EvPrint ("Account '" +:+ n +:+ "' added to config.")] |}).
    assert (Hnew : PyDict.get n (accounts_or_empty doc1) = Some (fresh_account n)).
    { change (accounts_or_empty doc1) with accts'. unfold accts'. by rewrite get_set_eq. }
    assert (Hrun : ensure_account E n w = (Returned true, w1)).
    { unfold ensure_account, try_except, bind, load_toml. rewrite Hfile.
      unfold PyDict.mem. by rewrite Hget. }
    assert (Hfile1 : files w1 !! CONFIG_PATH E = Some (FToml doc1)).
    { simpl. apply lookup_insert_eq. }
    assert (Hrun2 : ensure_account E n w1 = (Returned true, w1)).
    { unfold ensure_account, try_except, bind, load_toml. rewrite Hfile1.
      unfold PyDict.mem. by rewrite Hnew. }
    exists w1, w1, doc1, (fresh_account n). rewrite Hrun, Hrun2. split_and!; try done.
    by apply count_set_fresh.
Qed.

Lemma ensure_account_idempotent_witness :
  ∃ w1 w2 doc1 cfg,
    ensure_account sample_env "team" configured_world = (Returned true, w1)
    ∧ ensure_account sample_env "team" w1 = (Returned true, w2)
    ∧ files w2 = files w1
    ∧ files w1 !! CONFIG_PATH sample_env = Some (FToml doc1)
    ∧ PyDict.count "team" (accounts_or_empty doc1) = 1%nat
    ∧ PyDict.get "team" (accounts_or_empty doc1) = Some cfg
    ∧ token_path cfg = Some "tokens/team.json".
Proof.
  assert (Hnd : NoDup (PyDict.keys (accounts_or_empty sample_doc))).
  { exact (bool_decide_unpack (NoDup (PyDict.keys (accounts_or_empty sample_doc))) I). }
  destruct (proj1 (ensure_account_idempotent sample_env configured_world "team")
              sample_doc eq_refl Hnd)
    as (w1 & w2 & doc1 & cfg & H1 & H2 & H3 & _ & H5 & H6 & H7 & _ & H9).
  exists w1, w2, doc1, cfg. split_and!; try done. exact (H9 eq_refl).
Defined.

(** C5 as stated fails: on a fresh installation, which has no
    configuration file, both calls report failure and no entry (and no
    file) exists afterwards. *)
Lemma ensure_account_fails_on_fresh_installation :
  files fresh_world !! CONFIG_PATH sample_env = None
  ∧ ∃ w1 w2,
      ensure_account sample_env "team" fresh_world = (Returned false, w1)
      ∧ ensure_account sample_env "team" w1 = (Returned false, w2)
      ∧ files w2 !! CONFIG_PATH sample_env = None
      ∧ get_available_accounts sample_env w2 = (Returned [], w2).
Proof.
  split; [reflexivity|]. eexists _, _. split_and!; reflexivity.
Qed.

(** C6 (as amended): on a configuration file that parses and has a
    [gmail] table, [set_default_account] on a configured name returns
    true and stores the name as default, leaving the accounts alone,
    after which resolution without an explicit name yields that account's
    table; on a configured name in a file without [gmail] table, and on a
    name without entry, it returns false and writes nothing, so the
    stored default and every entry stay as they were. *)
Theorem set_default_account_spec (E : Env) (w : World) (doc : ConfigDoc) (n : string) :
  files w !! CONFIG_PATH E = Some (FToml doc) →
  (∀ g cfg, gmail doc = Some g → PyDict.get n (accounts_or_empty doc) = Some cfg →
     ∃ w1 doc1,
       set_default_account E n w = (Returned true, w1)
       ∧ files w1 !! CONFIG_PATH E = Some (FToml doc1)
       ∧ gmail doc1 = Some {| scopes := scopes g; default_account := Some n;
                              default_query := default_query g |}
       ∧ accounts doc1 = accounts doc
       ∧ resolve doc1 None = inr (n, cfg)
       ∧ (∀ sc, scopes g = Some sc →
            ∃ client, GmailClient_init E None w1 = (Returned client, w1)
                      ∧ self_account_name client = n
                      ∧ self_account_config client = cfg))
  ∧ (PyDict.get n (accounts_or_empty doc) = None →
       ∃ w1, set_default_account E n w = (Returned false, w1)
             ∧ files w1 = files w
             ∧ writes_to (CONFIG_PATH E) (trace w1) = writes_to (CONFIG_PATH E) (trace w))
  ∧ (gmail doc = None →
       ∃ w1, set_default_account E n w = (Returned false, w1)
             ∧ files w1 = files w
             ∧ writes_to (CONFIG_PATH E) (trace w1) = writes_to (CONFIG_PATH E) (trace w)).
Proof.
  intros Hfile. split_and!.
  - intros g cfg Hg Hget.
    set (g' := {| scopes := scopes g; default_account := Some n;
                  default_query := default_query g |}).
    set (doc1 := {| gmail := Some g'; accounts := accounts doc |}).
    assert (Hres : resolve doc1 None = inr (n, cfg)).
    { unfold resolve. simpl. change (accounts_or_empty doc1) with (accounts_or_empty doc).
      by rewrite Hget. }
    set (w1 := {| files := <[CONFIG_PATH E := FToml doc1]> (files w);
                  trace := (trace w ++ [EvWrite (CONFIG_PATH E) (FToml doc1)])
                           ++ [EvPrint ("Default account set to '" +:+ n +:+ "'.")] |}).
    assert (Hfile1 : files w1 !! CONFIG_PATH E = Some (FToml doc1)).
    { simpl. apply lookup_insert_eq. }
    exists w1, doc1. split_and!; try done.
    + unfold set_default_account, try_except, bind, load_toml. rewrite Hfile.
      unfold PyDict.mem. rewrite Hget. simpl. rewrite Hg. reflexivity.
    + intros sc Hsc. eexists. split_and!.
      * unfold GmailClient_init, bind.
        rewrite (load_config_present _ _ _ Hfile1).
        rewrite Hres. simpl. unfold config_scopes. simpl. rewrite Hsc. reflexivity.
      * done.
      * done.
  - intros Hget. eexists. split_and!.
    + unfold set_default_account, try_except, bind, load_toml. rewrite Hfile.
      unfold PyDict.mem. rewrite Hget. reflexivity.
    + done.
    + simpl. by rewrite writes_to_snoc_other.
  - intros Hg. unfold set_default_account, try_except, bind, load_toml. rewrite Hfile.
    destruct (PyDict.mem n (accounts_or_empty doc)); simpl; rewrite ?Hg;
      (eexists; split; [reflexivity|]; split; [done|]; simpl; by rewrite writes_to_snoc_other).
Qed.

Lemma set_default_account_spec_witness :
  (∃ w1 doc1,
     set_default_account sample_env "work" configured_world = (Returned true, w1)
     ∧ files w1 !! CONFIG_PATH sample_env = Some (FToml doc1)
     ∧ resolve doc1 None
       = inr ("work", {| email := None; token_path := None; other_keys := [] |}))
  ∧ (∃ w1, set_default_account sample_env "nobody" configured_world = (Returned false, w1)
           ∧ files w1 = files configured_world).
Proof.
  pose proof (set_default_account_spec sample_env configured_world sample_doc "work" eq_refl)
    as (Hknown & _).
  pose proof (set_default_account_spec sample_env configured_world sample_doc "nobody" eq_refl)
    as (_ & Hunknown & _).
  split.
  - destruct (Hknown _ _ eq_refl eq_refl) as (w1 & doc1 & H1 & H2 & _ & _ & H5 & _).
    by exists w1, doc1.
  - destruct (Hunknown eq_refl) as (w1 & H1 & H2 & _). by exists w1.
Defined.

(** C6 as stated fails: [default] is a configured account of a
    configuration without [gmail] table, yet [set_default_account]
    returns false and stores nothing. *)
Lemma set_default_account_fails_without_gmail_table :
  files headless_world !! CONFIG_PATH sample_env = Some (FToml headless_doc)
  ∧ is_Some (PyDict.get "default" (accounts_or_empty headless_doc))
  ∧ ∃ w1, set_default_account sample_env "default" headless_world = (Returned false, w1)
          ∧ files w1 = files headless_world
          ∧ writes_to (CONFIG_PATH sample_env) (trace w1) = 0%nat.
Proof.
  split; [reflexivity|]. split; [by eexists|]. eexists. split_and!; reflexivity.
Qed.

(** ** Setup diagnostics *)




(** ** Authentication *)

Lemma interactive_consent_exits (E : Env) (self : GmailClient) (w : World) :
  files w !! self_credentials_path self = None →
  interactive_consent E self w
  = (Exited 1, {| files := files w; trace := trace w ++ missing_secret_guidance E self |}).
Proof.
  intros H. unfold interactive_consent, bind. rewrite (path_exists_None _ _ H). simpl.
  unfold sys_exit. by rewrite <-!app_assoc.
Qed.

(** When the code reaches the consent flow (the token directory can be
    created and there is no cached token, or an expired token whose
    refresh is rejected) and the client secret file is absent,
    [authenticate] ends the process with status 1 after logging the
    guidance that names the expected path; no file is touched, and no
    handler for exceptions intercepts the exit. *)
Lemma authenticate_exits_without_client_secret (E : Env) (self : GmailClient) (w : World) :
  files w !! self_credentials_path self = None →
  ensure_token_dir self w = (Returned (), w) →
  (files w !! self_token_path self = None ∧ self_creds self = None)
  ∨ (∃ c e, files w !! self_token_path self = Some (FCreds c)
            ∧ valid c = false ∧ expired c = true
            ∧ opt_truthy (refresh_token c) = true
            ∧ refresh E c = inl e) →
  ∃ w' pre,
    authenticate E self w = (Exited 1, w')
    ∧ exit_status (authenticate E self w).1 ≠ 0
    ∧ files w' = files w
    ∧ trace w' = pre ++ missing_secret_guidance E self
    ∧ (∀ h : Exn → M GmailClient, try_except (authenticate E self) h w = (Exited 1, w')).
Proof.
  intros Hsecret Hdir Hneed.
  assert (∃ w' pre, authenticate E self w = (Exited 1, w')
                    ∧ files w' = files w
                    ∧ trace w' = pre ++ missing_secret_guidance E self) as (w' & pre & Hrun & Hf & Ht).
  { destruct Hneed as [[Htok Hcr]|(c & e & Htok & Hv & Hexp & Hrt & Hfail)].
    - eexists _, (trace w).
      unfold authenticate, obtain_credentials, bind. rewrite Hdir.
      unfold load_cached, bind.
      rewrite (path_exists_None _ _ Htok). simpl. rewrite Hcr.
      unfold reauthenticate, bind. simpl.
      rewrite (interactive_consent_exits _ _ _ Hsecret). done.
    - eexists _, _.
      unfold authenticate, obtain_credentials, bind. rewrite Hdir.
      unfold load_cached, bind.
      rewrite (path_exists_Some _ _ _ Htok). unfold load_creds. simpl. rewrite Htok.
      simpl. rewrite Hv.
      unfold reauthenticate, try_refresh, bind, try_except. rewrite Hexp, Hrt, Hfail. simpl.
      rewrite interactive_consent_exits by done. simpl. done. }
  exists w', pre. split_and!; try done.
  - by rewrite Hrun.
  - intros h. unfold try_except. by rewrite Hrun.
Qed.

Example authenticate_exits_after_rejected_refresh :
  ∃ w' pre,
    authenticate revoked_env work_client (world_without_secret expired_creds) = (Exited 1, w')
    ∧ files w' = files (world_without_secret expired_creds)
    ∧ trace w' = pre ++ missing_secret_guidance revoked_env work_client.
Proof.
  destruct (authenticate_exits_without_client_secret revoked_env work_client
              (world_without_secret expired_creds) eq_refl eq_refl
              (or_intror (ex_intro _ expired_creds
                            (ex_intro _ (OtherError "invalid_grant")
                               (conj eq_refl (conj eq_refl (conj eq_refl
                                  (conj eq_refl eq_refl))))))))
    as (w' & pre & H1 & _ & H3 & H4 & _).
  exists w', pre. repeat split; assumption.
Qed.

(** The exit also passes the handler of the [--auth] command line. *)
Example main_auth_exits_without_client_secret :
  (main revoked_env
     {| arg_auth := Some "work"; arg_set_default := None; arg_list := false;
        arg_remove := None; arg_check := false |}
     (world_without_secret expired_creds)).1 = Exited 1.
Proof. reflexivity. Qed.

(** A token path below a regular file: the directory cannot be created,
    and [authenticate] raises before it looks at any credentials. *)
Example authenticate_raises_when_token_dir_is_blocked :
  (authenticate revoked_env blocked_client (world_without_secret expired_creds)).1
  = Raised (OtherError "[Errno 17] File exists: '/opt/skill/config.toml'").
Proof. reflexivity. Qed.

(** Fetching the address logs no error and returns. *)
Lemma update_account_email_quiet (E : Env) (self : GmailClient) (w : World) :
  ∃ self' w' post,
    _update_account_email E self w = (Returned self', w')
    ∧ self_creds self' = self_creds self
    ∧ trace w' = trace w ++ post
    ∧ Forall (λ ev, ∀ msg, ev ≠ EvLog ERROR msg) post.
Proof.
  unfold _update_account_email, try_except, bind.
  destruct (match self_service self with
            | Some s => getProfile E s
            | None => inl (OtherError "'NoneType' object has no attribute 'users'")
            end) as [e|em]; simpl.
  { eexists _, _, _. split; [reflexivity|]. split_and!; [done|done|].
    by repeat constructor. }
  destruct (opt_truthy em).
  2: { eexists _, _, []. split; [reflexivity|]. split_and!; [done|simpl; by rewrite app_nil_r|done]. }
  unfold _save_email_to_config, try_except, bind, load_toml. simpl.
  destruct (files w !! CONFIG_PATH E) as [[doc| |]|]; simpl;
    (eexists _, _, _; split; [reflexivity|]; split_and!;
     [done|simpl; rewrite <-?app_assoc; reflexivity|by repeat constructor]).
Qed.

(** C8 (the code at the failing input): the cached token is expired and
    has no refresh token, so consent is required, and the client secret
    file is absent.  Once the token directory is there and the service
    can be built, [authenticate] returns normally with the expired
    credentials: the process does not exit, and no error record, hence
    none of the guidance, is logged. *)
Theorem unrefreshable_token_hides_missing_client_secret
    (E : Env) (self : GmailClient) (c : Creds) (w : World) :
  files w !! self_credentials_path self = None →
  files w !! self_token_path self = Some (FCreds c) →
  expired c = true →
  opt_truthy (refresh_token c) = false →
  ensure_token_dir self w = (Returned (), w) →
  build E c = inr () →
  ∃ self' w' post,
    authenticate E self w = (Returned self', w')
    ∧ exit_status (authenticate E self w).1 = 0
    ∧ self_creds self' = Some c
    ∧ valid c = false
    ∧ trace w' = trace w ++ post
    ∧ Forall (λ ev, ∀ msg, ev ≠ EvLog ERROR msg) post.
Proof.
  intros Hsecret Htok Hexp Hrt Hdir Hbuild.
  assert (Hv : valid c = false).
  { unfold valid. rewrite Hexp. by destruct (access_token c). }
  assert (∃ self' w' post,
            authenticate E self w = (Returned self', w')
            ∧ self_creds self' = Some c
            ∧ trace w' = trace w ++ post
            ∧ Forall (λ ev, ∀ msg, ev ≠ EvLog ERROR msg) post)
    as (self' & w' & post & Hrun & Hcr & Ht & Hq).
  { unfold authenticate, obtain_credentials, bind. rewrite Hdir.
    unfold load_cached, bind.
    rewrite (path_exists_Some _ _ _ Htok). unfold load_creds. simpl. rewrite Htok.
    simpl. rewrite Hv.
    unfold reauthenticate, try_refresh, bind. rewrite Hexp, Hrt. simpl.
    unfold build_session, try_except_only, bind. rewrite Hbuild. simpl.
    destruct (opt_truthy (self_account_email self)); simpl.
    - eexists _, _, _. split; [reflexivity|]. split_and!; [done|done|].
      by repeat constructor.
    - match goal with
      | |- context [_update_account_email E ?s ?w0] =>
          destruct (update_account_email_quiet E s w0) as (s' & w' & post & -> & Hc & Ht & Hq)
      end.
      eexists _, _, _. split; [reflexivity|]. split_and!.
      + by rewrite Hc.
      + rewrite Ht. simpl. rewrite <-app_assoc. reflexivity.
      + constructor; [done|exact Hq]. }
  exists self', w', post. split_and!; try done. by rewrite Hrun.
Qed.

Lemma unrefreshable_token_hides_missing_client_secret_witness :
  files (world_without_secret stale_creds) !! self_credentials_path work_client = None
  ∧ ∃ self' w',
      authenticate sample_env work_client (world_without_secret stale_creds)
      = (Returned self', w')
      ∧ self_creds self' = Some stale_creds
      ∧ valid stale_creds = false.
Proof.
  split; [reflexivity|].
  destruct (unrefreshable_token_hides_missing_client_secret sample_env work_client stale_creds
              (world_without_secret stale_creds) eq_refl eq_refl eq_refl eq_refl eq_refl eq_refl)
    as (self' & w' & post & H1 & _ & H3 & H4 & _).
  exists self', w'. repeat split; assumption.
Defined.

(** C3 (as amended): provided the token file is not the configuration
    file itself, (1) authenticating an account whose address is already
    known writes nothing to the configuration, whatever the outcome; (2)
    for an account without address, once credentials are obtained, the
    service is built, the profile request yields a non-empty address and
    the configuration file parses, authentication returns with that
    address and performs exactly one write of the configuration, the
    [record_email] update; (3) that update keeps the [gmail] section, all
    other accounts and the other fields of the account. *)
Theorem authenticate_email_write (E : Env) (self : GmailClient) (w : World) :
  self_token_path self ≠ CONFIG_PATH E →
  (opt_truthy (self_account_email self) = true →
   ∀ o w', authenticate E self w = (o, w') →
     writes_to (CONFIG_PATH E) (trace w') = writes_to (CONFIG_PATH E) (trace w)
     ∧ files w' !! CONFIG_PATH E = files w !! CONFIG_PATH E)
  ∧ (opt_truthy (self_account_email self) = false →
     ∀ cr w1 em doc,
       obtain_credentials E self w = (Returned cr, w1) →
       build E cr = inr () →
       getProfile E cr = inr (Some em) →
       str_truthy em = true →
       files w !! CONFIG_PATH E = Some (FToml doc) →
       ∃ self' w',
         authenticate E self w = (Returned self', w')
         ∧ self_account_email self' = Some em
         ∧ writes_to (CONFIG_PATH E) (trace w') = S (writes_to (CONFIG_PATH E) (trace w))
         ∧ files w' !! CONFIG_PATH E
           = Some (FToml (record_email doc (self_account_name self) em))
         ∧ (∀ p, p ≠ CONFIG_PATH E → files w' !! p = files w1 !! p))
  ∧ (∀ doc em,
       gmail (record_email doc (self_account_name self) em) = gmail doc
       ∧ (∀ n, n ≠ self_account_name self →
            PyDict.get n (accounts_or_empty (record_email doc (self_account_name self) em))
            = PyDict.get n (accounts_or_empty doc))
       ∧ (∃ cfg, PyDict.get (self_account_name self)
                   (accounts_or_empty (record_email doc (self_account_name self) em)) = Some cfg
                 ∧ email cfg = Some em
                 ∧ ∀ old, PyDict.get (self_account_name self) (accounts_or_empty doc) = Some old →
                          token_path cfg = token_path old ∧ other_keys cfg = other_keys old)).
Proof.
  intros Hne. split_and!.
  - intros Hem o w' Hrun.
    assert (Hk : keeps (CONFIG_PATH E) (authenticate E self)).
    { unfold authenticate. apply keeps_bind; [by apply keeps_obtain_credentials|].
      intros cr. by apply keeps_build_session_known_email. }
    destruct (Hk _ _ _ Hrun) as [? ?]. done.
  - intros Hem cr w1 em doc Hcr Hbuild Hprof Htruthy Hfile.
    destruct (keeps_obtain_credentials E self _ Hne _ _ _ Hcr) as [Hf1 Ht1].
    rewrite Hfile in Hf1.
    eexists _, _. split_and!.
    + unfold authenticate, bind. rewrite Hcr.
      unfold build_session, try_except_only, bind. rewrite Hbuild. simpl. rewrite Hem. simpl.
      unfold _update_account_email, try_except, bind. simpl. rewrite Hprof. simpl.
      rewrite Htruthy. rewrite (save_email_run _ _ _ _ _ Hf1). simpl. reflexivity.
    + done.
    + simpl. rewrite writes_to_snoc_other by done. rewrite writes_to_snoc_write. by rewrite Ht1.
    + simpl. apply lookup_insert_eq.
    + intros p Hp. simpl. by apply lookup_insert_ne.
  - intros doc em. split_and!; [done| |].
    + intros n Hn. simpl. by apply get_set_ne.
    + eexists. split_and!; [simpl; apply get_set_eq|done|].
      intros old Hold. by rewrite Hold.
Qed.

Lemma authenticate_email_write_witness :
  ∃ self' w',
    authenticate sample_env work_client (world_with_token valid_creds) = (Returned self', w')
    ∧ self_account_email self' = Some "me@example.com"
    ∧ writes_to (CONFIG_PATH sample_env) (trace w') = 1%nat
    ∧ files w' !! CONFIG_PATH sample_env = Some (FToml (record_email sample_doc "work" "me@example.com")).
Proof.
  assert (Hne : self_token_path work_client ≠ CONFIG_PATH sample_env) by done.
  destruct (proj1 (proj2 (authenticate_email_write sample_env work_client
                            (world_with_token valid_creds) Hne))
              eq_refl valid_creds _ "me@example.com" sample_doc
              eq_refl eq_refl eq_refl eq_refl eq_refl)
    as (self' & w' & H1 & H2 & H3 & H4 & _).
  exists self', w'. repeat split; assumption.
Defined.

(** C3 as stated fails: without a configuration file the implicit account
    [default] authenticates, its address is fetched, and nothing is
    written to the configuration. *)
Lemma email_not_recorded_without_config_file :
  ∃ client client' w1 w2,
    GmailClient_init sample_env None unconfigured_authenticated_world = (Returned client, w1)
    ∧ self_account_email client = None
    ∧ authenticate sample_env client w1 = (Returned client', w2)
    ∧ self_account_email client' = Some "me@example.com"
    ∧ writes_to (CONFIG_PATH sample_env) (trace w2) = 0%nat
    ∧ files w2 !! CONFIG_PATH sample_env = None.
Proof.
  eexists _, _, _, _.
  split; [reflexivity|]. split; [reflexivity|]. split; [reflexivity|].
  split; [reflexivity|]. split; reflexivity.
Qed.

(** ** The token lifecycle *)

(** An expired token that is refreshed successfully: the refreshed
    credentials are used and overwrite the token file. *)
Lemma reauthenticate_refresh_success (E : Env) (self : GmailClient) (c c' : Creds) (w : World) :
  expired c = true → opt_truthy (refresh_token c) = true → refresh E c = inr c' →
  reauthenticate E self (Some c) w
  = (Returned c',
     {| files := <[self_token_path self := FCreds c']> (files w);
        trace := trace w ++ [EvWrite (self_token_path self) (FCreds c')] |}).
Proof.
  intros Hexp Hrt Hok. unfold reauthenticate, try_refresh, bind, try_except.
  by rewrite Hexp, Hrt, Hok.
Qed.

(** A rejected refresh is logged and continues exactly as if there were no
    token. *)
Lemma reauthenticate_refresh_failure (E : Env) (self : GmailClient) (c : Creds) (e : Exn)
    (w : World) :
  expired c = true → opt_truthy (refresh_token c) = true → refresh E c = inl e →
  reauthenticate E self (Some c) w
  = reauthenticate E self None
      {| files := files w;
         trace := trace w ++ [EvLog ERROR ("Error refreshing token: " +:+ exn_message e)] |}.
Proof.
  intros Hexp Hrt Hfail. unfold reauthenticate, try_refresh, bind, try_except.
  by rewrite Hexp, Hrt, Hfail.
Qed.

(** Without a token the consent flow runs and its credentials are stored. *)
Lemma reauthenticate_consent (E : Env) (self : GmailClient) (f : File) (c : Creds) (w : World) :
  files w !! self_credentials_path self = Some f →
  run_local_server E (self_credentials_path self) (self_scopes self) = inr c →
  reauthenticate E self None w
  = (Returned c,
     {| files := <[self_token_path self := FCreds c]> (files w);
        trace := trace w ++ [EvWrite (self_token_path self) (FCreds c)] |}).
Proof.
  intros Hsecret Hok.
  assert (Hflow : interactive_consent E self w = (Returned c, w)).
  { unfold interactive_consent, bind. rewrite (path_exists_Some _ _ _ Hsecret).
    simpl. by rewrite Hok. }
  unfold reauthenticate, bind. simpl. by rewrite Hflow.
Qed.

(** Credentials that are not valid and not refreshable (not expired, or
    without refresh token) are kept: neither the refresh nor the consent
    flow runs, and the same credentials are written back. *)
Lemma reauthenticate_unrefreshable (E : Env) (self : GmailClient) (c : Creds) (w : World) :
  expired c && opt_truthy (refresh_token c) = false →
  reauthenticate E self (Some c) w
  = (Returned c,
     {| files := <[self_token_path self := FCreds c]> (files w);
        trace := trace w ++ [EvWrite (self_token_path self) (FCreds c)] |}).
Proof.
  intros Hno. unfold reauthenticate, try_refresh, bind. by rewrite Hno.
Qed.

(** The client object used below is the one the constructor builds. *)
Example work_client_from_init :
  GmailClient_init sample_env (Some "work") (world_with_token stale_creds)
  = (Returned work_client, world_with_token stale_creds).
Proof. reflexivity. Qed.

(** Refresh that succeeds: the session is valid and the token file holds
    the refreshed credentials. *)
Example authenticate_refreshes_expired_token :
  ∃ self' w',
    authenticate sample_env work_client (world_with_token expired_creds) = (Returned self', w')
    ∧ self_creds self' = Some refreshed_creds
    ∧ valid refreshed_creds = true
    ∧ files w' !! self_token_path work_client = Some (FCreds refreshed_creds).
Proof. eexists _, _. split_and!; reflexivity. Qed.

(** Refresh that fails: the consent flow supplies the credentials. *)
Example authenticate_consents_after_failed_refresh :
  ∃ self' w',
    authenticate revoked_env work_client (world_with_token expired_creds) = (Returned self', w')
    ∧ self_creds self' = Some consented_creds
    ∧ files w' !! self_token_path work_client = Some (FCreds consented_creds).
Proof. eexists _, _. split_and!; reflexivity. Qed.

(** C2 (the code at the failing input): the token of [work] is expired and
    has no refresh token, the client secret is present and the consent
    flow would yield [consented_creds]; [authenticate] nevertheless
    returns with the expired credentials, which it has written back to
    the token file and built the service from. *)
Theorem expired_token_without_refresh_token_skips_consent :
  expired stale_creds = true
  ∧ refresh_token stale_creds = None
  ∧ files (world_with_token stale_creds) !! self_credentials_path work_client = Some FRaw
  ∧ run_local_server sample_env (self_credentials_path work_client) (self_scopes work_client)
    = inr consented_creds
  ∧ ∃ self' w',
      authenticate sample_env work_client (world_with_token stale_creds) = (Returned self', w')
      ∧ self_creds self' = Some stale_creds
      ∧ self_service self' = Some stale_creds
      ∧ valid stale_creds = false
      ∧ files w' !! self_token_path work_client = Some (FCreds stale_creds)
      ∧ stale_creds ≠ consented_creds.
Proof.
  split_and!; try reflexivity. eexists _, _. split_and!; try reflexivity. done.
Qed.

(** ** Provider errors at the command layer *)

(** [cmd_summary] has no handler: an error of the label listing leaves the
    command as an exception, with nothing printed after authentication. *)
Lemma cmd_summary_propagates (E : Env) (A : email_cli.Api) (account : option string)
    (label : string) (limit : Z) (w w1 : World) (client : GmailClient) (svc : Creds) (e : Exn) :
  email_cli.get_client E account w = (Returned client, w1) →
  self_service client = Some svc →
  email_cli.labels_list A svc = inl e →
  email_cli.cmd_summary E A account label limit w = (Raised e, w1).
Proof.
  intros Hc Hs Hl. unfold email_cli.cmd_summary, bind. rewrite Hc.
  unfold email_cli.resolve_label, email_cli._list_labels, email_cli.service_of, bind.
  rewrite Hs. simpl. by rewrite Hl.
Qed.

(** [cmd_cleanup] has none either: an error of the first listing request
    escapes after the progress line on standard error. *)
Lemma cmd_cleanup_propagates (E : Env) (A : email_cli.Api) (account : option string)
    (label : string) (days : Z) (w w1 : World) (client : GmailClient) (svc : Creds) (e : Exn)
    (date : string) (rest : list (Exn + list string)) :
  email_cli.get_client E account w = (Returned client, w1) →
  self_service client = Some svc →
  email_cli.date_before A days = inr date →
  (∀ q, email_cli.messages_list_query A svc q = inl e :: rest) →
  ∃ w2, email_cli.cmd_cleanup E A account label days w = (Raised e, w2)
        ∧ json_output (trace w2) = json_output (trace w1).
Proof.
  intros Hc Hs Hd Hl. unfold email_cli.cmd_cleanup, bind. rewrite Hc, Hd. simpl.
  unfold print_stderr, emit, email_cli.service_of. rewrite Hs. simpl.
  rewrite Hl. simpl. eexists. split; [reflexivity|].
  simpl. unfold json_output. rewrite omap_app. simpl. by rewrite app_nil_r.
Qed.

(** The sibling [cmd_labels_delete] makes the same label lookup inside its
    handler and reports the error through [output_error]. *)
Lemma cmd_labels_delete_reports (E : Env) (A : email_cli.Api) (account : option string)
    (name_or_id : string) (w w1 : World) (client : GmailClient) (svc : Creds) (e : Exn) :
  email_cli.get_client E account w = (Returned client, w1) →
  self_service client = Some svc →
  email_cli.labels_list A svc = inl e →
  email_cli.cmd_labels_delete E A account name_or_id w
  = email_cli.output_error (exn_message e) (self_account_email client) w1.
Proof.
  intros Hc Hs Hl. unfold email_cli.cmd_labels_delete, bind. rewrite Hc.
  unfold try_except, bind, email_cli.resolve_label, email_cli._list_labels,
    email_cli.service_of, bind.
  rewrite Hs. simpl. by rewrite Hl.
Qed.

(** C9 (the code at the failing input): with a provider that answers the
    listings with a server error, the [summary] and [cleanup] commands end
    in an uncaught exception, so the process leaves with status 1 and no
    document on standard output, while [labels delete] on the same
    provider prints the structured error document and returns. *)
Theorem provider_error_escapes_summary_and_cleanup :
  (email_cli.main sample_env failing_api None (email_cli.Summary "Newsletters" 10)
     ready_world).1
  = Raised (HttpError "HttpError 503: backend unavailable")
  ∧ json_output (trace (email_cli.main sample_env failing_api None
                          (email_cli.Summary "Newsletters" 10) ready_world).2) = []
  ∧ (email_cli.main sample_env failing_api None (email_cli.Cleanup "Newsletters" 30)
       ready_world).1
    = Raised (HttpError "HttpError 503: backend unavailable")
  ∧ json_output (trace (email_cli.main sample_env failing_api None
                          (email_cli.Cleanup "Newsletters" 30) ready_world).2) = []
  ∧ exit_status (Raised (HttpError "HttpError 503: backend unavailable") : Outcome unit) = 1
  ∧ (email_cli.main sample_env failing_api None (email_cli.LabelsDelete "Newsletters")
       ready_world).1
    = Returned ()
  ∧ json_output (trace (email_cli.main sample_env failing_api None
                          (email_cli.LabelsDelete "Newsletters") ready_world).2)
    = [JObj [("status", JStr "error");
             ("message", JStr "HttpError 503: backend unavailable");
             ("account", JStr "me@example.com")]].
Proof.
  split_and!; vm_compute; reflexivity.
Qed.

(** * Further properties *)

(** ** Stripping and splitting *)
Section StringFacts.
Import email_cli.

Lemma lstrip_idem s : lstrip (lstrip s) = lstrip s.
Proof.
  induction s as [|c r IH]; [done|]. simpl.
  destruct (is_space c) eqn:Hc; [done|]. simpl. by rewrite Hc.
Qed.

Lemma rstrip_idem s : rstrip (rstrip s) = rstrip s.
Proof.
  induction s as [|c r IH]; [done|]. simpl.
  destruct (rstrip r) as [|c' r'] eqn:Hr.
  - destruct (is_space c) eqn:Hc; [done|]. simpl. by rewrite Hc.
  - simpl. simpl in IH. rewrite IH. done.
Qed.

Lemma rstrip_lstrip s : rstrip s = s → rstrip (lstrip s) = lstrip s.
Proof.
  induction s as [|c r IH]; [done|]. intros Hs. simpl.
  destruct (is_space c) eqn:Hc; [|done].
  apply IH. simpl in Hs. destruct (rstrip r) as [|c' r'] eqn:Hr.
  - by rewrite Hc in Hs.
  - by injection Hs.
Qed.

Lemma strip_clean s : clean (strip s).
Proof.
  unfold clean, strip. split.
  - apply lstrip_idem.
  - apply rstrip_lstrip, rstrip_idem.
Qed.

Lemma clean_strip s : clean s → strip s = s.
Proof. intros [Hl Hr]. unfold strip. by rewrite Hr. Qed.

Lemma string_app_cons c a b : String c a +:+ b = String c (a +:+ b).
Proof. reflexivity. Qed.

Lemma string_app_nil b : "" +:+ b = b.
Proof. reflexivity. Qed.

Lemma rstrip_app a b : rstrip b ≠ "" → rstrip (a +:+ b) = a +:+ rstrip b.
Proof.
  intros Hb. induction a as [|c a IH]; [reflexivity|].
  rewrite !string_app_cons. simpl. rewrite IH.
  destruct (a +:+ rstrip b) eqn:Hab; [|done].
  destruct a; [by destruct Hb|discriminate].
Qed.

Lemma lstrip_length s : (String.length (lstrip s) ≤ String.length s)%nat.
Proof. induction s as [|c r IH]; simpl; [lia|]. destruct (is_space c); simpl; lia. Qed.

Lemma lstrip_app a b : a ≠ "" → lstrip a = a → lstrip (a +:+ b) = a +:+ b.
Proof.
  destruct a as [|c a]; [done|]. intros _. rewrite string_app_cons. simpl.
  destruct (is_space c) eqn:Hc; [|done].
  intros Hl. exfalso. pose proof (lstrip_length a) as H. rewrite Hl in H. simpl in H. lia.
Qed.

Lemma split_comma_nonempty s : split_comma s ≠ [].
Proof.
  induction s as [|c r IH]; [done|]. simpl. case_bool_decide; [done|].
  by destruct (split_comma r).
Qed.

Lemma split_comma_no_comma s : has_char "," s = false → split_comma s = [s].
Proof.
  induction s as [|c r IH]; [done|]. simpl. intros [Hc Hr]%orb_false_iff.
  rewrite Hc. by rewrite IH.
Qed.

Lemma split_comma_app s t :
  has_char "," s = false → split_comma (s +:+ "," +:+ t) = s :: split_comma t.
Proof.
  induction s as [|c r IH]; [done|]. rewrite string_app_cons. simpl.
  intros [Hc Hr]%orb_false_iff. rewrite Hc. by rewrite IH.
Qed.

Lemma split_join (l : list string) :
  l ≠ [] → Forall (λ x, has_char "," x = false) l → split_comma (join_comma l) = l.
Proof.
  induction l as [|x r IH]; [done|]. intros _ Hall.
  apply Forall_cons in Hall as [Hx Hr]. destruct r as [|y r'].
  - simpl. by apply split_comma_no_comma.
  - change (join_comma (x :: y :: r')) with (x +:+ "," +:+ join_comma (y :: r')).
    rewrite split_comma_app by done. f_equal. by apply IH.
Qed.

Lemma join_nonempty (l : list string) :
  l ≠ [] → Forall (λ x, x ≠ "") l → join_comma l ≠ "".
Proof.
  destruct l as [|x r]; [done|]. intros _ [Hx _]%Forall_cons.
  destruct r; simpl; [done|]. by destruct x.
Qed.

Lemma join_clean (l : list string) :
  l ≠ [] → Forall (λ x, x ≠ "" ∧ clean x) l → clean (join_comma l).
Proof.
  induction l as [|x r IH]; [done|]. intros _ Hall.
  apply Forall_cons in Hall as [[Hx [Hxl Hxr]] Hr]. destruct r as [|y r'].
  - done.
  - change (join_comma (x :: y :: r')) with (x +:+ "," +:+ join_comma (y :: r')).
    destruct (IH ltac:(done) Hr) as [_ IHr].
    assert (Hne : join_comma (y :: r') ≠ "").
    { apply join_nonempty; [done|]. eapply Forall_impl; [exact Hr|]. by intros ? [? _]. }
    split.
    + by apply lstrip_app.
    + rewrite rstrip_app; [|].
      * f_equal. rewrite (rstrip_app "," _); [by rewrite IHr|by rewrite IHr].
      * rewrite (rstrip_app "," _); [done|by rewrite IHr].
Qed.
End StringFacts.

(** ** Chunks *)
Section ChunkFacts.
Context {T : Type}.
Implicit Types l : list T.

Lemma chunks_fuel_any n f1 f2 l :
  (0 < n)%nat → (length l ≤ f1)%nat → (length l ≤ f2)%nat →
  chunks_fuel f1 n l = chunks_fuel f2 n l.
Proof.
  intros Hn. revert f2 l. induction f1 as [|f1 IH]; intros f2 l H1 H2.
  - destruct l; [|simpl in H1; lia]. by destruct f2.
  - destruct l as [|x r]; [by destruct f2|].
    destruct f2 as [|f2]; [simpl in H2; lia|]. simpl. f_equal.
    destruct n as [|n]; [lia|]. simpl.
    apply IH; rewrite length_drop; simpl in *; lia.
Qed.

Lemma chunks_nil n : chunks n ([] : list T) = [].
Proof. done. Qed.

Lemma chunks_cons n l :
  (0 < n)%nat → l ≠ [] → chunks n l = take n l :: chunks n (drop n l).
Proof.
  intros Hn Hl. unfold chunks. destruct l as [|x r]; [done|]. simpl. f_equal.
  destruct n as [|n]; [lia|]. simpl.
  apply chunks_fuel_any; [lia|..]; rewrite ?length_drop; lia.
Qed.

Lemma chunks_short n l : (0 < n)%nat → l ≠ [] → (length l ≤ n)%nat → chunks n l = [l].
Proof.
  intros Hn Hl Hlen. rewrite chunks_cons by done.
  rewrite take_ge, drop_ge by done. done.
Qed.

Lemma chunks_app n l1 l2 :
  (0 < n)%nat → length l1 = n → chunks n (l1 ++ l2) = l1 :: chunks n l2.
Proof.
  intros Hn Hlen. rewrite chunks_cons; [|done|].
  - rewrite take_app_length', drop_app_length' by done. done.
  - destruct l1; [simpl in Hlen; lia|done].
Qed.

Lemma chunks_spec n l :
  (0 < n)%nat →
  concat (chunks n l) = l
  ∧ Forall (λ c, (0 < length c ≤ n)%nat) (chunks n l).
Proof.
  intros Hn. remember (length l) as k eqn:Hk. revert l Hk.
  induction (lt_wf k) as [k _ IH]. intros l ->.
  destruct l as [|x r]; [done|].
  rewrite chunks_cons by done.
  destruct (IH (length (drop n (x :: r)))) with (l := drop n (x :: r)) as [IHc IHf].
  { rewrite length_drop. simpl. lia. }
  { done. }
  split.
  - simpl concat. rewrite IHc. apply take_drop.
  - apply Forall_cons. split; [|done].
    rewrite length_take. simpl. lia.
Qed.
End ChunkFacts.

(** ** Batches *)
Lemma succ_mod_50 (i len : nat) :
  (i mod 50 = len)%nat →
  (S i mod 50 = if decide (len = 49%nat) then 0 else S len)%nat.
Proof.
  intros Hi. assert (Hlt : (len < 50)%nat) by (subst len; apply Nat.mod_upper_bound; lia).
  replace (S i) with (i + 1)%nat by lia.
  rewrite <-Nat.Div0.add_mod_idemp_l, Hi.
  case_decide as H49.
  - subst len. rewrite H49. reflexivity.
  - rewrite Nat.mod_small by lia. lia.
Qed.

Lemma execute_batches_cons (X : email_cli.Ext) svc op batch i total mid r :
  email_cli.execute_batches X svc op batch i total (mid :: r)
  = if (S i mod 50 =? 0)%nat || (S i =? total)%nat then
      match email_cli.batch_execute X svc op (batch ++ [mid]) with
      | inl e => Some e
      | inr _ => email_cli.execute_batches X svc op [] (S i) total r
      end
    else email_cli.execute_batches X svc op (batch ++ [mid]) (S i) total r.
Proof. reflexivity. Qed.

Lemma trash_in_batches_cons (A : email_cli.Api) svc batch i total mid r :
  email_cli.trash_in_batches A svc batch i total (mid :: r)
  = if (S i mod 50 =? 0)%nat || (S i =? total)%nat then
      (let* _ := lift_result (email_cli.batch_trash A svc (batch ++ [mid])) in
       email_cli.trash_in_batches A svc [] (S i) total r)
    else email_cli.trash_in_batches A svc (batch ++ [mid]) (S i) total r.
Proof. reflexivity. Qed.

Lemma execute_batches_chunks (X : email_cli.Ext) (svc : Creds) (op : string)
    (ids batch : list string) (i total : nat) :
  (i mod 50)%nat = length batch → total = (i + length ids)%nat → ids ≠ [] →
  email_cli.execute_batches X svc op batch i total ids
  = exec_all (email_cli.batch_execute X svc op) (chunks 50 (batch ++ ids)).
Proof.
  revert batch i. induction ids as [|mid r IH]; intros batch i Hi Htot Hne; [done|].
  rewrite execute_batches_cons, (succ_mod_50 i (length batch) Hi).
  assert (Hlt : (length batch < 50)%nat) by (rewrite <-Hi; apply Nat.mod_upper_bound; lia).
  case_decide as H49.
  - simpl. rewrite (cons_middle mid batch r), app_assoc.
    rewrite chunks_app by (rewrite ?length_app; simpl; lia). simpl.
    destruct (email_cli.batch_execute X svc op (batch ++ [mid])); [done|].
    destruct r as [|m2 r']; [done|].
    rewrite (IH [] (S i)); [done| |simpl in *; lia|done].
    rewrite (succ_mod_50 i (length batch) Hi). by rewrite decide_True.
  - change (S (length batch) =? 0)%nat with false. destruct r as [|m2 r'].
    + replace (S i =? total)%nat with true by (symmetry; apply Nat.eqb_eq; simpl in *; lia).
      cbn [orb]. rewrite chunks_short; [|lia|by destruct batch|rewrite length_app; simpl; lia].
      simpl. by destruct (email_cli.batch_execute X svc op (batch ++ [mid])).
    + replace (S i =? total)%nat with false by (symmetry; apply Nat.eqb_neq; simpl in *; lia).
      cbn [orb]. rewrite (IH (batch ++ [mid]) (S i)); [|..|done].
      * by rewrite <-app_assoc.
      * rewrite (succ_mod_50 i (length batch) Hi), decide_False by done.
        rewrite length_app. simpl. lia.
      * simpl in *. lia.
Qed.

Lemma trash_in_batches_chunks (A : email_cli.Api) (svc : Creds)
    (ids batch : list string) (i total : nat) (w : World) :
  (i mod 50)%nat = length batch → total = (i + length ids)%nat → ids ≠ [] →
  email_cli.trash_in_batches A svc batch i total ids w
  = (match exec_all (email_cli.batch_trash A svc) (chunks 50 (batch ++ ids)) with
     | Some e => Raised e
     | None => Returned ()
     end, w).
Proof.
  revert batch i. induction ids as [|mid r IH]; intros batch i Hi Htot Hne; [done|].
  rewrite trash_in_batches_cons, (succ_mod_50 i (length batch) Hi).
  assert (Hlt : (length batch < 50)%nat) by (rewrite <-Hi; apply Nat.mod_upper_bound; lia).
  case_decide as H49.
  - simpl. rewrite (cons_middle mid batch r), app_assoc.
    rewrite chunks_app by (rewrite ?length_app; simpl; lia). simpl.
    unfold bind.
    destruct (email_cli.batch_trash A svc (batch ++ [mid])); [done|]. simpl.
    destruct r as [|m2 r']; [done|].
    rewrite (IH [] (S i)); [done| |simpl in *; lia|done].
    rewrite (succ_mod_50 i (length batch) Hi). by rewrite decide_True.
  - change (S (length batch) =? 0)%nat with false. destruct r as [|m2 r'].
    + replace (S i =? total)%nat with true by (symmetry; apply Nat.eqb_eq; simpl in *; lia).
      cbn [orb]. rewrite chunks_short; [|lia|by destruct batch|rewrite length_app; simpl; lia].
      simpl. unfold bind. by destruct (email_cli.batch_trash A svc (batch ++ [mid])).
    + replace (S i =? total)%nat with false by (symmetry; apply Nat.eqb_neq; simpl in *; lia).
      cbn [orb]. rewrite (IH (batch ++ [mid]) (S i)); [|..|done].
      * by rewrite <-app_assoc.
      * rewrite (succ_mod_50 i (length batch) Hi), decide_False by done.
        rewrite length_app. simpl. lia.
      * simpl in *. lia.
Qed.

(** ** How computations end *)

Section EndFacts.
Context (r x : bool).

Lemma ends_weaken {A} (r0 x0 : bool) (m : M A) :
  ends r0 x0 m → (r0 = true → r = true) → (x0 = true → x = true) → ends r x m.
Proof.
  intros Hm Hr Hx w o w' Hrun. specialize (Hm _ _ _ Hrun).
  destruct o; [done|by apply Hr|]. destruct Hm as [? ?]. split; [by apply Hx|done].
Qed.

Lemma ends_ret {A} (a : A) : ends r x (ret a).
Proof. by intros w o w' [= <- <-]. Qed.

Lemma ends_raise {A} e : ends true x (@raise A e).
Proof. by intros w o w' [= <- <-]. Qed.

Lemma ends_sys_exit_1 {A} : ends r true (@sys_exit A 1).
Proof. by intros w o w' [= <- <-]. Qed.

Lemma ends_lift_result {A} (res : Exn + A) : ends true x (lift_result res).
Proof. destruct res; [apply ends_raise|]. by intros w o w' [= <- <-]. Qed.

Lemma ends_bind {A B} (m : M A) (k : A → M B) :
  ends r x m → (∀ a, ends r x (k a)) → ends r x (bind m k).
Proof.
  intros Hm Hk w o w'. unfold bind. destruct (m w) as [[a|e|c] w1] eqn:Hmw.
  - apply Hk.
  - intros [= <- <-]. apply (Hm _ _ _ Hmw).
  - intros [= <- <-]. apply (Hm _ _ _ Hmw).
Qed.

Lemma ends_try_except {A} (m : M A) h :
  ends true x m → (∀ e, ends r x (h e)) → ends r x (try_except m h).
Proof.
  intros Hm Hh w o w'. unfold try_except. destruct (m w) as [[a|e|c] w1] eqn:Hmw.
  - by intros [= <- <-].
  - apply Hh.
  - intros [= <- <-]. apply (Hm _ _ _ Hmw).
Qed.

Lemma ends_try_except_only {A} sel (m : M A) h :
  ends true x m → (∀ e, ends true x (h e)) → ends true x (try_except_only sel m h).
Proof.
  intros Hm Hh w o w'. unfold try_except_only. destruct (m w) as [[a|e|c] w1] eqn:Hmw.
  - by intros [= <- <-].
  - destruct (sel e); [apply Hh|]. by intros [= <- <-].
  - intros [= <- <-]. apply (Hm _ _ _ Hmw).
Qed.

Lemma ends_emit ev : ends r x (emit ev).
Proof. by intros w o w' [= <- <-]. Qed.

Lemma ends_path_exists p : ends r x (path_exists p).
Proof. by intros w o w' [= <- <-]. Qed.

Lemma ends_write_file p f : ends r x (write_file p f).
Proof. by intros w o w' [= <- <-]. Qed.

Lemma ends_load_toml p : ends true x (load_toml p).
Proof.
  intros w o w'. unfold load_toml. destruct (files w !! p) as [[]|]; by intros [= <- <-].
Qed.

Lemma ends_load_creds p : ends true x (load_creds p).
Proof.
  intros w o w'. unfold load_creds. destruct (files w !! p) as [[]|]; by intros [= <- <-].
Qed.
End EndFacts.

(** Always returns. *)
Lemma ends_returns {A} (m : M A) (w : World) :
  ends false false m → ∃ a w', m w = (Returned a, w').
Proof.
  intros Hm. destruct (m w) as [[a|e|c] w'] eqn:Hrun; [by eauto|..];
    specialize (Hm _ _ _ Hrun); simpl in Hm; [done|by destruct Hm].
Qed.

Ltac ends_step :=
  lazymatch goal with
  | |- ends _ _ (ret _) => apply ends_ret
  | |- ends _ _ (emit _) => apply ends_emit
  | |- ends _ _ (path_exists _) => apply ends_path_exists
  | |- ends _ _ (write_file _ _) => apply ends_write_file
  | |- ends _ _ (bind _ _) => apply ends_bind; [|intros]
  | |- ends _ _ (try_except _ _) => apply ends_try_except; [|intros]
  | |- ends _ _ (try_except_only _ _ _) => apply ends_try_except_only; [|intros]
  | |- ends _ _ (load_toml _) => apply ends_load_toml
  | |- ends _ _ (load_creds _) => apply ends_load_creds
  | |- ends _ _ (lift_result _) => apply ends_lift_result
  | |- ends _ _ (raise _) => apply ends_raise
  | |- ends _ _ (sys_exit 1) => apply ends_sys_exit_1
  end.

Ltac ends_tac :=
  repeat first
    [ ends_step
    | progress unfold logging, print, print_json, print_stderr
    | match goal with
      | |- ends _ _ (if ?b then _ else _) => destruct b
      | |- ends _ _ (match ?o with Some _ => _ | None => _ end) => destruct o
      | |- ends _ _ (match ?o with [] => _ | _ :: _ => _ end) => destruct o
      | |- ends _ _ (let '(_, _) := ?p in _) => destruct p
      end ].

Section HowCommandsEnd.
Variable E : Env.

Lemma ends_ensure_account n : ends false false (ensure_account E n).
Proof. unfold ensure_account. ends_tac. Qed.

Lemma ends_set_default_account n : ends false false (set_default_account E n).
Proof. unfold set_default_account. ends_tac. Qed.

Lemma ends_remove_account n : ends false false (remove_account E n).
Proof. unfold remove_account. ends_tac. Qed.

Lemma ends_load_config : ends true false (_load_config E).
Proof. unfold _load_config. ends_tac. Qed.

Lemma ends_init account : ends true false (GmailClient_init E account).
Proof. unfold GmailClient_init. apply ends_bind; [apply ends_load_config|]. intros. ends_tac. Qed.

Lemma ends_save_email self em : ends false false (_save_email_to_config E self em).
Proof. unfold _save_email_to_config. ends_tac. Qed.

Lemma ends_update_account_email self : ends false false (_update_account_email E self).
Proof.
  unfold _update_account_email. apply ends_try_except; [|intros; ends_tac].
  apply ends_bind; [apply ends_lift_result|]. intros em.
  destruct (opt_truthy em); [|apply ends_ret].
  apply ends_bind; [|intros; ends_tac].
  eapply ends_weaken; [apply ends_save_email|done..].
Qed.

Lemma ends_ensure_token_dir self : ends true false (ensure_token_dir self).
Proof.
  intros w o w' [_ Hx]%ensure_token_dir_same.
  destruct o as [a|e|c]; [done|done|by destruct (Hx c)].
Qed.

Lemma ends_authenticate self : ends true true (authenticate E self).
Proof.
  unfold authenticate, obtain_credentials.
  apply ends_bind; [|intros; ends_tac].
  apply ends_bind; [eapply ends_weaken; [apply ends_ensure_token_dir|done..]|intros _].
  unfold load_cached, reauthenticate, try_refresh, interactive_consent.
  ends_tac.
  all: unfold build_session; ends_tac;
    try (eapply ends_weaken; [apply ends_update_account_email|done..]).
Qed.

Lemma ends_main args :
  arg_check args = false →
  opt_truthy (arg_set_default args) || opt_truthy (arg_remove args)
  || opt_truthy (arg_auth args) = true →
  ends false true (main E args).
Proof.
  intros Hcheck Hcmd. unfold main. rewrite Hcheck.
  destruct (opt_truthy (arg_set_default args)).
  { apply ends_bind; [eapply ends_weaken; [apply ends_set_default_account|done..]|].
    intros. ends_tac. }
  destruct (opt_truthy (arg_remove args)).
  { eapply ends_weaken; [apply ends_remove_account|done..]. }
  destruct (opt_truthy (arg_auth args)).
  { apply ends_bind; [eapply ends_weaken; [apply ends_ensure_account|done..]|].
    intros ok. destruct (negb ok); [apply ends_ret|].
    apply ends_bind; [ends_tac|]. intros _.
    apply ends_try_except; [|intros; ends_tac].
    apply ends_bind; [eapply ends_weaken; [apply ends_init|done..]|]. intros client.
    apply ends_bind; [apply ends_authenticate|]. intros. ends_tac. }
  done.
Qed.
End HowCommandsEnd.

(** ** What account management leaves alone *)

Lemma keeps_emit q ev : is_write_to q ev = false → keeps q (emit ev).
Proof. intros He w o w' [= <- <-]. split; [done|]. simpl. by apply writes_to_snoc_other. Qed.

Lemma keeps_load_toml q p : keeps q (load_toml p).
Proof.
  intros w o w'. unfold load_toml.
  destruct (files w !! p) as [[]|]; intros [= <- <-]; apply untouched_refl.
Qed.

Ltac keeps_step :=
  lazymatch goal with
  | |- keeps _ (ret _) => apply keeps_ret
  | |- keeps _ (emit _) => apply keeps_emit; reflexivity
  | |- keeps _ (path_exists _) => apply keeps_path_exists
  | |- keeps _ (write_file _ _) => apply keeps_write_file; congruence
  | |- keeps _ (bind _ _) => apply keeps_bind; [|intros]
  | |- keeps _ (try_except _ _) => apply keeps_try_except; [|intros]
  | |- keeps _ (try_except_only _ _ _) => apply keeps_try_except_only; [|intros]
  | |- keeps _ (load_toml _) => apply keeps_load_toml
  | |- keeps _ (load_creds _) => apply keeps_load_creds
  | |- keeps _ (lift_result _) => apply keeps_lift_result
  | |- keeps _ (raise _) => apply keeps_raise
  | |- keeps _ (sys_exit _) => apply keeps_sys_exit
  end.

Ltac keeps_tac :=
  repeat first
    [ keeps_step
    | progress unfold logging, print, print_json, print_stderr
    | match goal with
      | |- keeps _ (if ?b then _ else _) => destruct b
      | |- keeps _ (match ?o with Some _ => _ | None => _ end) => destruct o
      | |- keeps _ (match ?o with [] => _ | _ :: _ => _ end) => destruct o
      end ].

Section AccountManagement.
Variable E : Env.

(** X1: the account-management functions [ensure_account],
    [set_default_account], [remove_account] and [get_available_accounts]
    always return, whatever the state of the configuration file: no
    exception and no exit leaves them.  The listing changes nothing, and
    the three updates touch no file other than the configuration: token
    files and the client secret are never written. *)
Theorem account_management_returns_and_spares_tokens (n : string) (w : World) :
  (∃ b w', ensure_account E n w = (Returned b, w'))
  ∧ (∃ b w', set_default_account E n w = (Returned b, w'))
  ∧ (∃ w', remove_account E n w = (Returned (), w'))
  ∧ (∃ l, get_available_accounts E w = (Returned l, w))
  ∧ (∀ q, q ≠ CONFIG_PATH E →
       keeps q (ensure_account E n) ∧ keeps q (set_default_account E n)
       ∧ keeps q (remove_account E n)).
Proof.
  split_and!.
  - apply ends_returns, ends_ensure_account.
  - apply ends_returns, ends_set_default_account.
  - destruct (ends_returns _ w (ends_remove_account E n)) as ([] & w' & H). eauto.
  - unfold get_available_accounts, try_except, bind, load_toml.
    destruct (files w !! CONFIG_PATH E) as [[]|]; eauto.
  - intros q Hq. split_and!.
    + unfold ensure_account. keeps_tac.
    + unfold set_default_account. keeps_tac.
    + unfold remove_account. keeps_tac.
Qed.

Lemma get_without_ne {V} (k x : string) (d : list (string * V)) :
  k ≠ x → PyDict.get k (PyDict.without x d) = PyDict.get k d.
Proof.
  intros Hne. unfold PyDict.without. induction d as [|[k' v] r IH]; [done|].
  rewrite filter_cons. simpl. destruct (decide (k' ≠ x)) as [Hk|Hk]; simpl.
  - by rewrite IH.
  - apply dec_stable in Hk. subst k'. rewrite bool_decide_eq_false_2 by done. done.
Qed.

Lemma keys_without {V} (x : string) (d : list (string * V)) :
  PyDict.keys (PyDict.without x d) = filter (λ k, k ≠ x) (PyDict.keys d).
Proof.
  unfold PyDict.keys, PyDict.without. induction d as [|[k' v] r IH]; [done|].
  rewrite fmap_cons, !filter_cons. simpl.
  destruct (decide (k' ≠ x)); simpl; [f_equal|]; apply IH.
Qed.

(** X2: on a configuration file that parses, [remove_account] of a
    configured account rewrites the file without that account and nothing
    else changed: the [gmail] section, the other accounts and their order
    are kept, and [get_available_accounts] then lists the rest.  The
    default account is not adjusted: removing the account that
    [default_account] names leaves a configuration on which the
    constructor without a name fails with account-not-found.  Removing
    an unknown account writes nothing. *)
Theorem remove_account_spec (w : World) (doc : ConfigDoc) (n : string) :
  files w !! CONFIG_PATH E = Some (FToml doc) →
  (∀ cfg, PyDict.get n (accounts_or_empty doc) = Some cfg →
     ∃ w' doc',
       remove_account E n w = (Returned (), w')
       ∧ files w' = <[CONFIG_PATH E := FToml doc']> (files w)
       ∧ gmail doc' = gmail doc
       ∧ PyDict.get n (accounts_or_empty doc') = None
       ∧ (∀ n', n' ≠ n → PyDict.get n' (accounts_or_empty doc')
                         = PyDict.get n' (accounts_or_empty doc))
       ∧ PyDict.keys (accounts_or_empty doc')
         = filter (λ k, k ≠ n) (PyDict.keys (accounts_or_empty doc))
       ∧ get_available_accounts E w' = (Returned (accounts_or_empty doc'), w')
       ∧ (∀ g, gmail doc = Some g → default_account g = Some n →
            resolve doc' None
            = inl (AccountNotFound n (PyDict.keys (accounts_or_empty doc')))))
  ∧ (PyDict.get n (accounts_or_empty doc) = None →
       ∃ w', remove_account E n w = (Returned (), w')
             ∧ files w' = files w
             ∧ ∀ q, writes_to q (trace w') = writes_to q (trace w)).
Proof.
  intros Hfile. split.
  - intros cfg Hget.
    destruct (accounts doc) as [accts|] eqn:Hacc; [|by unfold accounts_or_empty in Hget; rewrite Hacc in Hget].
    assert (Hae : accounts_or_empty doc = accts) by (unfold accounts_or_empty; by rewrite Hacc).
    rewrite Hae in *.
    set (doc' := {| gmail := gmail doc; accounts := Some (PyDict.without n accts) |}).
    eexists _, doc'. split_and!.
    + unfold remove_account, try_except, bind, load_toml. rewrite Hfile, Hacc.
      unfold PyDict.mem. rewrite Hget. reflexivity.
    + done.
    + done.
    + apply get_without.
    + intros n' Hn'. by apply get_without_ne.
    + apply keys_without.
    + unfold get_available_accounts, try_except, bind, load_toml. simpl.
      by rewrite lookup_insert_eq.
    + intros g Hg Hd. unfold resolve. simpl. rewrite Hg, Hd. simpl.
      change (accounts_or_empty doc') with (PyDict.without n accts).
      by rewrite get_without.
  - intros Hget. eexists. split_and!.
    + unfold remove_account, try_except, bind, load_toml. rewrite Hfile.
      destruct (accounts doc) as [accts|] eqn:Hacc; [|reflexivity].
      unfold accounts_or_empty in Hget. rewrite Hacc in Hget. simpl in Hget.
      unfold PyDict.mem. rewrite Hget. reflexivity.
    + done.
    + intros q. simpl. by rewrite writes_to_snoc_other.
Qed.
End AccountManagement.

Section AccountRoundTrips.
Variable E : Env.

Lemma ensure_account_fresh_run (w : World) (doc : ConfigDoc) (n : string) :
  files w !! CONFIG_PATH E = Some (FToml doc) →
  PyDict.get n (accounts_or_empty doc) = None →
  ensure_account E n w
  = (Returned true,
     {| files := <[CONFIG_PATH E :=
                     FToml {| gmail := gmail doc;
                              accounts := Some (PyDict.set n (fresh_account n)
                                                  (accounts_or_empty doc)) |}]> (files w);
        trace := (trace w ++ [EvWrite (CONFIG_PATH E)
                                (FToml {| gmail := gmail doc;
                                          accounts := Some (PyDict.set n (fresh_account n)
                                                              (accounts_or_empty doc)) |})])
                 ++ [EvPrint ("Account '" +:+ n +:+ "' added to config.")] |}).
Proof.
  intros Hfile Hget. unfold ensure_account, try_except, bind, load_toml. rewrite Hfile.
  unfold PyDict.mem. by rewrite Hget.
Qed.

Lemma ensure_account_present_run (w : World) (doc : ConfigDoc) (n : string) cfg :
  files w !! CONFIG_PATH E = Some (FToml doc) →
  PyDict.get n (accounts_or_empty doc) = Some cfg →
  ensure_account E n w = (Returned true, w).
Proof.
  intros Hfile Hget. unfold ensure_account, try_except, bind, load_toml. rewrite Hfile.
  unfold PyDict.mem. by rewrite Hget.
Qed.

(** X4: on a configuration with a [gmail] section, [ensure_account]
    followed by [set_default_account] for the same name both succeed, and
    afterwards the constructor without a name selects that account: with
    its previous settings when it existed, with the token path
    [tokens/<name>.json] when it was just added. *)
Theorem ensure_then_default_then_resolve (w : World) (doc : ConfigDoc) (g : GmailSection)
    (n : string) :
  files w !! CONFIG_PATH E = Some (FToml doc) →
  gmail doc = Some g →
  ∃ w1 w2 doc2 cfg,
    ensure_account E n w = (Returned true, w1)
    ∧ set_default_account E n w1 = (Returned true, w2)
    ∧ files w2 !! CONFIG_PATH E = Some (FToml doc2)
    ∧ resolve doc2 None = inr (n, cfg)
    ∧ (PyDict.get n (accounts_or_empty doc) = None → cfg = fresh_account n)
    ∧ (∀ old, PyDict.get n (accounts_or_empty doc) = Some old → cfg = old)
    ∧ (∀ sc, scopes g = Some sc →
         ∃ client, GmailClient_init E None w2 = (Returned client, w2)
                   ∧ self_account_name client = n
                   ∧ self_token_path client = resolve_token_path E n cfg).
Proof.
  intros Hfile Hg.
  assert (Hstep : ∀ w1 doc1 cfg,
            files w1 !! CONFIG_PATH E = Some (FToml doc1) → gmail doc1 = Some g →
            PyDict.get n (accounts_or_empty doc1) = Some cfg →
            ∃ w2 doc2,
              set_default_account E n w1 = (Returned true, w2)
              ∧ files w2 !! CONFIG_PATH E = Some (FToml doc2)
              ∧ resolve doc2 None = inr (n, cfg)
              ∧ (∀ sc, scopes g = Some sc →
                   ∃ client, GmailClient_init E None w2 = (Returned client, w2)
                             ∧ self_account_name client = n
                             ∧ self_token_path client = resolve_token_path E n cfg)).
  { intros w1 doc1 cfg Hf1 Hg1 Hget1.
    set (doc2 := {| gmail := Some {| scopes := scopes g; default_account := Some n;
                                     default_query := default_query g |};
                    accounts := accounts doc1 |}).
    assert (Hres : resolve doc2 None = inr (n, cfg)).
    { unfold resolve. simpl. change (accounts_or_empty doc2) with (accounts_or_empty doc1).
      by rewrite Hget1. }
    set (w2 := {| files := <[CONFIG_PATH E := FToml doc2]> (files w1);
                  trace := (trace w1 ++ [EvWrite (CONFIG_PATH E) (FToml doc2)])
                           ++ [EvPrint ("Default account set to '" +:+ n +:+ "'.")] |}).
    assert (Hf2 : files w2 !! CONFIG_PATH E = Some (FToml doc2)) by apply lookup_insert_eq.
    exists w2, doc2. split_and!; try done.
    - unfold set_default_account, try_except, bind, load_toml. rewrite Hf1.
      unfold PyDict.mem. rewrite Hget1. simpl. by rewrite Hg1.
    - intros sc Hsc. eexists. split.
      + unfold GmailClient_init, bind. rewrite (load_config_present _ _ _ Hf2), Hres.
        simpl. unfold config_scopes. simpl. by rewrite Hsc.
      + done. }
  destruct (PyDict.get n (accounts_or_empty doc)) as [old|] eqn:Hget.
  - destruct (Hstep w doc old Hfile Hg Hget) as (w2 & doc2 & H1 & H2 & H3 & H4).
    exists w, w2, doc2, old. split_and!; try done.
    + by eapply ensure_account_present_run.
    + by intros ? [= ->].
  - pose proof (ensure_account_fresh_run w doc n Hfile Hget) as Hens.
    match type of Hens with _ = (_, ?w0) => set (w1 := w0) in * end.
    destruct (Hstep w1 {| gmail := gmail doc;
                          accounts := Some (PyDict.set n (fresh_account n)
                                              (accounts_or_empty doc)) |}
                (fresh_account n)) as (w2 & doc2 & H1 & H2 & H3 & H4);
      [apply lookup_insert_eq|exact Hg|apply get_set_eq|].
    by exists w1, w2, doc2, (fresh_account n).
Qed.

(** ** Paths *)
Lemma startswith_app a b : startswith a (a +:+ b) = true.
Proof.
  induction a as [|c a IH]; [done|]. rewrite string_app_cons. simpl.
  by rewrite bool_decide_eq_true_2.
Qed.

Lemma isabs_app a b : isabs a = true → isabs (a +:+ b) = true.
Proof. destruct a as [|c a]; [done|]. rewrite string_app_cons. done. Qed.

(** X5: the token path of an account is the configured [token_path]
    when that is absolute, and otherwise begins with the skill directory;
    with an absolute skill directory it is always absolute, and without a
    configured [token_path] it is [<SKILL_DIR>/tokens/<name>.json]. *)
Theorem token_path_under_skill_dir (name : string) (cfg : AccountConfig) :
  (isabs (default (default_token_path name) (token_path cfg)) = true →
   resolve_token_path E name cfg = default (default_token_path name) (token_path cfg))
  ∧ (isabs (default (default_token_path name) (token_path cfg)) = false →
     startswith (SKILL_DIR E) (resolve_token_path E name cfg) = true)
  ∧ (isabs (SKILL_DIR E) = true → isabs (resolve_token_path E name cfg) = true)
  ∧ (token_path cfg = None → isabs (SKILL_DIR E) = true →
     ends_with_sep (SKILL_DIR E) = false →
     resolve_token_path E name cfg = SKILL_DIR E +:+ "/tokens/" +:+ name +:+ ".json").
Proof.
  unfold resolve_token_path. set (tp := default _ _). split_and!.
  - intros Habs. by rewrite Habs.
  - intros Hrel. rewrite Hrel. simpl. unfold path_join.
    unfold isabs in Hrel. rewrite Hrel.
    destruct (_ || _); apply startswith_app.
  - intros Hdir. destruct (isabs tp) eqn:Htp; simpl; [done|].
    unfold path_join. unfold isabs in Htp. rewrite Htp.
    destruct (_ || _); by apply isabs_app.
  - intros Hnone Hdir Hsep. subst tp. rewrite Hnone.
    change (isabs (default (default_token_path name) None)) with false.
    unfold path_join.
    change (startswith "/" (default (default_token_path name) None)) with false.
    rewrite Hsep, bool_decide_eq_false_2; [reflexivity|].
    intros Hempty. by rewrite Hempty in Hdir.
Qed.
End AccountRoundTrips.

(** ** Construction and authentication *)

Section Construction.
Variable E : Env.

Lemma resolve_inr config account n cfg :
  resolve config account = inr (n, cfg) →
  PyDict.get n (accounts_or_empty config) = Some cfg.
Proof.
  unfold resolve. destruct (if opt_truthy account then _ else _) as [e|n0]; [done|].
  destruct (PyDict.get n0 (accounts_or_empty config)) eqn:Hg; [|done].
  by intros [= <- <-].
Qed.

(** X6: the constructor [GmailClient.__init__] only reads: it changes
    no file and never exits.  When it returns, the account it selected is
    an entry of the configuration it loaded, no credentials or service
    are set yet, the address is the configured one, the token path is the
    resolved one, and the configuration is the parsed file or, without a
    file, the built-in default. *)
Theorem constructor_reads_only (account : option string) (w w' : World)
    (o : Outcome GmailClient) :
  GmailClient_init E account w = (o, w') →
  files w' = files w
  ∧ (∀ q, writes_to q (trace w') = writes_to q (trace w))
  ∧ (∀ c, o ≠ Exited c)
  ∧ (∀ client, o = Returned client →
       PyDict.get (self_account_name client) (accounts_or_empty (self_config client))
       = Some (self_account_config client)
       ∧ self_creds client = None
       ∧ self_service client = None
       ∧ self_account_email client = email (self_account_config client)
       ∧ self_token_path client
         = resolve_token_path E (self_account_name client) (self_account_config client)
       ∧ config_scopes (self_config client) = inr (self_scopes client)
       ∧ (files w !! CONFIG_PATH E = Some (FToml (self_config client))
          ∨ (files w !! CONFIG_PATH E = None ∧ self_config client = default_config))).
Proof.
  unfold GmailClient_init, bind, _load_config, try_except_only, load_toml.
  destruct (files w !! CONFIG_PATH E) as [[doc| |]|] eqn:Hfile; simpl.
  - destruct (resolve doc account) as [e|[n cfg]] eqn:Hres; simpl.
    { intros [= <- <-]. split_and!; done. }
    destruct (config_scopes doc) as [e|sc] eqn:Hsc; simpl.
    { intros [= <- <-]. split_and!; done. }
    intros [= <- <-]. split_and!; try done.
    intros client [= <-]. simpl. split_and!; try done; [exact (resolve_inr _ _ _ _ Hres)|by left].
  - intros [= <- <-]. split_and!; done.
  - intros [= <- <-]. split_and!; done.
  - destruct (resolve default_config account) as [e|[n cfg]] eqn:Hres; simpl.
    { intros [= <- <-]. split_and!; try done. intros q. simpl. by rewrite writes_to_snoc_other. }
    intros [= <- <-]. split_and!; try done.
    + intros q. simpl. by rewrite writes_to_snoc_other.
    + intros client [= <-]. simpl. split_and!; try done; [exact (resolve_inr _ _ _ _ Hres)|by right].
Qed.

Lemma keeps_build_session (self : GmailClient) (cr : Creds) (q : string) :
  q ≠ CONFIG_PATH E → keeps q (build_session E self cr).
Proof.
  intros Hq. unfold build_session, _update_account_email, _save_email_to_config. keeps_tac.
Qed.

Lemma build_session_returned (self self' : GmailClient) (cr : Creds) (w w' : World) :
  build_session E self cr w = (Returned self', w') →
  build E cr = inr ()
  ∧ self_service self' = Some cr
  ∧ self_creds self' = self_creds self
  ∧ self_config self' = self_config self
  ∧ self_account_name self' = self_account_name self
  ∧ self_account_config self' = self_account_config self
  ∧ self_scopes self' = self_scopes self
  ∧ self_credentials_path self' = self_credentials_path self
  ∧ self_token_path self' = self_token_path self
  ∧ (self_account_email self' = self_account_email self
     ∨ (opt_truthy (self_account_email self) = false
        ∧ getProfile E cr = inr (self_account_email self')
        ∧ opt_truthy (self_account_email self') = true)).
Proof.
  unfold build_session, try_except_only, bind.
  destruct (build E cr) as [e|[]] eqn:Hb; simpl.
  { destruct (is_HttpError e); [|done]. unfold sys_exit. simpl. done. }
  destruct (opt_truthy (self_account_email self)) eqn:Hem; simpl.
  { intros [= <- <-]. split_and!; try done. by left. }
  unfold _update_account_email, try_except, bind. simpl.
  destruct (getProfile E cr) as [e|em] eqn:Hp; simpl.
  { intros [= <- <-]. split_and!; try done. by left. }
  destruct (opt_truthy em) eqn:Ht; simpl.
  - destruct (ends_returns _ w (ends_save_email E (with_account_email
                 (with_service self (Some cr)) em) (default "" em))) as ([] & w1 & Hs).
    rewrite Hs. simpl. intros [= <- <-]. split_and!; try done. by right.
  - intros [= <- <-]. split_and!; try done. by left.
Qed.

(** How [obtain_credentials] can end and what it has then done to the
    token file. *)
Lemma obtain_credentials_cases (self : GmailClient) (w w1 : World) (o : Outcome Creds) :
  obtain_credentials E self w = (o, w1) →
  (∃ c, o = Returned c ∧ w1 = w ∧ valid c = true
        ∧ (files w !! self_token_path self = Some (FCreds c)
           ∨ (files w !! self_token_path self = None ∧ self_creds self = Some c)))
  ∨ (∃ c, o = Returned c
          ∧ files w1 = <[self_token_path self := FCreds c]> (files w)
          ∧ writes_to (self_token_path self) (trace w1)
            = S (writes_to (self_token_path self) (trace w))
          ∧ (∀ c0, files w !! self_token_path self = Some (FCreds c0) → valid c0 = false))
  ∨ ((∀ c, o ≠ Returned c) ∧ files w1 = files w
     ∧ writes_to (self_token_path self) (trace w1)
       = writes_to (self_token_path self) (trace w)).
Proof.
  assert (Hre : ∀ cr w0 o0 w2,
            reauthenticate E self cr w0 = (o0, w2) →
            (∃ c, o0 = Returned c
                  ∧ files w2 = <[self_token_path self := FCreds c]> (files w0)
                  ∧ writes_to (self_token_path self) (trace w2)
                    = S (writes_to (self_token_path self) (trace w0)))
            ∨ ((∀ c, o0 ≠ Returned c) ∧ files w2 = files w0
               ∧ writes_to (self_token_path self) (trace w2)
                 = writes_to (self_token_path self) (trace w0))).
  { intros cr w0 o0 w2. unfold reauthenticate, bind.
    assert (Hkr : ∀ q, keeps q (try_refresh E cr)).
    { intros q. unfold try_refresh. keeps_tac. }
    assert (Hkc : ∀ q, keeps q (interactive_consent E self)).
    { intros q. unfold interactive_consent. keeps_tac. }
    assert (Hfr : ∀ w5 o1 w3, try_refresh E cr w5 = (o1, w3) → files w3 = files w5).
    { intros w5 o1 w3. unfold try_refresh, try_except, bind.
      destruct cr as [c|]; [|by intros [= <- <-]].
      destruct (expired c && opt_truthy (refresh_token c)); [|by intros [= <- <-]].
      destruct (refresh E c); simpl; by intros [= <- <-]. }
    assert (Hfc : ∀ w3 o1 w4, interactive_consent E self w3 = (o1, w4) → files w4 = files w3).
    { intros w3 o1 w4. unfold interactive_consent, bind, path_exists. simpl.
      destruct (bool_decide _); simpl.
      - destruct (run_local_server E _ _); simpl; by intros [= <- <-].
      - unfold sys_exit. by intros [= <- <-]. }
    destruct (try_refresh E cr w0) as [[cr1|e|c] w3] eqn:Hr.
    - pose proof (Hfr _ _ _ Hr) as Hf3.
      destruct (Hkr (self_token_path self) _ _ _ Hr) as [_ Ht3].
      assert (Hwrite : ∀ c2 w4, files w4 = files w0 →
                writes_to (self_token_path self) (trace w4)
                = writes_to (self_token_path self) (trace w0) →
                (let* _ := write_file (self_token_path self) (FCreds c2) in ret c2) w4
                = (o0, w2) →
                ∃ c, o0 = Returned c
                     ∧ files w2 = <[self_token_path self := FCreds c]> (files w0)
                     ∧ writes_to (self_token_path self) (trace w2)
                       = S (writes_to (self_token_path self) (trace w0))).
      { intros c2 w4 Hf4 Ht4. unfold bind, write_file. simpl. intros [= <- <-].
        exists c2. split_and!; [done|simpl; by rewrite Hf4|].
        simpl. by rewrite writes_to_snoc_write, Ht4. }
      destruct cr1 as [c1|].
      + simpl. intros Hrun. left. exact (Hwrite c1 w3 Hf3 Ht3 Hrun).
      + destruct (interactive_consent E self w3) as [[c2|e|c] w4] eqn:Hc.
        * intros Hrun. left. refine (Hwrite c2 w4 _ _ Hrun).
          -- by rewrite (Hfc _ _ _ Hc).
          -- destruct (Hkc (self_token_path self) _ _ _ Hc) as [_ ->]. done.
        * intros [= <- <-]. right. split_and!; [done|by rewrite (Hfc _ _ _ Hc)|].
          destruct (Hkc (self_token_path self) _ _ _ Hc) as [_ ->]. done.
        * intros [= <- <-]. right. split_and!; [done|by rewrite (Hfc _ _ _ Hc)|].
          destruct (Hkc (self_token_path self) _ _ _ Hc) as [_ ->]. done.
    - intros [= <- <-]. right. split_and!; [done|by apply (Hfr _ _ _ Hr)|].
      by destruct (Hkr (self_token_path self) _ _ _ Hr) as [_ ->].
    - intros [= <- <-]. right. split_and!; [done|by apply (Hfr _ _ _ Hr)|].
      by destruct (Hkr (self_token_path self) _ _ _ Hr) as [_ ->]. }
  unfold obtain_credentials, bind.
  destruct (ensure_token_dir self w) as [[[]|e|c] w0] eqn:Hd;
    apply ensure_token_dir_same in Hd as [-> Hx];
    [|intros [= <- <-]; right; right; done|by destruct (Hx c)].
  unfold load_cached, bind.
  destruct (files w !! self_token_path self) as [f|] eqn:Htok.
  - rewrite (path_exists_Some _ _ _ Htok). unfold load_creds. rewrite Htok.
    destruct f as [doc|c|]; simpl.
    + intros [= <- <-]. right. right. done.
    + destruct (valid c) eqn:Hv.
      * intros [= <- <-]. left. exists c. split_and!; try done. by left.
      * intros Hrun. destruct (Hre _ _ _ _ Hrun) as [(c1 & -> & Hf & Ht)|H]; [|by right; right].
        right. left. exists c1. split_and!; try done. by intros c0 [= <-].
    + intros [= <- <-]. right. right. done.
  - rewrite (path_exists_None _ _ Htok). simpl.
    destruct (self_creds self) as [c|] eqn:Hsc.
    + destruct (valid c) eqn:Hv.
      * intros [= <- <-]. left. exists c. split_and!; try done. by right.
      * intros Hrun. destruct (Hre _ _ _ _ Hrun) as [(c1 & -> & Hf & Ht)|H]; [|by right; right].
        right. left. exists c1. split_and!; done.
    + intros Hrun. destruct (Hre _ _ _ _ Hrun) as [(c1 & -> & Hf & Ht)|H]; [|by right; right].
      right. left. exists c1. split_and!; done.
Qed.
End Construction.

Section Authentication.
Variable E : Env.

(** X7: when [authenticate] returns, the client holds credentials, the
    service was built from exactly these credentials, the account
    selection, scopes and paths of the client are unchanged, and the
    address either is unchanged or was empty and is now the non-empty
    address of the profile.  A valid cached token is used as it is. *)
Theorem authenticate_postcondition (self self' : GmailClient) (w w' : World) :
  authenticate E self w = (Returned self', w') →
  ∃ cr,
    self_creds self' = Some cr
    ∧ self_service self' = Some cr
    ∧ build E cr = inr ()
    ∧ self_config self' = self_config self
    ∧ self_account_name self' = self_account_name self
    ∧ self_account_config self' = self_account_config self
    ∧ self_scopes self' = self_scopes self
    ∧ self_credentials_path self' = self_credentials_path self
    ∧ self_token_path self' = self_token_path self
    ∧ (self_account_email self' = self_account_email self
       ∨ (opt_truthy (self_account_email self) = false
          ∧ getProfile E cr = inr (self_account_email self')
          ∧ opt_truthy (self_account_email self') = true))
    ∧ (∀ c, files w !! self_token_path self = Some (FCreds c) → valid c = true → cr = c).
Proof.
  unfold authenticate, bind.
  destruct (obtain_credentials E self w) as [[cr|e|c] w1] eqn:Hoc; [|done..].
  intros Hb. apply build_session_returned in Hb as (H1&H2&H3&H4&H5&H6&H7&H8&H9&H10).
  exists cr. split_and!; try done.
  intros c Hc Hv.
  destruct (obtain_credentials_cases E self w w1 _ Hoc)
    as [(c1 & [= <-] & _ & _ & [Hf|[Hf _]])|[(c1 & _ & _ & _ & Hinv)|[Hno _]]].
  - congruence.
  - congruence.
  - rewrite (Hinv _ Hc) in Hv. done.
  - by destruct (Hno cr).
Qed.

(** X8: provided the token file is not the configuration file,
    [authenticate] writes the token file at most once, and not at all
    when the cached token is valid.  When it returns for an account
    without token file, and when it returns with credentials that are
    not valid (an expired token without refresh token), it has written
    the token file exactly once. *)
Theorem token_file_written_at_most_once (self : GmailClient) (w w' : World)
    (o : Outcome GmailClient) :
  self_token_path self ≠ CONFIG_PATH E →
  authenticate E self w = (o, w') →
  (writes_to (self_token_path self) (trace w')
   ≤ S (writes_to (self_token_path self) (trace w)))%nat
  ∧ (∀ c, files w !! self_token_path self = Some (FCreds c) → valid c = true →
       untouched (self_token_path self) w w')
  ∧ (∀ self', o = Returned self' →
       files w !! self_token_path self = None → self_creds self = None →
       writes_to (self_token_path self) (trace w')
       = S (writes_to (self_token_path self) (trace w)))
  ∧ (∀ self' c, o = Returned self' → self_creds self' = Some c → valid c = false →
       writes_to (self_token_path self) (trace w')
       = S (writes_to (self_token_path self) (trace w))).
Proof.
  intros Hne. unfold authenticate, bind.
  destruct (obtain_credentials E self w) as [oc w1] eqn:Hoc.
  pose proof (obtain_credentials_cases E self w w1 _ Hoc) as Hcases.
  assert (Hbs : ∀ cr, ∀ w2 o2, build_session E (with_creds self (Some cr)) cr w1 = (o2, w2) →
            untouched (self_token_path self) w1 w2).
  { intros cr w2 o2 Hrun. eapply (keeps_build_session E _ cr); [exact Hne|exact Hrun]. }
  assert (Hcr : ∀ cr w2 self', build_session E (with_creds self (Some cr)) cr w1
                               = (Returned self', w2) → self_creds self' = Some cr).
  { intros cr w2 self' Hrun. apply build_session_returned in Hrun as (_&_&->&_). done. }
  destruct oc as [cr|e|c].
  - intros Hrun. destruct (Hbs _ _ _ Hrun) as [Hf2 Ht2].
    destruct Hcases as [(c1 & [= <-] & -> & Hv & Hsrc)|[(c1 & [= <-] & Hf & Ht & Hinv)|[Hno _]]];
      [| |by destruct (Hno cr)].
    + split_and!.
      * rewrite Ht2. lia.
      * intros _ _ _. done.
      * intros self' _ Hnone Hsc. destruct Hsrc as [?|[_ ?]]; congruence.
      * intros self' c -> Hsc Hvc. rewrite (Hcr _ _ _ Hrun) in Hsc. congruence.
    + split_and!.
      * rewrite Ht2, Ht. lia.
      * intros c Hc Hv. rewrite (Hinv _ Hc) in Hv. done.
      * intros self' _ _ _. by rewrite Ht2, Ht.
      * intros self' c _ _ _. by rewrite Ht2, Ht.
  - intros [= <- <-].
    destruct Hcases as [(c1 & ? & _)|[(c1 & ? & _)|(_ & Hf & Ht)]]; [done..|].
    split_and!; [rewrite Ht; lia| |done..]. intros _ _ _. by split; [rewrite Hf|].
  - intros [= <- <-].
    destruct Hcases as [(c1 & ? & _)|[(c1 & ? & _)|(_ & Hf & Ht)]]; [done..|].
    split_and!; [rewrite Ht; lia| |done..]. intros _ _ _. by split; [rewrite Hf|].
Qed.
End Authentication.

(** ** Headers and labels *)
Lemma ascii_lower_idem c : email_cli.ascii_lower (email_cli.ascii_lower c) = email_cli.ascii_lower c.
Proof. by destruct c as [[] [] [] [] [] [] [] []]. Qed.

Lemma lower_idem s : email_cli.lower (email_cli.lower s) = email_cli.lower s.
Proof. induction s as [|c r IH]; [done|]. simpl. by rewrite ascii_lower_idem, IH. Qed.

Lemma find_app_first {T} (f : T → bool) (pre post : list T) (x : T) :
  Forall (λ y, f y = false) pre → f x = true → List.find f (pre ++ x :: post) = Some x.
Proof.
  induction pre as [|a r IH]; simpl; intros Hpre Hx; [by rewrite Hx|].
  apply Forall_cons in Hpre as [Ha Hr]. rewrite Ha. by apply IH.
Qed.

Lemma find_none {T} (f : T → bool) (l : list T) :
  Forall (λ y, f y = false) l → List.find f l = None.
Proof.
  induction l as [|a r IH]; [done|]. intros [Ha Hr]%Forall_cons. simpl. rewrite Ha. by apply IH.
Qed.

(** X9: on ASCII header names, [get_header] returns the value of the
    first header whose name equals the requested one up to case, the
    default when there is none, and depends on the requested name only
    up to case. *)
Theorem get_header_first_match (hs : list (string * string)) (name dflt : string) :
  is_ascii name = true →
  Forall (λ h, is_ascii h.1 = true) hs →
  (∀ pre h post, hs = pre ++ h :: post →
     Forall (λ h', email_cli.lower h'.1 ≠ email_cli.lower name) pre →
     email_cli.lower h.1 = email_cli.lower name →
     email_cli.get_header hs name dflt = h.2)
  ∧ (Forall (λ h', email_cli.lower h'.1 ≠ email_cli.lower name) hs →
     email_cli.get_header hs name dflt = dflt)
  ∧ email_cli.get_header hs (email_cli.lower name) dflt = email_cli.get_header hs name dflt
  ∧ (∀ name', is_ascii name' = true → email_cli.lower name' = email_cli.lower name →
       email_cli.get_header hs name' dflt = email_cli.get_header hs name dflt).
Proof.
  intros _ _. split_and!.
  - intros pre h post -> Hpre Hh. unfold email_cli.get_header.
    rewrite find_app_first; [done| |by rewrite bool_decide_eq_true].
    eapply Forall_impl; [exact Hpre|]. intros h' Hh'. by rewrite bool_decide_eq_false.
  - intros Hall. unfold email_cli.get_header. rewrite find_none; [done|].
    eapply Forall_impl; [exact Hall|]. intros h' Hh'. by rewrite bool_decide_eq_false.
  - unfold email_cli.get_header. by rewrite lower_idem.
  - intros name' _ Heq. unfold email_cli.get_header. by rewrite Heq.
Qed.

Section LabelLookup.
Variable A : email_cli.Api.

(** X10: with a built service and a label listing that succeeds,
    [resolve_label] on ASCII text and ASCII label names returns without
    output.  An exact id match has priority: the first label with that id
    is returned; only when no id matches, the first label whose name
    equals the text up to case; and [(None, None, None)] when neither
    exists.  Without an id match the result depends on the text only up
    to case. *)
Theorem resolve_label_spec (client : GmailClient) (svc : Creds)
    (labels : list email_cli.Label) (x : string) (w : World) :
  self_service client = Some svc →
  email_cli.labels_list A svc = inr labels →
  is_ascii x = true →
  Forall (λ l, is_ascii (default "" (email_cli.label_name l)) = true) labels →
  ∃ r,
    email_cli.resolve_label A client x w = (Returned r, w)
    ∧ (∀ pre l post, labels = pre ++ l :: post →
         Forall (λ l', email_cli.label_id l' ≠ Some x) pre →
         email_cli.label_id l = Some x →
         r = label_triple l)
    ∧ (Forall (λ l', email_cli.label_id l' ≠ Some x) labels →
       (∀ pre l post, labels = pre ++ l :: post →
          Forall (λ l', email_cli.lower (default "" (email_cli.label_name l'))
                        ≠ email_cli.lower x) pre →
          email_cli.lower (default "" (email_cli.label_name l)) = email_cli.lower x →
          r = label_triple l)
       ∧ (Forall (λ l', email_cli.lower (default "" (email_cli.label_name l'))
                        ≠ email_cli.lower x) labels →
          r = (None, None, None))
       ∧ (∀ y, is_ascii y = true →
               Forall (λ l', email_cli.label_id l' ≠ Some y) labels →
               email_cli.lower y = email_cli.lower x →
               email_cli.resolve_label A client y w = (Returned r, w))).
Proof.
  intros Hs Hl _ _.
  assert (Hrun : ∀ y, email_cli.resolve_label A client y w
            = (Returned
                 match List.find (λ l, bool_decide (email_cli.label_id l = Some y)) labels with
                 | Some l => label_triple l
                 | None =>
                     match List.find
                             (λ l, bool_decide
                                     (email_cli.lower (default "" (email_cli.label_name l))
                                      = email_cli.lower y)) labels with
                     | Some l => label_triple l
                     | None => (None, None, None)
                     end
                 end, w)).
  { intros y. unfold email_cli.resolve_label, email_cli._list_labels, email_cli.service_of, bind.
    rewrite Hs. simpl. rewrite Hl. simpl.
    destruct (List.find _ labels); [done|]. by destruct (List.find _ labels). }
  eexists. split; [apply Hrun|]. split.
  - intros pre l post -> Hpre Hid.
    rewrite find_app_first; [done| |by rewrite bool_decide_eq_true].
    eapply Forall_impl; [exact Hpre|]. intros l' Hl'. by rewrite bool_decide_eq_false.
  - intros Hnoid.
    assert (Hfind : ∀ y, Forall (λ l', email_cli.label_id l' ≠ Some y) labels →
              List.find (λ l, bool_decide (email_cli.label_id l = Some y)) labels = None).
    { intros y Hy. apply find_none. eapply Forall_impl; [exact Hy|].
      intros l' Hl'. by rewrite bool_decide_eq_false. }
    rewrite (Hfind x Hnoid). split_and!.
    + intros pre l post Heq Hpre Hname. rewrite Heq.
      rewrite find_app_first; [done| |by rewrite bool_decide_eq_true].
      eapply Forall_impl; [exact Hpre|]. intros l' Hl'. by rewrite bool_decide_eq_false.
    + intros Hnone. rewrite find_none; [done|].
      eapply Forall_impl; [exact Hnone|]. intros l' Hl'. by rewrite bool_decide_eq_false.
    + intros y _ Hy Hlow. rewrite Hrun, (Hfind y Hy). by rewrite Hlow.
Qed.
End LabelLookup.

(** ** Identifier lists and batches *)

Section ParseIds.
Variable X : email_cli.Ext.

Lemma stripped_items_clean (l : list string) :
  Forall (λ i, i ≠ "" ∧ clean i)
         (map email_cli.strip (List.filter (λ i, str_truthy (email_cli.strip i)) l)).
Proof.
  induction l as [|a r IH]; simpl; [done|].
  destruct (str_truthy (email_cli.strip a)) eqn:Ha; [|done].
  simpl. constructor; [|done]. split; [|apply strip_clean].
  unfold str_truthy in Ha. apply negb_true_iff, bool_decide_eq_false in Ha. done.
Qed.

Lemma stripped_items_id (l : list string) :
  Forall (λ i, i ≠ "" ∧ clean i) l →
  map email_cli.strip (List.filter (λ i, str_truthy (email_cli.strip i)) l) = l.
Proof.
  induction l as [|a r IH]; [done|]. intros [[Hne Hcl] Hr]%Forall_cons. simpl.
  rewrite (clean_strip _ Hcl).
  unfold str_truthy at 1. rewrite bool_decide_eq_false_2 by done. simpl.
  rewrite (clean_strip _ Hcl). f_equal. by apply IH.
Qed.

(** X11: on ASCII input, the items of a JSON array being ASCII too,
    [parse_ids] changes no file, prints nothing to standard output and
    never exits.  It raises only what [json.loads] raises other than a
    decode error; the comma-separated form and a decode error always
    yield a list.  Every identifier it returns is non-empty and has no
    surrounding white space; an absent or empty input gives the empty
    list, and a non-empty result was produced without any output. *)
Theorem parse_ids_clean (ids_input : option string) (w : World) :
  is_ascii (default "" ids_input) = true →
  (∀ items, email_cli.json_loads X (email_cli.strip (default "" ids_input))
            = email_cli.JsonArray items →
            Forall (λ i, is_ascii i = true) items) →
  ∃ o w',
    email_cli.parse_ids X ids_input w = (o, w')
    ∧ files w' = files w
    ∧ json_output (trace w') = json_output (trace w)
    ∧ (∀ c, o ≠ Exited c)
    ∧ (∀ e, o = Raised e →
         w' = w
         ∧ startswith "[" (email_cli.strip (default "" ids_input)) = true
         ∧ email_cli.json_loads X (email_cli.strip (default "" ids_input))
           = email_cli.JsonRaises e)
    ∧ (∀ ids, o = Returned ids →
         Forall (λ i, i ≠ "" ∧ clean i) ids ∧ (ids ≠ [] → w' = w))
    ∧ (opt_truthy ids_input = false → o = Returned [] ∧ w' = w)
    ∧ (startswith "[" (email_cli.strip (default "" ids_input)) = false →
       ∃ ids, o = Returned ids)
    ∧ (∀ msg, email_cli.json_loads X (email_cli.strip (default "" ids_input))
              = email_cli.JsonDecodeError msg →
              ∃ ids, o = Returned ids).
Proof.
  intros _ _.
  unfold email_cli.parse_ids. destruct (opt_truthy ids_input) eqn:Ht; cbn [negb].
  2: { eexists _, _. split; [reflexivity|]. split_and!; try done.
       - by intros ids [= <-].
       - intros _. by eexists.
       - intros msg _. by eexists. }
  destruct (startswith "[" (email_cli.strip (default "" ids_input))) eqn:Hb.
  - destruct (email_cli.json_loads X (email_cli.strip (default "" ids_input)))
      as [parsed|msg|e] eqn:Hj.
    + eexists _, _. split; [reflexivity|]. split_and!; try done.
      intros ids [= <-]. split; [apply stripped_items_clean|done].
    + eexists _, _. split; [reflexivity|]. simpl. split_and!; try done.
      * unfold json_output. rewrite omap_app. simpl. by rewrite app_nil_r.
      * by intros ids [= <-].
      * intros msg' _. by eexists.
    + eexists _, _. split; [reflexivity|]. split_and!; try done.
      intros e' [= <-]. done.
  - eexists _, _. split; [reflexivity|]. split_and!; try done.
    + intros ids [= <-]. split; [apply stripped_items_clean|done].
    + intros _. by eexists.
    + intros msg _. by eexists.
Qed.

(** X12: [parse_ids] inverts the comma-separated form: joining
    non-empty ASCII identifiers that have no comma and no surrounding
    white space with commas, the first one not starting with a bracket,
    and parsing the text gives the identifiers back, in order. *)
Theorem parse_ids_join (ids : list string) (w : World) :
  Forall (λ i, is_ascii i = true) ids →
  Forall (λ i, i ≠ "" ∧ clean i ∧ has_char "," i = false) ids →
  startswith "[" (join_comma ids) = false →
  email_cli.parse_ids X (Some (join_comma ids)) w = (Returned ids, w).
Proof.
  intros _ Hall Hbr. destruct ids as [|a r]; [done|].
  assert (Hcl : Forall (λ x, x ≠ "" ∧ clean x) (a :: r)).
  { eapply Forall_impl; [exact Hall|]. by intros ? (?&?&?). }
  assert (Hne : join_comma (a :: r) ≠ "").
  { apply join_nonempty; [done|]. eapply Forall_impl; [exact Hall|]. by intros ? (?&?&?). }
  assert (Ht : opt_truthy (Some (join_comma (a :: r))) = true).
  { unfold opt_truthy, str_truthy. by rewrite bool_decide_eq_false_2. }
  unfold email_cli.parse_ids. rewrite Ht. cbn [negb].
  change (default "" (Some (join_comma (a :: r)))) with (join_comma (a :: r)).
  assert (Hnil : a :: r ≠ []) by done.
  rewrite (clean_strip _ (join_clean _ Hnil Hcl)). rewrite Hbr.
  rewrite split_join; [|done|].
  - by rewrite stripped_items_id.
  - eapply Forall_impl; [exact Hall|]. by intros ? (?&?&?).
Qed.
End ParseIds.

Section BatchFacts.
Variable E : Env.
Variable A : email_cli.Api.
Variable X : email_cli.Ext.

(** X13: with a built service, [batch_message_operation] returns a
    result document and has no effect of its own.  The identifiers are
    sent in consecutive batches of 50, the last one possibly shorter, in
    order and each exactly once; the result is [skipped] for no
    identifier, [success] with the number of identifiers when every
    batch succeeds, and [error] with the message of the first failing
    batch, whatever later batches would answer. *)
Theorem batch_message_operation_chunks (client : GmailClient) (svc : Creds)
    (ids : list string) (op : string) (w : World) :
  self_service client = Some svc →
  ∃ doc,
    email_cli.batch_message_operation X client ids op w = (Returned doc, w)
    ∧ concat (chunks 50 ids) = ids
    ∧ Forall (λ b, (0 < length b ≤ 50)%nat) (chunks 50 ids)
    ∧ (ids = [] →
       doc = JObj [("status", JStr "skipped"); ("count", JInt 0);
                   ("account", jopt (self_account_email client))])
    ∧ (ids ≠ [] → exec_all (email_cli.batch_execute X svc op) (chunks 50 ids) = None →
       doc = JObj [("status", JStr "success"); ("count", JInt (Z.of_nat (length ids)));
                   ("account", jopt (self_account_email client))])
    ∧ (∀ e, exec_all (email_cli.batch_execute X svc op) (chunks 50 ids) = Some e →
       doc = JObj [("status", JStr "error"); ("message", JStr (exn_message e));
                   ("account", jopt (self_account_email client))]).
Proof.
  intros Hs. destruct (chunks_spec 50 ids ltac:(lia)) as [Hcat Hsz].
  destruct ids as [|a r].
  { eexists. split; [reflexivity|]. split_and!; try done. }
  unfold email_cli.batch_message_operation, email_cli.service_of, bind. rewrite Hs.
  cbn match. unfold ret at 1.
  rewrite (execute_batches_chunks X svc op (a :: r) [] 0 (length (a :: r))); [|done..].
  simpl app.
  destruct (exec_all _ _) as [e|] eqn:Hex.
  - eexists. split; [reflexivity|]. split_and!; try done. by intros e' [= <-].
  - eexists. split; [reflexivity|]. split_and!; done.
Qed.

Lemma collect_pages_ok (pages : list (list string)) (acc : list string) (w : World) :
  email_cli.collect_pages (map inr pages) acc w = (Returned (acc ++ concat pages), w).
Proof.
  revert acc. induction pages as [|p r IH]; intros acc; simpl.
  - by rewrite app_nil_r.
  - unfold bind. simpl. rewrite IH. by rewrite <-app_assoc.
Qed.

End BatchFacts.

(** ** Output documents *)

Lemma json_output_snoc_json t d i : json_output (t ++ [EvJson d i]) = json_output t ++ [d].
Proof. unfold json_output. by rewrite omap_app. Qed.

Lemma json_output_snoc_other t ev :
  (∀ d i, ev ≠ EvJson d i) → json_output (t ++ [ev]) = json_output t.
Proof.
  intros Hev. unfold json_output. rewrite omap_app. simpl.
  destruct ev; try by rewrite app_nil_r. by destruct (Hev doc indent).
Qed.

Section DictUpdateFacts.
Context {V : Type}.

Lemma get_update (k : string) (base extra : list (string * V)) :
  NoDup (PyDict.keys extra) →
  PyDict.get k (PyDict.update base extra)
  = match PyDict.get k extra with
    | Some v => Some v
    | None => PyDict.get k base
    end.
Proof.
  unfold PyDict.update. revert base.
  induction extra as [|[k' v] r IH]; intros base Hnd; [done|].
  unfold PyDict.keys in Hnd. rewrite fmap_cons in Hnd.
  apply NoDup_cons in Hnd as [Hk' Hnd]. simpl in Hk'. simpl. rewrite IH by done.
  case_bool_decide as Hk.
  - subst k'. apply (get_None_keys k r) in Hk'. rewrite Hk'. apply get_set_eq.
  - destruct (PyDict.get k r); [done|]. apply get_set_ne. congruence.
Qed.

Lemma NoDup_update (base extra : list (string * V)) :
  NoDup (PyDict.keys base) → NoDup (PyDict.keys (PyDict.update base extra)).
Proof.
  unfold PyDict.update. revert base.
  induction extra as [|[k' v] r IH]; intros base Hnd; [done|].
  simpl. apply IH. by apply NoDup_set.
Qed.

Lemma NoDup_without (x : string) (d : list (string * V)) :
  NoDup (PyDict.keys d) → NoDup (PyDict.keys (PyDict.without x d)).
Proof. intros Hnd. rewrite keys_without. by apply NoDup_filter. Qed.
End DictUpdateFacts.

Lemma output_success_run (data : list (string * JVal)) (account : option string)
    (indent : option Z) (w : World) :
  email_cli.output_success data account indent w
  = (Returned (),
     {| files := files w;
        trace := trace w ++
          [EvJson (JObj (("status", JStr "success")
                         :: (if opt_truthy account
                             then PyDict.set "account" (jopt account)
                                    (PyDict.update [] (PyDict.without "status" data))
                             else PyDict.update [] (PyDict.without "status" data))))
                  indent] |}).
Proof.
  unfold email_cli.output_success, print_json, emit.
  rewrite update_head by apply get_without.
  destruct (opt_truthy account); [|done]. by rewrite set_head_ne.
Qed.

(** X14: for data with distinct keys, [output_success] prints one
    document whose keys are distinct and are [status], the data keys
    other than [status], and [account] when an account is given.  Every
    data field other than [status] and [account] is printed unchanged; a
    given account overrides an [account] field of the data, and without
    one that field is kept. *)
Theorem output_success_keeps_data (data : list (string * JVal)) (account : option string)
    (indent : option Z) (w : World) :
  NoDup (PyDict.keys data) →
  ∃ out,
    email_cli.output_success data account indent w
    = (Returned (), {| files := files w; trace := trace w ++ [EvJson (JObj out) indent] |})
    ∧ NoDup (PyDict.keys out)
    ∧ (∀ k, k ≠ "status" → k ≠ "account" → PyDict.get k out = PyDict.get k data)
    ∧ (opt_truthy account = true → PyDict.get "account" out = Some (jopt account))
    ∧ (opt_truthy account = false → PyDict.get "account" out = PyDict.get "account" data)
    ∧ (∀ k, k ∈ PyDict.keys out ↔
            k = "status" ∨ (opt_truthy account = true ∧ k = "account")
            ∨ (k ≠ "status" ∧ k ∈ PyDict.keys data)).
Proof.
  intros Hnd. eexists. split; [apply output_success_run|].
  set (clean_data := PyDict.without "status" data).
  assert (Hndc : NoDup (PyDict.keys clean_data)) by by apply NoDup_without.
  assert (Hgc : ∀ k, k ≠ "status" → PyDict.get k (PyDict.update [] clean_data) = PyDict.get k data).
  { intros k Hk. rewrite get_update by done. unfold clean_data.
    rewrite get_without_ne by done. by destruct (PyDict.get k data). }
  assert (Hst : PyDict.get "status" (PyDict.update [] clean_data) = None).
  { rewrite get_update by done. unfold clean_data. by rewrite get_without. }
  assert (Hnd0 : NoDup (PyDict.keys (("status", JStr "success") :: PyDict.update [] clean_data))).
  { unfold PyDict.keys. rewrite fmap_cons. apply NoDup_cons. split.
    - by apply get_None_keys.
    - apply NoDup_update. constructor. }
  assert (Hkeys0 : ∀ k, k ∈ PyDict.keys (PyDict.update [] clean_data)
                        ↔ k ≠ "status" ∧ k ∈ PyDict.keys data).
  { intros k. rewrite <-!get_Some_keys. destruct (decide (k = "status")) as [->|Hk].
    - rewrite Hst. split; [by intros [? ?]|by intros [? _]].
    - rewrite Hgc by done. tauto. }
  destruct (opt_truthy account) eqn:Hacc.
  - split_and!; try done.
    + rewrite <-set_head_ne by done. by apply NoDup_set.
    + intros k Hk Hk'. simpl. rewrite bool_decide_eq_false_2 by done.
      rewrite get_set_ne by done. by apply Hgc.
    + intros _. simpl. apply get_set_eq.
    + intros k. unfold PyDict.keys. rewrite fmap_cons, elem_of_cons.
      fold (PyDict.keys (PyDict.set "account" (jopt account) (PyDict.update [] clean_data))).
      rewrite <-get_Some_keys. destruct (decide (k = "account")) as [->|Hk].
      * rewrite get_set_eq. split; [intros _; right; left; done|intros _; right; by eexists].
      * rewrite get_set_ne by done. rewrite get_Some_keys, Hkeys0.
        split; [intros [?|?]; tauto|intros [?|[[_ ?]|?]]; [by left|done|by right]].
  - split_and!; try done.
    + intros k Hk Hk'. simpl. rewrite bool_decide_eq_false_2 by done. by apply Hgc.
    + intros _. simpl. by apply Hgc.
    + intros k. unfold PyDict.keys. rewrite fmap_cons, elem_of_cons.
      fold (PyDict.keys (PyDict.update [] clean_data)). rewrite Hkeys0.
      split; [intros [?|?]; tauto|intros [?|[[? _]|?]]; [by left|done|by right]].
Qed.

(** ** Commands that handle provider errors *)

Section ReportFacts.
Lemma silent_ret {T} (a : T) : silent (ret a).
Proof. by intros w o w' [= <- <-]. Qed.

Lemma silent_raise {T} e : silent (@raise T e).
Proof. by intros w o w' [= <- <-]. Qed.

Lemma silent_lift_result {T} (r : Exn + T) : silent (lift_result r).
Proof. destruct r; [apply silent_raise|apply silent_ret]. Qed.

Lemma silent_print_stderr s : silent (print_stderr s).
Proof.
  intros w o w'. unfold print_stderr, emit. intros [= <- <-].
  split_and!; try done. simpl. by apply json_output_snoc_other.
Qed.

Lemma silent_bind {T U} (m : M T) (k : T → M U) :
  silent m → (∀ a, silent (k a)) → silent (bind m k).
Proof.
  intros Hm Hk w o w'. unfold bind. destruct (m w) as [[a|e|c] w1] eqn:Hmw.
  - intros Hrun. destruct (Hm _ _ _ Hmw) as (?&?&_), (Hk _ _ _ _ Hrun) as (?&?&?).
    split_and!; [congruence|congruence|done].
  - intros [= <- <-]. by destruct (Hm _ _ _ Hmw) as (?&?&_).
  - intros [= <- <-]. destruct (Hm _ _ _ Hmw) as (_&_&Hx). by destruct (Hx c).
Qed.

Lemma tail_reports_bind {T} (m : M T) (k : T → M unit) :
  silent m → (∀ a, tail_reports (k a)) → tail_reports (bind m k).
Proof.
  intros Hm Hk w o w'. unfold bind. destruct (m w) as [[a|e|c] w1] eqn:Hmw.
  - intros Hrun. destruct (Hm _ _ _ Hmw) as (Hf&Hj&_), (Hk _ _ _ _ Hrun) as (Hf'&H).
    split; [congruence|]. destruct o; [|congruence|done].
    destruct H as (doc & Hd & Hs). exists doc. by rewrite Hd, Hj.
  - intros [= <- <-]. by destruct (Hm _ _ _ Hmw) as (?&?&_).
  - intros [= <- <-]. destruct (Hm _ _ _ Hmw) as (_&_&Hx). by destruct (Hx c).
Qed.

Lemma tail_reports_success data account indent :
  tail_reports (email_cli.output_success data account indent).
Proof.
  intros w o w'. rewrite output_success_run. intros [= <- <-]. split; [done|].
  eexists. split; [apply json_output_snoc_json|by left].
Qed.

Lemma tail_reports_error msg account : tail_reports (email_cli.output_error msg account).
Proof.
  intros w o w'. unfold email_cli.output_error, print_json, emit.
  destruct (opt_truthy account); intros [= <- <-]; (split; [done|]);
    (eexists; split; [apply json_output_snoc_json|by right]).
Qed.

(** A handler that reports turns a tail-reporting body into a command
    that always returns with exactly one document. *)
Lemma handled_reports_once (body : M unit) (h : Exn → M unit) (w : World) :
  tail_reports body → (∀ e, tail_reports (h e)) →
  (∀ e w0 o w', h e w0 = (o, w') → ∃ u, o = Returned u) →
  ∃ doc w',
    try_except body h w = (Returned (), w')
    ∧ files w' = files w
    ∧ json_output (trace w') = json_output (trace w) ++ [JObj doc]
    ∧ (PyDict.get "status" doc = Some (JStr "success")
       ∨ PyDict.get "status" doc = Some (JStr "error")).
Proof.
  intros Hb Hh Hret. unfold try_except.
  destruct (body w) as [[[]|e|c] w1] eqn:Hrun; destruct (Hb _ _ _ Hrun) as [Hf H].
  - destruct H as (doc & Hd & Hs). by exists doc, w1.
  - destruct (h e w1) as [o w2] eqn:Hh1. destruct (Hret _ _ _ _ Hh1) as [[] ->].
    destruct (Hh _ _ _ _ Hh1) as [Hf2 (doc & Hd & Hs)].
    exists doc, w2. split_and!; [done|congruence|by rewrite Hd, H|done].
  - done.
Qed.

Lemma output_error_returns msg account w0 o w' :
  email_cli.output_error msg account w0 = (o, w') → ∃ u, o = Returned u.
Proof.
  unfold email_cli.output_error, print_json, emit. intros [= <- <-]. by eexists.
Qed.
End ReportFacts.

Section HandledCommands.
Variable E : Env.
Variable A : email_cli.Api.
Variable X : email_cli.Ext.

Lemma silent_service_of client : silent (email_cli.service_of client).
Proof. unfold email_cli.service_of. destruct (self_service client); [apply silent_ret|apply silent_raise]. Qed.

Lemma silent_resolve_label client x : silent (email_cli.resolve_label A client x).
Proof.
  unfold email_cli.resolve_label, email_cli._list_labels.
  apply silent_bind.
  - apply silent_bind; [apply silent_service_of|intros; apply silent_lift_result].
  - intros labels. destruct (List.find _ labels); [apply silent_ret|].
    destruct (List.find _ labels); apply silent_ret.
Qed.

Lemma get_client_service (account : option string) (w w1 : World) (client : GmailClient) :
  email_cli.get_client E account w = (Returned client, w1) →
  ∃ svc, self_service client = Some svc.
Proof.
  unfold email_cli.get_client, bind.
  destruct (GmailClient_init E account w) as [[c0|e|c] w0]; [|done..].
  unfold authenticate, bind.
  destruct (obtain_credentials E c0 w0) as [[cr|e|c] w2]; [|done..].
  intros Hb. apply build_session_returned in Hb as (_ & Hs & _). eauto.
Qed.

Lemma silent_parse_ids (ids_input : option string) :
  silent (email_cli.parse_ids X ids_input).
Proof.
  unfold email_cli.parse_ids. destruct (opt_truthy ids_input); cbn [negb]; [|apply silent_ret].
  destruct (startswith "[" (email_cli.strip (default "" ids_input))); [|apply silent_ret].
  destruct (email_cli.json_loads X (email_cli.strip (default "" ids_input))) as [parsed|msg|e].
  - apply silent_ret.
  - apply silent_bind; [apply silent_print_stderr|intros; apply silent_ret].
  - apply silent_raise.
Qed.

(** X15: once the client is obtained, [cmd_filters_delete] and
    [cmd_labels_delete] always return, change no file, and print exactly
    one document to standard output, with status [success] or [error],
    whatever the provider answers.  [cmd_archive] does the same once its
    identifiers are parsed; without identifiers its document has status
    [success] and count 0, the [skipped] status the command passes being
    replaced.  The parsing is outside its handler: an exception of the
    parsing leaves the command. *)
Theorem handled_commands_report_once (account : option string) (w w1 : World)
    (client : GmailClient) :
  email_cli.get_client E account w = (Returned client, w1) →
  (∀ id, ∃ doc w',
      email_cli.cmd_filters_delete E A account id w = (Returned (), w')
      ∧ files w' = files w1
      ∧ json_output (trace w') = json_output (trace w1) ++ [JObj doc]
      ∧ (PyDict.get "status" doc = Some (JStr "success")
         ∨ PyDict.get "status" doc = Some (JStr "error")))
  ∧ (∀ name_or_id, ∃ doc w',
      email_cli.cmd_labels_delete E A account name_or_id w = (Returned (), w')
      ∧ files w' = files w1
      ∧ json_output (trace w') = json_output (trace w1) ++ [JObj doc]
      ∧ (PyDict.get "status" doc = Some (JStr "success")
         ∨ PyDict.get "status" doc = Some (JStr "error")))
  ∧ (∀ ids_input read ids w2,
      email_cli.parse_ids X ids_input w1 = (Returned ids, w2) →
      ∃ doc w',
        email_cli.cmd_archive E X account ids_input read w = (Returned (), w')
        ∧ files w' = files w1
        ∧ json_output (trace w') = json_output (trace w1) ++ [JObj doc]
        ∧ (PyDict.get "status" doc = Some (JStr "success")
           ∨ PyDict.get "status" doc = Some (JStr "error"))
        ∧ (ids = [] →
           doc = ("status", JStr "success") :: ("count", JInt 0)
                 :: (if opt_truthy (self_account_email client)
                     then [("account", jopt (self_account_email client))] else [])))
  ∧ (∀ ids_input read e w2,
      email_cli.parse_ids X ids_input w1 = (Raised e, w2) →
      email_cli.cmd_archive E X account ids_input read w = (Raised e, w2)).
Proof.
  intros Hc. split_and!.
  - intros id. unfold email_cli.cmd_filters_delete, bind. rewrite Hc.
    apply handled_reports_once; [|intros; apply tail_reports_error|intros ? ? ? ?; apply output_error_returns].
    apply tail_reports_bind; [apply silent_service_of|]. intros svc.
    apply tail_reports_bind; [apply silent_lift_result|]. intros _.
    apply tail_reports_success.
  - intros n. unfold email_cli.cmd_labels_delete, bind. rewrite Hc.
    apply handled_reports_once; [|intros; apply tail_reports_error|intros ? ? ? ?; apply output_error_returns].
    apply tail_reports_bind; [apply silent_resolve_label|]. intros [[lid lname] ltype].
    destruct (negb (opt_truthy lid)); [apply tail_reports_error|].
    destruct (bool_decide (ltype = Some "system")); [apply tail_reports_error|].
    apply tail_reports_bind; [apply silent_service_of|]. intros svc.
    apply tail_reports_bind; [apply silent_lift_result|]. intros _.
    apply tail_reports_success.
  - intros ids_input read ids w2 Hp. unfold email_cli.cmd_archive, bind. rewrite Hc, Hp.
    destruct (silent_parse_ids ids_input _ _ _ Hp) as (Hf2 & Hj2 & _).
    destruct ids as [|i0 ids].
    + rewrite output_success_run. eexists _, _. split; [reflexivity|]. simpl.
      split_and!; [done|by rewrite json_output_snoc_json, Hj2|by left|].
      intros _. by destruct (opt_truthy (self_account_email client)).
    + edestruct (handled_reports_once) as (doc & w' & Hr & Hf & Hj & Hs);
        [| |intros ? ? ? ?; apply output_error_returns|].
      3: { exists doc, w'. split; [exact Hr|]. split_and!; [congruence|by rewrite Hj, Hj2|done|].
           done. }
      * apply tail_reports_bind; [apply silent_service_of|]. intros svc.
        apply tail_reports_bind; [apply silent_lift_result|]. intros _.
        apply tail_reports_success.
      * intros; apply tail_reports_error.
  - intros ids_input read e w2 Hp. unfold email_cli.cmd_archive, bind. by rewrite Hc, Hp.
Qed.
End HandledCommands.

(** ** Batch commands and reading *)

Section BatchCommands.
Variable E : Env.
Variable A : email_cli.Api.
Variable X : email_cli.Ext.

Lemma batch_message_operation_run (client : GmailClient) (svc : Creds)
    (ids : list string) (op : string) (w : World) :
  self_service client = Some svc →
  ∃ doc, email_cli.batch_message_operation X client ids op w = (Returned doc, w).
Proof.
  intros Hs. unfold email_cli.batch_message_operation, email_cli.service_of, bind.
  destruct ids as [|a r]; [by eexists|]. rewrite Hs. cbn match. unfold ret at 1.
  destruct (email_cli.execute_batches _ _ _ _ _ _ _); by eexists.
Qed.

(** X16: once the client is obtained and the identifiers are parsed,
    [cmd_trash] and [cmd_untrash] return and print as their last output
    exactly the result document of [batch_message_operation] for the
    parsed identifiers; provider failures are reported in that document
    and never raised.  The parsing has no handler: an exception of the
    parsing leaves either command. *)
Theorem trash_commands_print_batch_result (account : option string) (ids_input : option string)
    (w w1 : World) (client : GmailClient) :
  email_cli.get_client E account w = (Returned client, w1) →
  (∀ ids w2, email_cli.parse_ids X ids_input w1 = (Returned ids, w2) →
     ∃ doc1 doc2,
       email_cli.batch_message_operation X client ids "trash" w2 = (Returned doc1, w2)
       ∧ email_cli.batch_message_operation X client ids "untrash" w2 = (Returned doc2, w2)
       ∧ email_cli.cmd_trash E X account ids_input w
         = (Returned (), {| files := files w2; trace := trace w2 ++ [EvJson doc1 None] |})
       ∧ email_cli.cmd_untrash E X account ids_input w
         = (Returned (), {| files := files w2; trace := trace w2 ++ [EvJson doc2 None] |})
       ∧ files w2 = files w1
       ∧ json_output (trace w2) = json_output (trace w1))
  ∧ (∀ e w2, email_cli.parse_ids X ids_input w1 = (Raised e, w2) →
       email_cli.cmd_trash E X account ids_input w = (Raised e, w2)
       ∧ email_cli.cmd_untrash E X account ids_input w = (Raised e, w2)).
Proof.
  intros Hc. destruct (get_client_service E _ _ _ _ Hc) as [svc Hs]. split.
  - intros ids w2 Hp.
    destruct (silent_parse_ids X ids_input _ _ _ Hp) as (Hf & Hj & _).
    destruct (batch_message_operation_run client svc ids "trash" w2 Hs) as [doc1 H1].
    destruct (batch_message_operation_run client svc ids "untrash" w2 Hs) as [doc2 H2].
    exists doc1, doc2. split_and!; try done.
    + unfold email_cli.cmd_trash, bind. by rewrite Hc, Hp, H1.
    + unfold email_cli.cmd_untrash, bind. by rewrite Hc, Hp, H2.
  - intros e w2 Hp. split.
    + unfold email_cli.cmd_trash, bind. by rewrite Hc, Hp.
    + unfold email_cli.cmd_untrash, bind. by rewrite Hc, Hp.
Qed.

(** X17: [cmd_cleanup], once the client is obtained.  When the cutoff
    date cannot be computed, the error of the date arithmetic leaves the
    command before anything is printed.  Otherwise, when every page of
    the listing is served, it changes no file; it prints one [success]
    document with count 0 and a message when no message is listed;
    otherwise it trashes the listed messages of all pages in consecutive
    batches of 50 and prints a [success] document with their number, or,
    when a batch fails, raises the error of the first failing batch
    without printing a document. *)
Theorem cmd_cleanup_spec (account : option string) (label : string) (days : Z)
    (w w1 : World) (client : GmailClient) (svc : Creds) (pages : list (list string)) :
  email_cli.get_client E account w = (Returned client, w1) →
  self_service client = Some svc →
  (∀ e, email_cli.date_before A days = inl e →
     email_cli.cmd_cleanup E A account label days w = (Raised e, w1))
  ∧ (∀ date, email_cli.date_before A days = inr date →
     (∀ q, email_cli.messages_list_query A svc q = map inr pages) →
     ∃ o w',
       email_cli.cmd_cleanup E A account label days w = (o, w')
       ∧ files w' = files w1
       ∧ (concat pages = [] →
          o = Returned ()
          ∧ json_output (trace w')
            = json_output (trace w1)
              ++ [JObj [("status", JStr "success"); ("count", JInt 0);
                        ("message", JStr "No old emails found");
                        ("account", jopt (self_account_email client))]])
       ∧ (concat pages ≠ [] →
          exec_all (email_cli.batch_trash A svc) (chunks 50 (concat pages)) = None →
          o = Returned ()
          ∧ json_output (trace w')
            = json_output (trace w1)
              ++ [JObj [("status", JStr "success");
                        ("count", JInt (Z.of_nat (length (concat pages))));
                        ("account", jopt (self_account_email client))]])
       ∧ (∀ e, concat pages ≠ [] →
          exec_all (email_cli.batch_trash A svc) (chunks 50 (concat pages)) = Some e →
          o = Raised e ∧ json_output (trace w') = json_output (trace w1))).
Proof.
  intros Hc Hs. split.
  { intros e Hd. unfold email_cli.cmd_cleanup, bind. by rewrite Hc, Hd. }
  intros date Hd Hl. unfold email_cli.cmd_cleanup, bind. rewrite Hc, Hd. cbn [lift_result].
  unfold ret at 1.
  unfold print_stderr at 1. unfold emit. unfold email_cli.service_of. rewrite Hs. cbn match.
  unfold ret at 1. rewrite Hl, collect_pages_ok.
  change ([] ++ concat pages) with (concat pages).
  destruct (concat pages) as [|i0 ids] eqn:Hcat.
  - eexists _, _. split; [unfold print_json, emit; reflexivity|]. simpl.
    split_and!; try done. intros _. split; [done|].
    rewrite json_output_snoc_json. f_equal. by apply json_output_snoc_other.
  - unfold print_stderr, emit. cbv zeta.
    rewrite (trash_in_batches_chunks A svc (i0 :: ids) [] 0 (length (i0 :: ids))); [|done..].
    simpl app. destruct (exec_all _ _) as [e|] eqn:Hex.
    + eexists _, _. split; [reflexivity|]. simpl. split_and!; try done.
      intros e' _ [= <-]. split; [done|].
      rewrite !json_output_snoc_other; done.
    + eexists _, _. split; [unfold print_json, emit; reflexivity|]. simpl.
      split_and!; try done. intros _ _. split; [done|].
      rewrite json_output_snoc_json. f_equal. rewrite !json_output_snoc_other; done.
Qed.
End BatchCommands.

Section ReadingFacts.
Variable B : Mailbox.

Lemma plain_body_find (ps : list Part) (dflt : string) (w : World) :
  plain_body B ps dflt w
  = match List.find (λ p, bool_decide (mimeType p = "text/plain") && opt_truthy (part_data p))
                    ps with
    | Some p => lift_result (urlsafe_b64decode B (default "" (part_data p))) w
    | None => (Returned dflt, w)
    end.
Proof.
  induction ps as [|p r IH]; [done|]. simpl.
  destruct (bool_decide (mimeType p = "text/plain")); [|done].
  by destruct (opt_truthy (part_data p)).
Qed.

(** X18: the body that [get_message_detail] extracts from a multipart
    payload is the decoded data of the first part that is [text/plain]
    and has data; parts of another type and [text/plain] parts without
    data are skipped, and the default text remains when no part
    qualifies. *)
Theorem plain_body_first_plain_part (ps : list Part) (dflt : string) (w : World) :
  (∀ pre p post d, ps = pre ++ p :: post →
     Forall (λ p', mimeType p' ≠ "text/plain" ∨ opt_truthy (part_data p') = false) pre →
     mimeType p = "text/plain" → part_data p = Some d → d ≠ "" →
     plain_body B ps dflt w = lift_result (urlsafe_b64decode B d) w)
  ∧ (Forall (λ p', mimeType p' ≠ "text/plain" ∨ opt_truthy (part_data p') = false) ps →
     plain_body B ps dflt w = (Returned dflt, w)).
Proof.
  assert (Hskip : ∀ l, Forall (λ p', mimeType p' ≠ "text/plain"
                                     ∨ opt_truthy (part_data p') = false) l →
            Forall (λ p', bool_decide (mimeType p' = "text/plain")
                          && opt_truthy (part_data p') = false) l).
  { intros l Hl. eapply Forall_impl; [exact Hl|]. intros p' [Hm|Hd].
    - by rewrite bool_decide_eq_false_2.
    - rewrite Hd. apply andb_false_r. }
  split.
  - intros pre p post d -> Hpre Hm Hd Hne. rewrite plain_body_find.
    rewrite (find_app_first _ pre post p); [by rewrite Hd|by apply Hskip|].
    rewrite bool_decide_eq_true_2 by done. rewrite Hd. simpl.
    unfold str_truthy. by rewrite bool_decide_eq_false_2.
  - intros Hall. rewrite plain_body_find. by rewrite find_none by by apply Hskip.
Qed.

(** X19: [list_messages] and [get_message_detail] change no file, print
    nothing to standard output and never exit; a provider error
    ([HttpError]) never leaves them, being logged and answered with the
    empty list or the empty dictionary, as is a client whose service was
    never built.  Only other exceptions can escape. *)
Theorem reading_never_raises_http_error (self : GmailClient) :
  (∀ query max_results w o w',
     list_messages B self query max_results w = (o, w') →
     files w' = files w
     ∧ json_output (trace w') = json_output (trace w)
     ∧ (∀ c, o ≠ Exited c)
     ∧ (∀ e, o = Raised e → is_HttpError e = false)
     ∧ (self_service self = None → o = Returned []))
  ∧ (∀ msg_id w o w',
     get_message_detail B self msg_id w = (o, w') →
     files w' = files w
     ∧ json_output (trace w') = json_output (trace w)
     ∧ (∀ c, o ≠ Exited c)
     ∧ (∀ e, o = Raised e → is_HttpError e = false)
     ∧ (self_service self = None → o = Returned (JObj []))
     ∧ (∀ svc m, self_service self = Some svc →
          messages_get B svc msg_id = inl (HttpError m) → o = Returned (JObj []))).
Proof.
  assert (Hlog : ∀ t lvl msg, json_output (t ++ [EvLog lvl msg]) = json_output t).
  { intros. by apply json_output_snoc_other. }
  assert (Hgen : ∀ {T} (m : M T) (h : Exn → M T) (dflt : T) w o w',
            (∀ o1 w1, m w = (o1, w1) → w1 = w ∧ ∀ c, o1 ≠ Exited c) →
            (∀ e, ∃ msg, h e = (let* _ := logging ERROR msg in ret dflt)) →
            try_except_only is_HttpError m h w = (o, w') →
            files w' = files w
            ∧ json_output (trace w') = json_output (trace w)
            ∧ (∀ c, o ≠ Exited c)
            ∧ (∀ e, o = Raised e → is_HttpError e = false)
            ∧ (∀ msg, m w = (Raised (HttpError msg), w) → o = Returned dflt)).
  { intros T m h dflt w o w' Hm Hh. unfold try_except_only.
    destruct (m w) as [[a|e|c] w1] eqn:Hrun; destruct (Hm _ _ eq_refl) as [-> Hx].
    - intros [= <- <-]. split_and!; done.
    - destruct (is_HttpError e) eqn:He.
      + destruct (Hh e) as [msg ->]. unfold bind, logging, emit. simpl.
        intros [= <- <-]. split_and!; try done. apply Hlog.
      + intros [= <- <-]. split_and!; try done.
        * by intros e' [= <-].
        * intros msg [= ->]. done.
    - by destruct (Hx c). }
  split.
  - intros query max_results w o w'. unfold list_messages.
    destruct (self_service self) as [svc|] eqn:Hs.
    2: { unfold bind, logging, emit. simpl. intros [= <- <-]. split_and!; try done. apply Hlog. }
    unfold bind at 1.
    destruct (match query with Some q => ret q | None => _ end w) as [[q|e|c] w0] eqn:Hq.
    + assert (w0 = w) as ->.
      { destruct query; [by injection Hq|]. destruct (gmail (self_config self)); by injection Hq. }
      intros Hrun. eapply (Hgen _ _ _ []) in Hrun as (?&?&?&?&?); [done| |by eauto].
      intros o1 w1. destruct (messages_list B svc q _); simpl; by intros [= <- <-].
    + intros [= <- <-]. destruct query; [done|].
      destruct (gmail (self_config self)); [done|]. injection Hq as <- <-.
      split_and!; try done. by intros e' [= <-].
    + destruct query; [done|]. by destruct (gmail (self_config self)).
  - intros msg_id w o w'. unfold get_message_detail.
    destruct (self_service self) as [svc|] eqn:Hs.
    2: { unfold bind, logging, emit. simpl. intros [= <- <-]. split_and!; try done. apply Hlog. }
    intros Hrun. eapply (Hgen _ _ _ (JObj [])) in Hrun as (?&?&?&?&Hhttp); [| |by eauto].
    + split_and!; try done. intros svc' m [= <-] Hm. apply (Hhttp m).
      unfold bind. by rewrite Hm.
    + intros o1 w1. unfold bind.
      destruct (messages_get B svc msg_id) as [e|message]; simpl; [by intros [= <- <-]|].
      set (body := match payload message with Some _ => _ | None => _ end).
      assert (Hbody : ∀ o2 w2, body w = (o2, w2) → w2 = w ∧ ∀ c, o2 ≠ Exited c).
      { unfold body. destruct (payload message) as [pl|]; [|by intros ? ? [= <- <-]].
        destruct (parts pl) as [ps|].
        - intros o2 w2. rewrite plain_body_find.
          destruct (List.find _ ps); [|by intros [= <- <-]].
          destruct (urlsafe_b64decode B _); simpl; by intros [= <- <-].
        - destruct (body_data pl) as [d|]; [|by intros ? ? [= <- <-]].
          destruct (opt_truthy d); [|by intros ? ? [= <- <-]].
          intros o2 w2. destruct (urlsafe_b64decode B _); simpl; by intros [= <- <-]. }
      destruct (body w) as [[b|e|c] w2] eqn:Hb; destruct (Hbody _ _ eq_refl) as [-> Hx];
        intros [= <- <-]; (split; [done|]); try done. by destruct (Hx c).
Qed.
End ReadingFacts.

Section MoveCommand.
Variable E : Env.
Variable A : email_cli.Api.
Variable X : email_cli.Ext.

(** X20: [cmd_move], once the client is obtained and the identifiers
    are parsed: without identifiers it prints a document with status
    [skipped] (where [cmd_archive] prints [success]); with identifiers,
    an error of the label listing is not handled and leaves the command
    as an exception; and when, on ASCII text and ASCII label names, no
    label has the given id or name and creation is not requested, the
    command reports label-not-found and modifies no message. *)
Theorem cmd_move_label_lookup (account ids_input : option string) (label : string)
    (create read : bool) (w w1 w2 : World) (client : GmailClient) (svc : Creds)
    (ids : list string) :
  email_cli.get_client E account w = (Returned client, w1) →
  self_service client = Some svc →
  email_cli.parse_ids X ids_input w1 = (Returned ids, w2) →
  (ids = [] →
   email_cli.cmd_move E A X account ids_input label create read w
   = (Returned (),
      {| files := files w2;
         trace := trace w2 ++
           [EvJson (JObj [("status", JStr "skipped"); ("count", JInt 0);
                          ("account", jopt (self_account_email client))]) None] |}))
  ∧ (ids ≠ [] → ∀ e, email_cli.labels_list A svc = inl e →
     email_cli.cmd_move E A X account ids_input label create read w = (Raised e, w2))
  ∧ (ids ≠ [] → ∀ labels, email_cli.labels_list A svc = inr labels →
     is_ascii label = true →
     Forall (λ l, is_ascii (default "" (email_cli.label_name l)) = true) labels →
     Forall (λ l, email_cli.label_id l ≠ Some label
                  ∧ email_cli.lower (default "" (email_cli.label_name l))
                    ≠ email_cli.lower label) labels →
     create = false →
     email_cli.cmd_move E A X account ids_input label create read w
     = email_cli.output_error
         ("Label not found: '" +:+ label
          +:+ "'. Use --create to create it, or check existing labels with 'labels list'.")
         (self_account_email client) w2).
Proof.
  intros Hc Hs Hp. split_and!.
  - intros ->. unfold email_cli.cmd_move, bind. by rewrite Hc, Hp.
  - intros Hne e Hl. unfold email_cli.cmd_move, bind. rewrite Hc, Hp.
    destruct ids as [|i0 ids]; [done|].
    unfold email_cli.ensure_label, email_cli.resolve_label, email_cli._list_labels,
      email_cli.service_of, bind.
    rewrite Hs. simpl. by rewrite Hl.
  - intros Hne labels Hl _ _ Hno ->. unfold email_cli.cmd_move, bind. rewrite Hc, Hp.
    destruct ids as [|i0 ids]; [done|].
    unfold email_cli.ensure_label, email_cli.resolve_label, email_cli._list_labels,
      email_cli.service_of, bind.
    rewrite Hs. simpl. rewrite Hl. simpl.
    rewrite find_none; [rewrite find_none; [done|]|].
    + eapply Forall_impl; [exact Hno|]. intros l [_ Hn]. by rewrite bool_decide_eq_false.
    + eapply Forall_impl; [exact Hno|]. intros l [Hi _]. by rewrite bool_decide_eq_false.
Qed.
End MoveCommand.

(** X21: the account manager's [main] with [--set-default], [--remove]
    or [--auth] (and without [--check]), for any state of the files,
    either returns or exits with status 1; no exception leaves it. *)
Theorem main_returns_or_exits_1 (E : Env) (args : Args) (w w' : World) (o : Outcome unit) :
  arg_check args = false →
  opt_truthy (arg_set_default args) || opt_truthy (arg_remove args)
  || opt_truthy (arg_auth args) = true →
  main E args w = (o, w') → o = Returned () ∨ o = Exited 1.
Proof.
  intros Hcheck Hcmd Hrun. pose proof (ends_main E args Hcheck Hcmd _ _ _ Hrun) as H.
  destruct o as [[]|e|c]; [by left|done|]. destruct H as [_ ->]. by right.
Qed.

(** ** Sample runs *)

Lemma get_client_ready :
  email_cli.get_client sample_env None ready_world = (Returned ready_client, ready_world).
Proof. reflexivity. Qed.

Lemma remove_account_spec_witness :
  files configured_world !! CONFIG_PATH sample_env = Some (FToml sample_doc)
  ∧ ∃ w' doc',
      remove_account sample_env "work" configured_world = (Returned (), w')
      ∧ files w' !! CONFIG_PATH sample_env = Some (FToml doc')
      ∧ PyDict.keys (accounts_or_empty doc') = ["default"].
Proof.
  split; [reflexivity|].
  destruct (proj1 (remove_account_spec sample_env configured_world sample_doc "work" eq_refl)
              _ eq_refl) as (w' & doc' & Hrun & Hf & _ & _ & _ & Hk & _).
  exists w', doc'. split_and!; [done|rewrite Hf; apply lookup_insert_eq|rewrite Hk; reflexivity].
Defined.

Lemma ensure_then_default_then_resolve_witness :
  ∃ w1 w2 client,
    ensure_account sample_env "team" configured_world = (Returned true, w1)
    ∧ set_default_account sample_env "team" w1 = (Returned true, w2)
    ∧ GmailClient_init sample_env None w2 = (Returned client, w2)
    ∧ self_account_name client = "team"
    ∧ self_token_path client = "/opt/skill/tokens/team.json".
Proof.
  destruct (ensure_then_default_then_resolve sample_env configured_world sample_doc _ "team"
              eq_refl eq_refl) as (w1 & w2 & doc2 & cfg & H1 & H2 & _ & _ & Hnew & _ & Hinit).
  destruct (Hinit _ eq_refl) as (client & Hc & Hn & Hp).
  exists w1, w2, client. split_and!; try done.
  rewrite Hp, (Hnew eq_refl). reflexivity.
Defined.

Lemma main_returns_or_exits_1_witness :
  (main revoked_env
     {| arg_auth := Some "work"; arg_set_default := None; arg_list := false;
        arg_remove := None; arg_check := false |}
     (world_without_secret expired_creds)).1 = Returned ()
  ∨ (main revoked_env
       {| arg_auth := Some "work"; arg_set_default := None; arg_list := false;
          arg_remove := None; arg_check := false |}
       (world_without_secret expired_creds)).1 = Exited 1.
Proof.
  exact (main_returns_or_exits_1 revoked_env
           {| arg_auth := Some "work"; arg_set_default := None; arg_list := false;
              arg_remove := None; arg_check := false |}
           (world_without_secret expired_creds) _ _
           eq_refl eq_refl (surjective_pairing _)).
Defined.

Lemma constructor_reads_only_witness :
  GmailClient_init sample_env (Some "work") configured_world
  = (Returned work_client, configured_world)
  ∧ self_creds work_client = None
  ∧ self_token_path work_client
    = resolve_token_path sample_env "work" (self_account_config work_client).
Proof.
  split; [reflexivity|].
  destruct (constructor_reads_only sample_env (Some "work") configured_world configured_world
              (Returned work_client) eq_refl) as (_ & _ & _ & H).
  destruct (H work_client eq_refl) as (_ & H1 & _ & _ & H2 & _). by split.
Defined.

Lemma authenticate_postcondition_witness :
  ∃ self' w',
    authenticate sample_env work_client (world_with_token valid_creds) = (Returned self', w')
    ∧ self_creds self' = Some valid_creds
    ∧ self_service self' = Some valid_creds.
Proof.
  assert (∃ self' w', authenticate sample_env work_client (world_with_token valid_creds)
                      = (Returned self', w')) as (self' & w' & Hrun)
    by (eexists _, _; reflexivity).
  destruct (authenticate_postcondition sample_env work_client self' _ w' Hrun)
    as (cr & H1 & H2 & _ & _ & _ & _ & _ & _ & _ & _ & Hc).
  rewrite (Hc valid_creds eq_refl eq_refl) in H1, H2.
  exists self', w'. repeat split; assumption.
Defined.

Lemma token_file_written_at_most_once_witness :
  ∃ self' w',
    authenticate sample_env work_client (world_with_token stale_creds) = (Returned self', w')
    ∧ self_creds self' = Some stale_creds
    ∧ valid stale_creds = false
    ∧ writes_to (self_token_path work_client) (trace w') = 1%nat.
Proof.
  assert (∃ self' w', authenticate sample_env work_client (world_with_token stale_creds)
                      = (Returned self', w') ∧ self_creds self' = Some stale_creds)
    as (self' & w' & Hrun & Hcr) by (eexists _, _; split; reflexivity).
  assert (Hne : self_token_path work_client ≠ CONFIG_PATH sample_env) by done.
  destruct (token_file_written_at_most_once sample_env work_client _ w' _ Hne Hrun)
    as (_ & _ & _ & H).
  pose proof (H self' stale_creds eq_refl Hcr eq_refl) as Hw.
  exists self', w'. split_and!; [assumption|assumption|reflexivity|assumption].
Defined.

Lemma resolve_label_spec_witness :
  email_cli.resolve_label sample_api ready_client "receipts" ready_world
  = (Returned (Some "Label_7", Some "Receipts", Some "user"), ready_world).
Proof.
  assert (Hascii : Forall (λ l, is_ascii (default "" (email_cli.label_name l)) = true)
                           sample_labels) by (by repeat constructor).
  destruct (resolve_label_spec sample_api ready_client valid_creds sample_labels "receipts"
              ready_world eq_refl eq_refl eq_refl Hascii) as (r & Hrun & _ & Hname).
  rewrite Hrun. f_equal. f_equal.
  assert (Hid : Forall (λ l, email_cli.label_id l ≠ Some "receipts") sample_labels)
    by (repeat constructor; discriminate).
  destruct (Hname Hid) as (Hfirst & _).
  refine (Hfirst [{| email_cli.label_id := Some "INBOX"; email_cli.label_name := Some "INBOX";
                     email_cli.label_type := Some "system" |}]
            {| email_cli.label_id := Some "Label_7"; email_cli.label_name := Some "Receipts";
               email_cli.label_type := Some "user" |} [] eq_refl _ eq_refl).
  repeat constructor. discriminate.
Defined.

Lemma parse_ids_clean_witness :
  ∃ ids w',
    email_cli.parse_ids sample_ext (Some " 18c1a, ,18c1b ") fresh_world = (Returned ids, w')
    ∧ Forall (λ i, i ≠ "" ∧ clean i) ids.
Proof.
  destruct (parse_ids_clean sample_ext (Some " 18c1a, ,18c1b ") fresh_world eq_refl)
    as (o & w' & Hrun & _ & _ & _ & _ & Hret & _ & Hcomma & _); [discriminate|].
  destruct (Hcomma eq_refl) as [ids ->].
  exists ids, w'. split; [done|]. exact (proj1 (Hret ids eq_refl)).
Defined.

Lemma parse_ids_join_witness :
  email_cli.parse_ids sample_ext (Some "18c1a,18c1b") fresh_world
  = (Returned ["18c1a"; "18c1b"], fresh_world).
Proof.
  refine (parse_ids_join sample_ext ["18c1a"; "18c1b"] fresh_world _ _ eq_refl).
  - by repeat constructor.
  - repeat constructor; discriminate.
Defined.

Lemma batch_message_operation_chunks_witness :
  email_cli.batch_message_operation sample_ext ready_client ["m1"; "m2"; "m3"] "trash" ready_world
  = (Returned (JObj [("status", JStr "success"); ("count", JInt 3);
                     ("account", JStr "me@example.com")]), ready_world).
Proof.
  destruct (batch_message_operation_chunks sample_ext ready_client valid_creds
              ["m1"; "m2"; "m3"] "trash" ready_world eq_refl)
    as (doc & Hrun & _ & _ & _ & Hok & _).
  rewrite Hrun, Hok; [reflexivity|discriminate|reflexivity].
Defined.

Lemma cmd_cleanup_spec_witness :
  ∃ w',
    email_cli.cmd_cleanup sample_env sample_api None "INBOX" 30 ready_world = (Returned (), w')
    ∧ json_output (trace w')
      = [JObj [("status", JStr "success"); ("count", JInt 3);
               ("account", JStr "me@example.com")]].
Proof.
  destruct (proj2 (cmd_cleanup_spec sample_env sample_api None "INBOX" 30 ready_world
                     ready_world ready_client valid_creds [["m1"; "m2"]; ["m3"]]
                     eq_refl eq_refl) _ eq_refl (λ _, eq_refl))
    as (o & w' & Hrun & _ & _ & Hok & _).
  destruct Hok as [-> Hj]; [discriminate|reflexivity|].
  exists w'. split; assumption.
Defined.

Lemma output_success_keeps_data_witness :
  ∃ out w',
    email_cli.output_success [("count", JInt 0); ("status", JStr "skipped")]
      (Some "me@example.com") None fresh_world = (Returned (), w')
    ∧ trace w' = [EvJson (JObj out) None]
    ∧ PyDict.get "count" out = Some (JInt 0)
    ∧ PyDict.get "account" out = Some (JStr "me@example.com").
Proof.
  assert (Hnd : NoDup (PyDict.keys [("count", JInt 0); ("status", JStr "skipped")])).
  { exact (bool_decide_unpack (NoDup ["count"; "status"]) I). }
  destruct (output_success_keeps_data [("count", JInt 0); ("status", JStr "skipped")]
              (Some "me@example.com") None fresh_world Hnd)
    as (out & Hrun & _ & Hk & Ha & _).
  eexists out, _. split; [exact Hrun|]. split_and!; [reflexivity| |by apply Ha].
  by rewrite Hk.
Defined.

Lemma handled_commands_report_once_witness :
  ∃ w',
    email_cli.cmd_archive sample_env sample_ext None None false ready_world = (Returned (), w')
    ∧ json_output (trace w')
      = [JObj [("status", JStr "success"); ("count", JInt 0);
               ("account", JStr "me@example.com")]].
Proof.
  destruct (proj1 (proj2 (proj2 (handled_commands_report_once sample_env sample_api sample_ext
                                   None ready_world ready_world ready_client eq_refl)))
              None false [] ready_world eq_refl)
    as (doc & w' & Hrun & _ & Hj & _ & Hdoc).
  exists w'. split; [done|]. by rewrite Hj, (Hdoc eq_refl).
Defined.

Lemma trash_commands_print_batch_result_witness :
  ∃ w',
    email_cli.cmd_trash sample_env sample_ext None (Some "m1, m2") ready_world
    = (Returned (), w')
    ∧ json_output (trace w')
      = [JObj [("status", JStr "success"); ("count", JInt 2);
               ("account", JStr "me@example.com")]].
Proof.
  destruct (proj1 (trash_commands_print_batch_result sample_env sample_ext None
                     (Some "m1, m2") ready_world ready_world ready_client eq_refl)
              ["m1"; "m2"] ready_world eq_refl)
    as (doc1 & doc2 & H1 & _ & Hrun & _).
  eexists. split; [exact Hrun|]. simpl.
  injection H1 as <-. reflexivity.
Defined.

Lemma cmd_move_label_lookup_witness :
  email_cli.cmd_move sample_env failing_api sample_ext None (Some "m1") "Receipts" false false
    ready_world
  = (Raised (HttpError "HttpError 503: backend unavailable"), ready_world).
Proof.
  refine (proj1 (proj2 (cmd_move_label_lookup sample_env failing_api sample_ext None (Some "m1")
                           "Receipts" false false ready_world ready_world ready_world
                           ready_client valid_creds ["m1"] eq_refl eq_refl eq_refl))
            _ _ eq_refl).
  discriminate.
Defined.

Lemma token_path_under_skill_dir_witness :
  resolve_token_path sample_env "work" {| email := None; token_path := None; other_keys := [] |}
  = "/opt/skill/tokens/work.json".
Proof.
  exact (proj2 (proj2 (proj2 (token_path_under_skill_dir sample_env "work"
                                {| email := None; token_path := None; other_keys := [] |})))
           eq_refl eq_refl eq_refl).
Defined.

Lemma get_header_first_match_witness :
  email_cli.get_header [("From", "a@example.com"); ("Subject", "Hi"); ("subject", "Re: Hi")]
    "SUBJECT" "" = "Hi".
Proof.
  refine (proj1 (get_header_first_match
                   [("From", "a@example.com"); ("Subject", "Hi"); ("subject", "Re: Hi")]
                   "SUBJECT" "" eq_refl _)
            [("From", "a@example.com")] ("Subject", "Hi") [("subject", "Re: Hi")]
            eq_refl _ eq_refl).
  - by repeat constructor.
  - repeat constructor. discriminate.
Defined.

Lemma plain_body_first_plain_part_witness :
  plain_body failing_mailbox
    [{| mimeType := "text/html"; part_data := Some "PGI-" |};
     {| mimeType := "text/plain"; part_data := None |};
     {| mimeType := "text/plain"; part_data := Some "aGk" |};
     {| mimeType := "text/plain"; part_data := Some "Ynll" |}]
    "No plain text body found." fresh_world
  = (Returned "aGk", fresh_world).
Proof.
  refine (proj1 (plain_body_first_plain_part failing_mailbox _ _ fresh_world)
            [{| mimeType := "text/html"; part_data := Some "PGI-" |};
             {| mimeType := "text/plain"; part_data := None |}]
            {| mimeType := "text/plain"; part_data := Some "aGk" |}
            [{| mimeType := "text/plain"; part_data := Some "Ynll" |}]
            "aGk" eq_refl _ eq_refl eq_refl _); [|discriminate].
  constructor; [left; discriminate|]. constructor; [right; reflexivity|]. constructor.
Defined.

Lemma reading_never_raises_http_error_witness :
  ∃ w',
    get_message_detail failing_mailbox ready_client "m1" ready_world = (Returned (JObj []), w')
    ∧ files w' = files ready_world.
Proof.
  assert (∃ o w', get_message_detail failing_mailbox ready_client "m1" ready_world = (o, w'))
    as (o & w' & Hrun) by (eexists _, _; reflexivity).
  destruct (proj2 (reading_never_raises_http_error failing_mailbox ready_client) _ _ _ _ Hrun)
    as (Hf & _ & _ & _ & _ & Hhttp).
  rewrite (Hhttp valid_creds _ eq_refl eq_refl) in Hrun. by exists w'.
Defined.
